(** * motion-dino: the pose-gesture state machine and the challenge matcher

    A shallow embedding of the gesture core of the repository:
      - [computeTierSignal], [estimateGesture], [createRuntime] and the frame
        body of the detection loop of [usePoseGesture] (the hook file that
        declares [PoseGesture], [GestureRuntime] and the tuning constants);
      - [checkPoseMatch] of the challenge file, with the hold tracking of the
        welcome scene that calls it;
    and of what uses it:
      - the game ([Game]): the runtime update of [updateAndRender] with its
        helpers, the key handlers and the effects that turn the published
        pose into input and start the game;
      - the skeleton overlay ([Skeleton]): [getSmoothedPosition] and
        [drawSkeleton];
      - the welcome scene ([Welcome]): the detect effect, the challenge
        check, the timeout ticker and [advanceChallenge].

    JavaScript numbers are modelled as exact rationals ([Q]): every constant
    and every arithmetic expression is the one of the source, evaluated
    without rounding (no NaN, no infinity), and [==] is equality of
    rationals.  Where the rounding of double precision decides whether a
    statement holds (the mean of equal samples), the computation is
    embedded a second time on binary64 numbers ([Double]), and the
    statement is settled there.  Counters that the source only increments
    by one or resets to zero are [nat].  The mutable runtime object is
    passed explicitly: a function that mutates it returns the new runtime
    next to its result.
    A frame is what the detector returned for it and the time of the tick;
    the video element, the loading of the landmarker and the scheduling of
    ticks are outside the model. *)

From Stdlib Require Import String QArith Qminmax Qabs Qpower Bool Arith ZArith Znat Lia Lqa List Floats.
Import ListNotations.
Local Open Scope Q_scope.

(** ** Number comparisons of the source, as booleans *)

(** [a < b] *)
Definition Qltb (a b : Q) : bool := negb (Qle_bool b a).
(** [a >= b] *)
Definition Qgeb (a b : Q) : bool := Qle_bool b a.
(** [a > b] *)
Definition Qgtb (a b : Q) : bool := Qltb b a.

(** ** Data model *)

Inductive PoseGesture : Set := IDLE | JUMP | DUCK.

Inductive PoseTrackingStatus : Set :=
  | idle | loading | calibrating | tracking | no_person | error.

Inductive TrackingTier : Set := Tier1 | Tier2 | Tier3.

Definition PoseGesture_eq_dec (a b : PoseGesture) : {a = b} + {a <> b}.
Proof. decide equality. Defined.

Definition PoseTrackingStatus_eq_dec (a b : PoseTrackingStatus) : {a = b} + {a <> b}.
Proof. decide equality. Defined.

(** [a === b] on gestures *)
Definition gesture_eqb (a b : PoseGesture) : bool :=
  if PoseGesture_eq_dec a b then true else false.

(** [a !== b] on [PoseGesture | null] *)
Definition pending_neq_dec (a b : option PoseGesture) : {a <> b} + {a = b}.
Proof.
  destruct a as [g|], b as [h|]; try (left; discriminate); try (right; reflexivity).
  destruct (PoseGesture_eq_dec g h) as [e|n]; [right; f_equal; exact e|left; congruence].
Defined.

Definition status_eqb (a b : PoseTrackingStatus) : bool :=
  if PoseTrackingStatus_eq_dec a b then true else false.

(** The fields of a landmark that the gesture core reads. *)
Record NormalizedLandmark : Set := {
  x : Q;
  y : Q;
  visibility : Q
}.

Record UsePoseGestureState : Set := {
  gesture : PoseGesture;
  status : PoseTrackingStatus;
  calibrationProgress : Q;
  errorMessage : option string;
  stateTrackingTier : TrackingTier   (* field [trackingTier] of the published state *)
}.

Definition DETECTION_INTERVAL_MS : Q := 34.
Definition BASELINE_SMOOTHING : Q := 0.85.
Definition JUMP_THRESHOLD : Q := 0.10.
Definition QUICK_JUMP_THRESHOLD : Q := 0.065.
Definition QUICK_JUMP_VELOCITY : Q := 0.010.
Definition DUCK_THRESHOLD : Q := 0.09.
Definition CALIBRATION_FRAMES : nat := 15.
Definition DEBOUNCE_MS : Q := 90.
Definition MIN_VISIBILITY : Q := 0.18.
Definition MAX_MISSING_FRAMES : nat := 20.
Definition RECALIBRATION_DRIFT_THRESHOLD : Q := 0.35.
Definition RECALIBRATION_FRAMES : nat := 10.
Definition IDLE_ACCELERATION_FRAMES : nat := 60.
Definition IDLE_SMOOTHING : Q := 0.75.

Definition INITIAL_STATE : UsePoseGestureState := {|
  gesture := IDLE;
  status := idle;
  calibrationProgress := 0;
  errorMessage := None;
  stateTrackingTier := Tier1
|}.

Record GestureRuntime : Set := {
  baseline : option Q;
  calibrationBuffer : list Q;
  stableGesture : PoseGesture;
  pendingGesture : option PoseGesture;
  pendingSince : Q;
  missingFrames : nat;
  lastDetectAt : Q;
  lastSignal : option Q;
  driftFrames : nat;
  idleFrames : nat;
  recalibrating : bool;
  trackingTier : TrackingTier
}.

Definition createRuntime : GestureRuntime := {|
  baseline := None;
  calibrationBuffer := [];
  stableGesture := IDLE;
  pendingGesture := None;
  pendingSince := 0;
  missingFrames := 0;
  lastDetectAt := 0;
  lastSignal := None;
  driftFrames := 0;
  idleFrames := 0;
  recalibrating := false;
  trackingTier := Tier1
|}.

Record TierResult : Set := {
  tier : TrackingTier;
  signal : Q;
  thresholdMultiplier : Q
}.

(** *** Assignments to one field of the runtime *)

Definition set_baseline (v : option Q) (r : GestureRuntime) : GestureRuntime :=
  {| baseline := v; calibrationBuffer := calibrationBuffer r;
     stableGesture := stableGesture r; pendingGesture := pendingGesture r;
     pendingSince := pendingSince r; missingFrames := missingFrames r;
     lastDetectAt := lastDetectAt r; lastSignal := lastSignal r;
     driftFrames := driftFrames r; idleFrames := idleFrames r;
     recalibrating := recalibrating r; trackingTier := trackingTier r |}.
Definition set_calibrationBuffer (v : list Q) (r : GestureRuntime) : GestureRuntime :=
  {| baseline := baseline r; calibrationBuffer := v; stableGesture := stableGesture r;
     pendingGesture := pendingGesture r; pendingSince := pendingSince r;
     missingFrames := missingFrames r; lastDetectAt := lastDetectAt r;
     lastSignal := lastSignal r; driftFrames := driftFrames r; idleFrames := idleFrames r;
     recalibrating := recalibrating r; trackingTier := trackingTier r |}.
Definition set_stableGesture (v : PoseGesture) (r : GestureRuntime) : GestureRuntime :=
  {| baseline := baseline r; calibrationBuffer := calibrationBuffer r; stableGesture := v;
     pendingGesture := pendingGesture r; pendingSince := pendingSince r;
     missingFrames := missingFrames r; lastDetectAt := lastDetectAt r;
     lastSignal := lastSignal r; driftFrames := driftFrames r; idleFrames := idleFrames r;
     recalibrating := recalibrating r; trackingTier := trackingTier r |}.
Definition set_pendingGesture (v : option PoseGesture) (r : GestureRuntime) : GestureRuntime :=
  {| baseline := baseline r; calibrationBuffer := calibrationBuffer r;
     stableGesture := stableGesture r; pendingGesture := v; pendingSince := pendingSince r;
     missingFrames := missingFrames r; lastDetectAt := lastDetectAt r;
     lastSignal := lastSignal r; driftFrames := driftFrames r; idleFrames := idleFrames r;
     recalibrating := recalibrating r; trackingTier := trackingTier r |}.
Definition set_pendingSince (v : Q) (r : GestureRuntime) : GestureRuntime :=
  {| baseline := baseline r; calibrationBuffer := calibrationBuffer r;
     stableGesture := stableGesture r; pendingGesture := pendingGesture r;
     pendingSince := v; missingFrames := missingFrames r; lastDetectAt := lastDetectAt r;
     lastSignal := lastSignal r; driftFrames := driftFrames r; idleFrames := idleFrames r;
     recalibrating := recalibrating r; trackingTier := trackingTier r |}.
Definition set_missingFrames (v : nat) (r : GestureRuntime) : GestureRuntime :=
  {| baseline := baseline r; calibrationBuffer := calibrationBuffer r;
     stableGesture := stableGesture r; pendingGesture := pendingGesture r;
     pendingSince := pendingSince r; missingFrames := v; lastDetectAt := lastDetectAt r;
     lastSignal := lastSignal r; driftFrames := driftFrames r; idleFrames := idleFrames r;
     recalibrating := recalibrating r; trackingTier := trackingTier r |}.
Definition set_lastDetectAt (v : Q) (r : GestureRuntime) : GestureRuntime :=
  {| baseline := baseline r; calibrationBuffer := calibrationBuffer r;
     stableGesture := stableGesture r; pendingGesture := pendingGesture r;
     pendingSince := pendingSince r; missingFrames := missingFrames r; lastDetectAt := v;
     lastSignal := lastSignal r; driftFrames := driftFrames r; idleFrames := idleFrames r;
     recalibrating := recalibrating r; trackingTier := trackingTier r |}.
Definition set_lastSignal (v : option Q) (r : GestureRuntime) : GestureRuntime :=
  {| baseline := baseline r; calibrationBuffer := calibrationBuffer r;
     stableGesture := stableGesture r; pendingGesture := pendingGesture r;
     pendingSince := pendingSince r; missingFrames := missingFrames r;
     lastDetectAt := lastDetectAt r; lastSignal := v; driftFrames := driftFrames r;
     idleFrames := idleFrames r; recalibrating := recalibrating r;
     trackingTier := trackingTier r |}.
Definition set_driftFrames (v : nat) (r : GestureRuntime) : GestureRuntime :=
  {| baseline := baseline r; calibrationBuffer := calibrationBuffer r;
     stableGesture := stableGesture r; pendingGesture := pendingGesture r;
     pendingSince := pendingSince r; missingFrames := missingFrames r;
     lastDetectAt := lastDetectAt r; lastSignal := lastSignal r; driftFrames := v;
     idleFrames := idleFrames r; recalibrating := recalibrating r;
     trackingTier := trackingTier r |}.
Definition set_idleFrames (v : nat) (r : GestureRuntime) : GestureRuntime :=
  {| baseline := baseline r; calibrationBuffer := calibrationBuffer r;
     stableGesture := stableGesture r; pendingGesture := pendingGesture r;
     pendingSince := pendingSince r; missingFrames := missingFrames r;
     lastDetectAt := lastDetectAt r; lastSignal := lastSignal r;
     driftFrames := driftFrames r; idleFrames := v; recalibrating := recalibrating r;
     trackingTier := trackingTier r |}.
Definition set_recalibrating (v : bool) (r : GestureRuntime) : GestureRuntime :=
  {| baseline := baseline r; calibrationBuffer := calibrationBuffer r;
     stableGesture := stableGesture r; pendingGesture := pendingGesture r;
     pendingSince := pendingSince r; missingFrames := missingFrames r;
     lastDetectAt := lastDetectAt r; lastSignal := lastSignal r;
     driftFrames := driftFrames r; idleFrames := idleFrames r; recalibrating := v;
     trackingTier := trackingTier r |}.
Definition set_trackingTier (v : TrackingTier) (r : GestureRuntime) : GestureRuntime :=
  {| baseline := baseline r; calibrationBuffer := calibrationBuffer r;
     stableGesture := stableGesture r; pendingGesture := pendingGesture r;
     pendingSince := pendingSince r; missingFrames := missingFrames r;
     lastDetectAt := lastDetectAt r; lastSignal := lastSignal r;
     driftFrames := driftFrames r; idleFrames := idleFrames r;
     recalibrating := recalibrating r; trackingTier := v |}.

(** ** computeTierSignal *)

(** [point && point.visibility >= MIN_VISIBILITY]: an index past the end of
    the array reads [undefined], which is not usable. *)
Definition usable (point : option NormalizedLandmark) : bool :=
  match point with
  | Some p => Qgeb (visibility p) MIN_VISIBILITY
  | None => false
  end.

(** [[nose, leftEar, rightEar].filter(usable)], the points that remain. *)
Fixpoint filterUsable (points : list (option NormalizedLandmark)) : list NormalizedLandmark :=
  match points with
  | [] => []
  | Some p :: rest =>
      if usable (Some p) then p :: filterUsable rest else filterUsable rest
  | None :: rest => filterUsable rest
  end.

(** [Math.max(...xs)] and [Math.min(...xs)] on a list that is not empty (the
    source spreads at least two head points). *)
Definition maxOf (xs : list Q) : Q :=
  match xs with
  | [] => 0
  | h :: t => fold_left Qmax t h
  end.
Definition minOf (xs : list Q) : Q :=
  match xs with
  | [] => 0
  | h :: t => fold_left Qmin t h
  end.

(** [headCandidates.reduce((sum, point) => sum + point.y, 0) / headCandidates.length] *)
Definition meanY (points : list NormalizedLandmark) : Q :=
  fold_left (fun sum point => sum + y point) points 0
  / inject_Z (Z.of_nat (length points)).

Definition computeTierSignal (landmarks : list NormalizedLandmark) : option TierResult :=
  let nose := nth_error landmarks 0 in
  let leftEar := nth_error landmarks 7 in
  let rightEar := nth_error landmarks 8 in
  let leftShoulder := nth_error landmarks 11 in
  let rightShoulder := nth_error landmarks 12 in
  let headCandidates := filterUsable [nose; leftEar; rightEar] in
  let hasShoulder := usable leftShoulder && usable rightShoulder in
  let shoulderMidY :=
    match leftShoulder, rightShoulder with
    | Some l, Some r => if hasShoulder then (y l + y r) / 2 else 0
    | _, _ => 0
    end in
  let shoulderSpan :=
    match leftShoulder, rightShoulder with
    | Some l, Some r => if hasShoulder then Qmax 0.09 (Qabs (x r - x l)) else 0
    | _, _ => 0
    end in
  if hasShoulder && (0 <? length headCandidates)%nat then
    (* Tier 1: both shoulders + head *)
    let headY := meanY headCandidates in
    let upperBodySignal := (headY * 0.52 + shoulderMidY * 0.48) / shoulderSpan in
    Some {| tier := Tier1; signal := upperBodySignal; thresholdMultiplier := 1.0 |}
  else if (2 <=? length headCandidates)%nat then
    (* Tier 2: head only *)
    let headY := meanY headCandidates in
    let headXs := map x headCandidates in
    let headSpan := Qmax 0.06 (maxOf headXs - minOf headXs) in
    let headSignal := headY / headSpan in
    Some {| tier := Tier2; signal := headSignal; thresholdMultiplier := 1.2 |}
  else if hasShoulder then
    (* Tier 3: shoulders only *)
    let shoulderSignal := shoulderMidY / shoulderSpan in
    Some {| tier := Tier3; signal := shoulderSignal; thresholdMultiplier := 0.85 |}
  else None.

(** ** estimateGesture *)

(** A [number | null] read as a number: arithmetic on [null] reads it as 0.
    The source only does arithmetic on the baseline after the null test. *)
Definition toNumber (v : option Q) : Q :=
  match v with
  | Some n => n
  | None => 0
  end.

Definition isNull {A : Type} (v : option A) : bool :=
  match v with
  | Some _ => false
  | None => true
  end.

(** [buffer.reduce((acc, value) => acc + value, 0) / buffer.length] *)
Definition mean (buffer : list Q) : Q :=
  fold_left Qplus buffer 0 / inject_Z (Z.of_nat (length buffer)).

(** Calibration phase, initial or recalibration: the body of
    [if (runtime.baseline === null || runtime.recalibrating)]. *)
Definition calibrationPhase (sig : Q) (runtime : GestureRuntime) : GestureRuntime :=
  let runtime := set_calibrationBuffer (calibrationBuffer runtime ++ [sig]) runtime in
  let needed := if recalibrating runtime then RECALIBRATION_FRAMES else CALIBRATION_FRAMES in
  if (needed <=? length (calibrationBuffer runtime))%nat then
    let runtime := set_baseline (Some (mean (calibrationBuffer runtime))) runtime in
    let runtime := set_calibrationBuffer [] runtime in
    let runtime := set_recalibrating false runtime in
    let runtime := set_driftFrames 0 runtime in
    set_idleFrames 0 runtime
  else runtime.

(** Baseline adaptation. *)
Definition adaptBaseline (sig : Q) (runtime : GestureRuntime) : GestureRuntime :=
  if PoseGesture_eq_dec (stableGesture runtime) IDLE then
    let runtime := set_idleFrames (S (idleFrames runtime)) runtime in
    let smoothing :=
      if (IDLE_ACCELERATION_FRAMES <? idleFrames runtime)%nat
      then IDLE_SMOOTHING else BASELINE_SMOOTHING in
    set_baseline
      (Some (toNumber (baseline runtime) * smoothing + sig * (1 - smoothing))) runtime
  else set_idleFrames 0 runtime.

(** Auto-recalibration on drift while IDLE.  The boolean is [true] when the
    source returns "IDLE" from inside this block (recalibration entered). *)
Definition driftCheck (sig : Q) (runtime : GestureRuntime) : GestureRuntime * bool :=
  let drift := Qabs (sig - toNumber (baseline runtime)) in
  if gesture_eqb (stableGesture runtime) IDLE
     && Qgtb drift RECALIBRATION_DRIFT_THRESHOLD then
    let runtime := set_driftFrames (S (driftFrames runtime)) runtime in
    if (CALIBRATION_FRAMES <=? driftFrames runtime)%nat then
      let runtime := set_recalibrating true runtime in
      let runtime := set_calibrationBuffer [sig] runtime in
      (set_driftFrames 0 runtime, true)
    else (runtime, false)
  else (set_driftFrames 0 runtime, false).

(** The raw candidate: thresholds scaled by the tier's multiplier. *)
Definition classify (sig riseVelocity multiplier : Q) (runtime : GestureRuntime) : PoseGesture :=
  let jumpThreshold := JUMP_THRESHOLD * multiplier in
  let quickJumpThreshold := QUICK_JUMP_THRESHOLD * multiplier in
  let quickJumpVelocity := QUICK_JUMP_VELOCITY * multiplier in
  let duckThreshold := DUCK_THRESHOLD * multiplier in
  let jumpDelta := toNumber (baseline runtime) - sig in
  let duckDelta := sig - toNumber (baseline runtime) in
  if Qgtb jumpDelta jumpThreshold
     || (Qgtb jumpDelta quickJumpThreshold && Qgtb riseVelocity quickJumpVelocity)
  then JUMP
  else if Qgtb duckDelta duckThreshold then DUCK
  else IDLE.

(** The debouncer: the three tests that end [estimateGesture]. *)
Definition debounce (candidate : PoseGesture) (runtime : GestureRuntime) (now : Q)
  : GestureRuntime * PoseGesture :=
  if PoseGesture_eq_dec candidate (stableGesture runtime) then
    (set_pendingGesture None runtime, stableGesture runtime)
  else if pending_neq_dec (pendingGesture runtime) (Some candidate) then
    let runtime := set_pendingGesture (Some candidate) runtime in
    let runtime := set_pendingSince now runtime in
    (runtime, stableGesture runtime)
  else if Qgeb (now - pendingSince runtime) DEBOUNCE_MS then
    let runtime := set_stableGesture candidate runtime in
    let runtime := set_pendingGesture None runtime in
    (runtime, stableGesture runtime)
  else (runtime, stableGesture runtime).

(** Where a frame leaves [estimateGesture] before the debouncer, or the raw
    candidate it hands to the debouncer. *)
Inductive Analysis : Set :=
  | NoSignal (runtime : GestureRuntime)          (* [!tierResult]: return "IDLE" *)
  | Calibrating (runtime : GestureRuntime)       (* calibration phase: return "IDLE" *)
  | DriftRecalibration (runtime : GestureRuntime)  (* recalibration entered: return "IDLE" *)
  | Candidate (runtime : GestureRuntime) (candidate : PoseGesture).

(** [estimateGesture] up to the computation of [candidate]. *)
Definition analyse (landmarks : list NormalizedLandmark) (runtime : GestureRuntime) : Analysis :=
  match computeTierSignal landmarks with
  | None =>
      let runtime := set_missingFrames (S (missingFrames runtime)) runtime in
      NoSignal (set_lastSignal None runtime)
  | Some tierResult =>
      let runtime := set_missingFrames 0 runtime in
      let runtime := set_trackingTier (tier tierResult) runtime in
      let sig := signal tierResult in
      let riseVelocity :=
        match lastSignal runtime with
        | None => 0
        | Some last => last - sig
        end in
      let runtime := set_lastSignal (Some sig) runtime in
      if isNull (baseline runtime) || recalibrating runtime then
        Calibrating (calibrationPhase sig runtime)
      else
        let runtime := adaptBaseline sig runtime in
        let (runtime, entered) := driftCheck sig runtime in
        if entered then DriftRecalibration runtime
        else Candidate runtime
               (classify sig riseVelocity (thresholdMultiplier tierResult) runtime)
  end.

Definition estimateGesture (landmarks : list NormalizedLandmark)
    (runtime : GestureRuntime) (now : Q) : GestureRuntime * PoseGesture :=
  match analyse landmarks runtime with
  | NoSignal runtime => (runtime, IDLE)
  | Calibrating runtime => (runtime, IDLE)
  | DriftRecalibration runtime => (runtime, IDLE)
  | Candidate runtime candidate => debounce candidate runtime now
  end.

(** The value of the source's local [candidate] on a frame, when the frame
    reaches the classifier. *)
Definition rawCandidate (landmarks : list NormalizedLandmark) (runtime : GestureRuntime)
  : option PoseGesture :=
  match analyse landmarks runtime with
  | Candidate _ candidate => Some candidate
  | _ => None
  end.

(** ** The detection loop of usePoseGesture *)

(** [publish]: every call in the loop passes the five fields, and [??] falls
    back to the current value where the passed one is [null], which only
    [errorMessage] can be. *)
Definition publish (partial current : UsePoseGestureState) : UsePoseGestureState := {|
  gesture := gesture partial;
  status := status partial;
  calibrationProgress := calibrationProgress partial;
  errorMessage :=
    match errorMessage partial with
    | Some message => Some message
    | None => errorMessage current
    end;
  stateTrackingTier := stateTrackingTier partial
|}.

(** The truth value of [runtime.baseline] in [runtime.baseline ? 1 : ...]:
    [null] and 0 are falsy. *)
Definition truthy (v : option Q) : bool :=
  match v with
  | Some n => negb (Qeq_bool n 0)
  | None => false
  end.

Definition ofNat (n : nat) : Q := inject_Z (Z.of_nat n).

(** The state published when [runtime.missingFrames > MAX_MISSING_FRAMES]. *)
Definition noPersonState (runtime : GestureRuntime) : UsePoseGestureState := {|
  status := no_person;
  gesture := IDLE;
  calibrationProgress :=
    if truthy (baseline runtime) then 1
    else ofNat (length (calibrationBuffer runtime)) / ofNat CALIBRATION_FRAMES;
  errorMessage := None;
  stateTrackingTier := trackingTier runtime
|}.

(** What the detector gave for a frame: it threw (the message is the one
    the [catch] block computes), or it returned and [result.landmarks[0]]
    is a landmark array or [undefined]. *)
Inductive Detection : Set :=
  | Threw (message : string)
  | Detected (landmarks : option (list NormalizedLandmark)).

(** [!landmarks || landmarks.length < 13] *)
Definition tooFew (landmarks : option (list NormalizedLandmark)) : bool :=
  match landmarks with
  | None => true
  | Some l => (length l <? 13)%nat
  end.

(** The branch of [loop] for [!landmarks || landmarks.length < 13]. *)
Definition missingLandmarks (runtime : GestureRuntime) (current : UsePoseGestureState)
  : GestureRuntime * UsePoseGestureState :=
  let runtime := set_missingFrames (S (missingFrames runtime)) runtime in
  if (MAX_MISSING_FRAMES <? missingFrames runtime)%nat
  then (runtime, publish (noPersonState runtime) current)
  else (runtime, current).

(** The rest of the frame once the landmark array is there: the call of
    [estimateGesture] and the [publish] after it. *)
Definition trackLandmarks (landmarks : list NormalizedLandmark) (now : Q)
    (runtime : GestureRuntime) (current : UsePoseGestureState)
  : GestureRuntime * UsePoseGestureState :=
  let (runtime, gesture) := estimateGesture landmarks runtime now in
  if (MAX_MISSING_FRAMES <? missingFrames runtime)%nat
  then (runtime, publish (noPersonState runtime) current)
  else
    let calibrated := negb (isNull (baseline runtime)) && negb (recalibrating runtime) in
    let calFrames :=
      if recalibrating runtime then RECALIBRATION_FRAMES else CALIBRATION_FRAMES in
    (runtime,
     publish {| status := if calibrated then tracking else calibrating;
                gesture := gesture;
                calibrationProgress :=
                  if calibrated then 1
                  else ofNat (length (calibrationBuffer runtime)) / ofNat calFrames;
                errorMessage := None;
                stateTrackingTier := trackingTier runtime |} current).

(** One processed frame of [loop]: from [runtime.lastDetectAt = now] to the
    [publish] that ends the frame.  The pair is the runtime and the
    published state ([stateRef.current]). *)
Definition processFrame (detection : Detection) (now : Q)
    (world : GestureRuntime * UsePoseGestureState) : GestureRuntime * UsePoseGestureState :=
  let (runtime, current) := world in
  let runtime := set_lastDetectAt now runtime in
  match detection with
  | Threw message =>
      (runtime,
       publish {| status := error; gesture := IDLE; errorMessage := Some message;
                  calibrationProgress := 0; stateTrackingTier := Tier1 |} current)
  | Detected None => missingLandmarks runtime current
  | Detected (Some landmarks) =>
      if tooFew (Some landmarks) then missingLandmarks runtime current
      else trackLandmarks landmarks now runtime current
  end.

(** One tick of [loop] on a ready video: a tick less than
    [DETECTION_INTERVAL_MS] after the last detection does not detect. *)
Definition loop (detection : Detection) (now : Q)
    (world : GestureRuntime * UsePoseGestureState) : GestureRuntime * UsePoseGestureState :=
  if Qltb (now - lastDetectAt (fst world)) DETECTION_INTERVAL_MS then world
  else processFrame detection now world.

(** A run of processed frames, oldest first. *)
Fixpoint processFrames (frames : list (Detection * Q))
    (world : GestureRuntime * UsePoseGestureState) : GestureRuntime * UsePoseGestureState :=
  match frames with
  | [] => world
  | (detection, now) :: rest => processFrames rest (processFrame detection now world)
  end.

(** The effect on [enabled]: disabling rebuilds the runtime and publishes
    the initial state; enabling rebuilds it too and publishes "loading". *)
Definition disable (world : GestureRuntime * UsePoseGestureState)
  : GestureRuntime * UsePoseGestureState :=
  (createRuntime, publish INITIAL_STATE (snd world)).

Definition enable (world : GestureRuntime * UsePoseGestureState)
  : GestureRuntime * UsePoseGestureState :=
  (createRuntime,
   publish {| status := loading; gesture := IDLE; calibrationProgress := 0;
              errorMessage := None; stateTrackingTier := Tier1 |} (snd world)).

(** ** The challenge matcher *)

(** A challenge, without its display texts. *)
Record PoseChallenge : Set := {
  id : nat;
  targetGesture : PoseGesture;
  holdMs : Q;
  timeoutMs : Q
}.

Definition CHALLENGES : list PoseChallenge := [
  {| id := 1; targetGesture := IDLE; holdMs := 2000; timeoutMs := 6000 |};
  {| id := 2; targetGesture := JUMP; holdMs := 0; timeoutMs := 8000 |};
  {| id := 3; targetGesture := DUCK; holdMs := 0; timeoutMs := 8000 |}
].

Record MatchResult : Set := {
  matched : bool;
  holdProgress : Q
}.

Definition checkPoseMatch (challenge : PoseChallenge) (currentGesture : PoseGesture)
    (holdStartTime : option Q) (now : Q) : MatchResult :=
  let gestureMatches := gesture_eqb currentGesture (targetGesture challenge) in
  if negb gestureMatches then {| matched := false; holdProgress := 0 |}
  else if Qeq_bool (holdMs challenge) 0 then {| matched := true; holdProgress := 1 |}
  else
    match holdStartTime with
    | None => {| matched := false; holdProgress := 0 |}
    | Some start =>
        let held := now - start in
        let progress := Qmin 1 (held / holdMs challenge) in
        {| matched := Qgeb progress 1; holdProgress := progress |}
    end.

(** The hold tracking of the welcome scene ("Track hold start"): the new
    value of [holdStartRef.current]. *)
Definition trackHold (challenge : PoseChallenge) (poseGesture : PoseGesture)
    (poseStatus : PoseTrackingStatus) (holdStart : option Q) (now : Q) : option Q :=
  if gesture_eqb poseGesture (targetGesture challenge) && status_eqb poseStatus tracking then
    match holdStart with
    | None => Some now
    | Some _ => holdStart
    end
  else if Qgtb (holdMs challenge) 0 then None
  else holdStart.

(** The call of [checkPoseMatch] that follows the hold tracking: the new
    hold start and the result. *)
Definition checkEffect (challenge : PoseChallenge) (poseGesture : PoseGesture)
    (poseStatus : PoseTrackingStatus) (holdStart : option Q) (now : Q)
  : option Q * MatchResult :=
  let holdStart := trackHold challenge poseGesture poseStatus holdStart now in
  (holdStart,
   checkPoseMatch challenge
     (if status_eqb poseStatus tracking then poseGesture else IDLE) holdStart now).

(** * Frames, runs and what the specification says

    Definitions that the statements below are written with.  None of them
    is part of the program. *)

(** ** What a processed frame carries *)

(** The signal that a frame hands to the calibration manager and the
    classifier, when it has one. *)
Definition signalOf (detection : Detection) : option Q :=
  match detection with
  | Threw _ => None
  | Detected None => None
  | Detected (Some landmarks) =>
      if tooFew (Some landmarks) then None
      else match computeTierSignal landmarks with
           | Some tierResult => Some (signal tierResult)
           | None => None
           end
  end.

(** The signals of a run of frames, oldest first. *)
Definition signalsOf (frames : list (Detection * Q)) : list Q :=
  flat_map (fun frame => match signalOf (fst frame) with
                         | Some s => [s]
                         | None => []
                         end) frames.

(** The frame has a signal. *)
Definition hasSignal (frame : Detection * Q) : Prop := signalOf (fst frame) <> None.

(** The frame carries landmarks whose tier-1 signal lies in [[lo, hi]]. *)
Definition reportsTier1 (lo hi : Q) (frame : Detection * Q) : Prop :=
  exists landmarks tierResult,
    fst frame = Detected (Some landmarks)
    /\ tooFew (Some landmarks) = false
    /\ computeTierSignal landmarks = Some tierResult
    /\ tier tierResult = Tier1
    /\ lo <= signal tierResult <= hi.

(** The frame gives no usable signal: no landmark array, fewer than 13
    landmarks, or a tier extraction that fails. *)
Definition failedExtraction (detection : Detection) : bool :=
  match detection with
  | Threw _ => false
  | Detected None => true
  | Detected (Some landmarks) => tooFew (Some landmarks) || isNull (computeTierSignal landmarks)
  end.

(** The runtime that the analysis of a frame leaves. *)
Definition analysisRuntime (a : Analysis) : GestureRuntime :=
  match a with
  | NoSignal r | Calibrating r | DriftRecalibration r | Candidate r _ => r
  end.

(** The raw candidate of a processed frame, when the frame reaches the
    classifier. *)
Definition candidateOf (detection : Detection) (runtime : GestureRuntime)
  : option PoseGesture :=
  match detection with
  | Threw _ => None
  | Detected None => None
  | Detected (Some landmarks) =>
      if tooFew (Some landmarks) then None else rawCandidate landmarks runtime
  end.

(** The frames that a calibration still needs. *)
Definition neededFrames (runtime : GestureRuntime) : nat :=
  if recalibrating runtime then RECALIBRATION_FRAMES else CALIBRATION_FRAMES.

(** ** Drift *)

(** The drift test of a frame: the stable gesture is IDLE and the signal
    is more than the drift threshold away from the baseline as the frame
    has adapted it. *)
Definition driftTest (sig : Q) (runtime : GestureRuntime) : bool :=
  gesture_eqb (stableGesture runtime) IDLE
  && Qgtb (Qabs (sig - toNumber (baseline (adaptBaseline sig runtime))))
          RECALIBRATION_DRIFT_THRESHOLD.

(** The frame has a signal and passes the drift test on a calibrated
    runtime. *)
Definition drifting (detection : Detection) (runtime : GestureRuntime) : bool :=
  match signalOf detection with
  | Some sig =>
      negb (isNull (baseline runtime)) && negb (recalibrating runtime)
      && driftTest sig runtime
  | None => false
  end.

(** Every frame of the run drifts, each in the state the run has reached. *)
Fixpoint allDrifting (frames : list (Detection * Q))
    (world : GestureRuntime * UsePoseGestureState) : bool :=
  match frames with
  | [] => true
  | (detection, now) :: rest =>
      drifting detection (fst world) && allDrifting rest (processFrame detection now world)
  end.

(** ** Fields that a step leaves *)

(** The fields of the runtime that a frame without a usable signal must
    leave alone. *)
Definition sameCalibration (a b : GestureRuntime) : Prop :=
  baseline a = baseline b
  /\ calibrationBuffer a = calibrationBuffer b
  /\ recalibrating a = recalibrating b
  /\ driftFrames a = driftFrames b
  /\ idleFrames a = idleFrames b
  /\ stableGesture a = stableGesture b
  /\ pendingGesture a = pendingGesture b.

(** The fields that the debouncer does not write. *)
Definition sameButDebounce (a b : GestureRuntime) : Prop :=
  baseline a = baseline b
  /\ calibrationBuffer a = calibrationBuffer b
  /\ missingFrames a = missingFrames b
  /\ lastDetectAt a = lastDetectAt b
  /\ lastSignal a = lastSignal b
  /\ driftFrames a = driftFrames b
  /\ idleFrames a = idleFrames b
  /\ recalibrating a = recalibrating b
  /\ trackingTier a = trackingTier b.

(** ** Tier extraction as the specification words it (section 4.1)

    A second definition, written from the specification, to compare
    [computeTierSignal] with. *)

(** ** Tier extraction as the specification words it (section 4.1)

    A second definition, written from the specification, to compare
    [computeTierSignal] with. *)

Definition specUsable (point : option NormalizedLandmark) : bool :=
  match point with
  | Some p => Qle_bool 0.18 (visibility p)
  | None => false
  end.

Definition specHeadPoints (landmarks : list NormalizedLandmark) : list NormalizedLandmark :=
  flat_map (fun point => match point with
                         | Some p => if specUsable (Some p) then [p] else []
                         | None => []
                         end)
           [nth_error landmarks 0; nth_error landmarks 7; nth_error landmarks 8].

Definition specShoulders (landmarks : list NormalizedLandmark)
  : option (NormalizedLandmark * NormalizedLandmark) :=
  match nth_error landmarks 11, nth_error landmarks 12 with
  | Some l, Some r =>
      if specUsable (Some l) && specUsable (Some r) then Some (l, r) else None
  | _, _ => None
  end.

(** The arithmetic mean, as a sum over a count. *)
Definition sumQ (values : list Q) : Q := fold_right Qplus 0 values.

Definition specMean (values : list Q) : Q := sumQ values / ofNat (length values).

Definition specTier (landmarks : list NormalizedLandmark) : option TierResult :=
  let head := specHeadPoints landmarks in
  let meanHeadY := specMean (map y head) in
  let headSpanX := maxOf (map x head) - minOf (map x head) in
  match specShoulders landmarks, head with
  | Some (l, r), _ :: _ =>
      let shoulderMidY := (y l + y r) / 2 in
      let shoulderSpanX := Qabs (x r - x l) in
      Some {| tier := Tier1;
              signal := (0.52 * meanHeadY + 0.48 * shoulderMidY) / Qmax shoulderSpanX 0.09;
              thresholdMultiplier := 1.0 |}
  | _, _ :: _ :: _ =>
      Some {| tier := Tier2;
              signal := meanHeadY / Qmax headSpanX 0.06;
              thresholdMultiplier := 1.2 |}
  | Some (l, r), [] =>
      let shoulderMidY := (y l + y r) / 2 in
      let shoulderSpanX := Qabs (x r - x l) in
      Some {| tier := Tier3;
              signal := shoulderMidY / Qmax shoulderSpanX 0.09;
              thresholdMultiplier := 0.85 |}
  | None, _ => None
  end.

(** Two extraction results agree: both fail, or both give the same tier,
    equal signals and equal multipliers. *)
Definition sameTier (a b : option TierResult) : Prop :=
  match a, b with
  | None, None => True
  | Some s, Some t =>
      tier s = tier t /\ signal s == signal t
      /\ thresholdMultiplier s == thresholdMultiplier t
  | _, _ => False
  end.

(** ** Other wordings of the specification *)

(** A value clamped to [0, 1], as the specification words the hold
    progress. *)
Definition clamp01 (v : Q) : Q := Qmax 0 (Qmin 1 v).

(** C5 as the specification states the end of a recalibration: from the
    state that the trigger leaves (the buffer holds the triggering sample),
    [further] frames with a signal are collected; the runtime recalibrates
    until the last of them, which sets the baseline to the mean of the
    collected samples and returns to tracking. *)
Definition recalibrationCompletesAfter (further : nat) : Prop :=
  forall frames seed runtime current,
    recalibrating runtime = true ->
    baseline runtime <> None ->
    calibrationBuffer runtime = [seed] ->
    Forall hasSignal frames ->
    length frames = further ->
    (forall k, (k < further)%nat ->
       let during := processFrames (firstn k frames) (runtime, current) in
       recalibrating (fst during) = true /\ baseline (fst during) = baseline runtime)
    /\ (let after := processFrames frames (runtime, current) in
        recalibrating (fst after) = false
        /\ baseline (fst after) = Some (mean (seed :: signalsOf frames))
        /\ status (snd after) = tracking).

(** ** States of the scenarios *)

(** The state that holds JUMP: the baseline has stopped adapting. *)
Definition holdsJump (world : GestureRuntime * UsePoseGestureState) : Prop :=
  stableGesture (fst world) = JUMP
  /\ pendingGesture (fst world) = None
  /\ recalibrating (fst world) = false
  /\ (exists b, baseline (fst world) = Some b /\ 0.41 <= b <= 0.46)
  /\ gesture (snd world) = JUMP.

(** A runtime that idles above the signal 0.38, with the baseline either
    not yet adapted to it (at most 0.50, nothing pending) or adapted at
    least once (at most 0.482, the last signal being 0.38). *)
Definition idlesAbove038 (world : GestureRuntime * UsePoseGestureState) : Prop :=
  stableGesture (fst world) = IDLE
  /\ recalibrating (fst world) = false
  /\ exists b,
       baseline (fst world) = Some b
       /\ 0.38 <= b
       /\ ((b <= 0.5 /\ pendingGesture (fst world) = None)
           \/ (b <= 0.482
               /\ gesture (snd world) = IDLE
               /\ exists previous, lastSignal (fst world) = Some previous
                                   /\ previous == 0.38)).

(** ** Concrete inputs *)

(** A landmark at [(px, py)] with visibility [pv]. *)
Definition point (px py pv : Q) : NormalizedLandmark :=
  {| x := px; y := py; visibility := pv |}.

(** A landmark that is not visible. *)
Definition hidden : NormalizedLandmark := point 0 0 0.

(** A pose whose nose and shoulders are at height [h], the shoulders one
    unit apart: tier 1, signal [h]. *)
Definition poseAt (h : Q) : list NormalizedLandmark :=
  [point 0.5 h 1; hidden; hidden; hidden; hidden; hidden; hidden; hidden; hidden;
   hidden; hidden; point 0 h 1; point 1 h 1].

(** Thirteen landmarks, none of them visible: tier extraction fails. *)
Definition hiddenPose : list NormalizedLandmark := repeat hidden 13.

(** Frames of a test run: the pose with signal [s] at time [t]. *)
Definition frameAt (s t : Q) : Detection * Q := (Detected (Some (poseAt s)), t).

(** Fifteen frames, 34 ms apart, whose signal alternates between 0 and 1. *)
Definition swingingFrames : list (Detection * Q) :=
  [frameAt 0 34; frameAt 1 68; frameAt 0 102; frameAt 1 136; frameAt 0 170;
   frameAt 1 204; frameAt 0 238; frameAt 1 272; frameAt 0 306; frameAt 1 340;
   frameAt 0 374; frameAt 1 408; frameAt 0 442; frameAt 1 476; frameAt 0 510].

(** Frames with the constant signal [s], 34 ms apart from [t] on. *)
Fixpoint steadyFrames (n : nat) (s t : Q) : list (Detection * Q) :=
  match n with
  | O => []
  | S m => frameAt s t :: steadyFrames m s (t + 34)
  end.

(** A runtime that tracks with the given baseline and last signal. *)
Definition trackingRuntime (b : Q) (last : option Q) : GestureRuntime :=
  set_lastSignal last (set_baseline (Some b) createRuntime).

(** A runtime that has just entered recalibration on the sample [seed]. *)
Definition recalibratingRuntime (b seed : Q) : GestureRuntime :=
  set_calibrationBuffer [seed]
    (set_recalibrating true (set_lastSignal (Some seed) (set_baseline (Some b) createRuntime))).

(** The first challenge of the welcome scene: hold IDLE for 2000 ms. *)
Definition standStill : PoseChallenge :=
  {| id := 1; targetGesture := IDLE; holdMs := 2000; timeoutMs := 6000 |}.

(** * Double precision

    The mean of the calibration buffer as the source computes it, on
    binary64 numbers: the additions run from 0 through the buffer in its
    order, each rounded to the nearest double, and the sum is divided by
    the length.  A decimal literal stands for the nearest double, as it
    does in the source. *)

Set Warnings "-inexact-float".

Module Double.

(** [buffer.reduce((acc, value) => acc + value, 0) / buffer.length] *)
Definition mean (buffer : list float) : float :=
  PrimFloat.div (fold_left PrimFloat.add buffer 0%float)
    (PrimFloat.of_uint63 (Uint63.of_Z (Z.of_nat (length buffer)))).

End Double.

(** * The game: the runtime update of MotionDinoGame

    The part of [updateAndRender] that changes the game runtime, with the
    helpers it calls.  The canvas, the sprites and the display state that
    mirrors the runtime ([setScore], [setHealth], the hints) are outside the
    model.  What [Math.random] returns is an input of the update: one draw
    for each call site, each of which a tick reaches at most once. *)

Module Game.

Inductive GameStatus : Set := ready | playing | crashed.

Inductive Scene : Set := prepare | game.

Inductive ObstacleKind : Set := cactus | bird.

Module Rect.
(** The object type [{ x, y, width, height }] of [intersects]. *)
Record Rect : Set := { x : Q; y : Q; width : Q; height : Q }.
End Rect.

Module Obstacle.
Record Obstacle : Set := {
  id : nat;
  kind : ObstacleKind;
  x : Q;
  y : Q;
  width : Q;
  height : Q
}.
End Obstacle.

Module Star.
Record StarParticle : Set := {
  x : Q;
  y : Q;
  vx : Q;
  vy : Q;
  life : Q;
  maxLife : Q
}.
End Star.

Record RuntimeState : Set := {
  dinoY : Q;
  dinoVelocity : Q;
  ducking : bool;
  speed : Q;
  score : Q;
  health : Z;
  invincibleTimer : Q;
  healTimer : Q;
  obstacles : list Obstacle.Obstacle;
  spawnTimer : Q;
  nextSpawnDelay : Q;
  stars : list Star.StarParticle
}.

(** [inputRef.current] *)
Record Input : Set := {
  jumpQueued : bool;
  duckPressed : bool;
  poseDuckActive : bool
}.

Definition CANVAS_WIDTH : Q := 960.
Definition CANVAS_HEIGHT : Q := 360.
Definition GRAVITY : Q := 1200.
Definition JUMP_FORCE : Q := -620.
Definition BASE_SPEED : Q := 150.
Definition MAX_SPEED : Q := 240.
Definition DINO_X : Q := 100.
Definition NORMAL_HEIGHT : Q := 78.
Definition NORMAL_WIDTH : Q := 62.
Definition DUCK_HEIGHT : Q := 44.
Definition DUCK_WIDTH : Q := 76.
Definition GROUND_RATIO : Q := 0.78.
Definition RESTART_DELAY_MS : Q := 2500.
Definition MAX_HEALTH : Z := 5.
Definition HIT_INVINCIBLE_SECONDS : Q := 1.35.
Definition AUTO_HEAL_INTERVAL_SECONDS : Q := 11.
Definition DINO_HITBOX_SHRINK : Q := 0.72.

(** [const groundY = CANVAS_HEIGHT * GROUND_RATIO] *)
Definition groundY : Q := CANVAS_HEIGHT * GROUND_RATIO.

Definition clamp (value min max : Q) : Q := Qmax min (Qmin max value).

(** [min + Math.random() * (max - min)], on the draw that [Math.random]
    returned. *)
Definition randomInRange (draw min max : Q) : Q := min + draw * (max - min).

Definition getSpeedGain (score : Q) : Q :=
  if Qltb score 200 then 0.8
  else if Qltb score 500 then 1.5
  else 2.5.

Definition getSpawnDelay (score : Q) : Q * Q :=
  if Qltb score 200 then (4.5, 6.0)
  else if Qltb score 500 then (3.5, 5.0)
  else (3.0, 4.5).

(** [createInitialRuntime], on the draw of its [randomInRange]. *)
Definition createInitialRuntime (draw : Q) : RuntimeState := {|
  dinoY := groundY - NORMAL_HEIGHT;
  dinoVelocity := 0;
  ducking := false;
  speed := BASE_SPEED;
  score := 0;
  health := MAX_HEALTH;
  invincibleTimer := 0;
  healTimer := 0;
  obstacles := [];
  spawnTimer := 0;
  nextSpawnDelay := randomInRange draw 5.0 6.5;
  stars := []
|}.

Definition intersects (a b : Rect.Rect) : bool :=
  Qltb (Rect.x a) (Rect.x b + Rect.width b)
  && Qgtb (Rect.x a + Rect.width a) (Rect.x b)
  && Qltb (Rect.y a) (Rect.y b + Rect.height b)
  && Qgtb (Rect.y a + Rect.height a) (Rect.y b).

Definition getDinoRect (state : RuntimeState) : Rect.Rect :=
  let dinoHeight := if ducking state then DUCK_HEIGHT else NORMAL_HEIGHT in
  let dinoWidth := if ducking state then DUCK_WIDTH else NORMAL_WIDTH in
  let shrinkWidth := dinoWidth * (1 - DINO_HITBOX_SHRINK) in
  let shrinkHeight := dinoHeight * (1 - DINO_HITBOX_SHRINK) in
  {| Rect.x := DINO_X + shrinkWidth / 2;
     Rect.y := dinoY state + shrinkHeight / 2;
     Rect.width := dinoWidth - shrinkWidth;
     Rect.height := dinoHeight - shrinkHeight |}.

(** The hit box of an obstacle, as the collision loop shrinks it. *)
Definition obstacleRect (obstacle : Obstacle.Obstacle) : Rect.Rect :=
  let shrink := match Obstacle.kind obstacle with bird => 0.48 | cactus => 0.40 end in
  let shrinkW := Obstacle.width obstacle * shrink in
  let shrinkH := Obstacle.height obstacle * shrink in
  {| Rect.x := Obstacle.x obstacle + shrinkW / 2;
     Rect.y := Obstacle.y obstacle + shrinkH / 2;
     Rect.width := Obstacle.width obstacle - shrinkW;
     Rect.height := Obstacle.height obstacle - shrinkH |}.

(** What [Math.random] and [createCrashStars] (which draws its stars at
    random) return at the call sites of one tick. *)
Record Draws : Set := {
  delayDraw : Q;      (* [randomInRange(minDelay, maxDelay)] *)
  birdDraw : Q;       (* [allowBird && Math.random() > 0.90] *)
  bigDraw : Q;        (* [Math.random() > 0.72] *)
  flightDraw : Q;     (* [randomInRange(108, 126)] *)
  crashStars : list Star.StarParticle   (* [createCrashStars(DINO_X + 35, runtime.dinoY + 30)] *)
}.

(** [dt]: the time since the last tick in seconds, clamped; a tick that
    finds no last tick takes its own time stamp for it. *)
Definition frameDt (lastTick : option Q) (timestamp : Q) : Q :=
  let lastTick := if truthy lastTick then toNumber lastTick else timestamp in
  clamp ((timestamp - lastTick) / 1000) 0 0.05.

(** *** The steps of a tick while the game is played *)

(** The invincibility and heal timers, and the automatic heal. *)
Definition updateTimers (dt : Q) (runtime : RuntimeState) : RuntimeState :=
  let invincibleTimer' := Qmax 0 (invincibleTimer runtime - dt) in
  let healTimer' := healTimer runtime + dt in
  let heals := (health runtime <? MAX_HEALTH)%Z && Qgeb healTimer' AUTO_HEAL_INTERVAL_SECONDS in
  {| dinoY := dinoY runtime;
     dinoVelocity := dinoVelocity runtime;
     ducking := ducking runtime;
     speed := speed runtime;
     score := score runtime;
     health := if heals then (health runtime + 1)%Z else health runtime;
     invincibleTimer := invincibleTimer';
     healTimer := if heals then 0 else healTimer';
     obstacles := obstacles runtime;
     spawnTimer := spawnTimer runtime;
     nextSpawnDelay := nextSpawnDelay runtime;
     stars := stars runtime |}.

(** Ducking, the queued jump and the motion of the dino. *)
Definition moveDino (dt : Q) (input : Input) (runtime : RuntimeState) : RuntimeState :=
  let ducking' :=
    (duckPressed input || poseDuckActive input)
    && Qgeb (dinoY runtime) (groundY - NORMAL_HEIGHT - 1) in
  let canJump := Qgeb (dinoY runtime) (groundY - NORMAL_HEIGHT - 0.5) in
  let velocity := if jumpQueued input && canJump then JUMP_FORCE else dinoVelocity runtime in
  let dinoY' := dinoY runtime + velocity * dt in
  let velocity' := velocity + GRAVITY * dt in
  let floorY := if ducking' then groundY - DUCK_HEIGHT else groundY - NORMAL_HEIGHT in
  let landed := Qgtb dinoY' floorY in
  {| dinoY := if landed then floorY else dinoY';
     dinoVelocity := if landed then 0 else velocity';
     ducking := ducking';
     speed := speed runtime;
     score := score runtime;
     health := health runtime;
     invincibleTimer := invincibleTimer runtime;
     healTimer := healTimer runtime;
     obstacles := obstacles runtime;
     spawnTimer := spawnTimer runtime;
     nextSpawnDelay := nextSpawnDelay runtime;
     stars := stars runtime |}.

(** [inputRef.current.jumpQueued = false] *)
Definition consumeJump (input : Input) : Input :=
  {| jumpQueued := false;
     duckPressed := duckPressed input;
     poseDuckActive := poseDuckActive input |}.

(** Progressive speed gain. *)
Definition gainSpeed (dt : Q) (runtime : RuntimeState) : RuntimeState :=
  let speedGain := getSpeedGain (score runtime) in
  {| dinoY := dinoY runtime;
     dinoVelocity := dinoVelocity runtime;
     ducking := ducking runtime;
     speed := clamp (speed runtime + speedGain * dt) BASE_SPEED MAX_SPEED;
     score := score runtime;
     health := health runtime;
     invincibleTimer := invincibleTimer runtime;
     healTimer := healTimer runtime;
     obstacles := obstacles runtime;
     spawnTimer := spawnTimer runtime;
     nextSpawnDelay := nextSpawnDelay runtime;
     stars := stars runtime |}.

(** The obstacle that a spawn pushes, with the identifier it takes. *)
Definition newObstacle (draws : Draws) (nextId : nat) (score : Q) : Obstacle.Obstacle :=
  let allowBird := Qgtb score 600 in
  if allowBird && Qgtb (birdDraw draws) 0.90 then
    {| Obstacle.id := nextId;
       Obstacle.kind := bird;
       Obstacle.x := CANVAS_WIDTH + 30;
       Obstacle.y := groundY - randomInRange (flightDraw draws) 108 126;
       Obstacle.width := 56;
       Obstacle.height := 36 |}
  else
    let big := Qgtb (bigDraw draws) 0.72 in
    let width := if big then 40 else 30 in
    let height := if big then 70 else 52 in
    {| Obstacle.id := nextId;
       Obstacle.kind := cactus;
       Obstacle.x := CANVAS_WIDTH + 30;
       Obstacle.y := groundY - height;
       Obstacle.width := width;
       Obstacle.height := height |}.

(** The spawn timer; the second component is [obstacleIdRef.current]. *)
Definition spawn (dt : Q) (draws : Draws) (nextId : nat) (runtime : RuntimeState)
  : RuntimeState * nat :=
  let spawnTimer' := spawnTimer runtime + dt in
  if Qgeb spawnTimer' (nextSpawnDelay runtime) then
    let (minDelay, maxDelay) := getSpawnDelay (score runtime) in
    ({| dinoY := dinoY runtime;
        dinoVelocity := dinoVelocity runtime;
        ducking := ducking runtime;
        speed := speed runtime;
        score := score runtime;
        health := health runtime;
        invincibleTimer := invincibleTimer runtime;
        healTimer := healTimer runtime;
        obstacles := obstacles runtime ++ [newObstacle draws nextId (score runtime)];
        spawnTimer := 0;
        nextSpawnDelay := randomInRange (delayDraw draws) minDelay maxDelay;
        stars := stars runtime |}, S nextId)
  else
    ({| dinoY := dinoY runtime;
        dinoVelocity := dinoVelocity runtime;
        ducking := ducking runtime;
        speed := speed runtime;
        score := score runtime;
        health := health runtime;
        invincibleTimer := invincibleTimer runtime;
        healTimer := healTimer runtime;
        obstacles := obstacles runtime;
        spawnTimer := spawnTimer';
        nextSpawnDelay := nextSpawnDelay runtime;
        stars := stars runtime |}, nextId).

(** [{ ...obstacle, x: obstacle.x - runtime.speed * dt }] *)
Definition shift (distance : Q) (obstacle : Obstacle.Obstacle) : Obstacle.Obstacle :=
  {| Obstacle.id := Obstacle.id obstacle;
     Obstacle.kind := Obstacle.kind obstacle;
     Obstacle.x := Obstacle.x obstacle - distance;
     Obstacle.y := Obstacle.y obstacle;
     Obstacle.width := Obstacle.width obstacle;
     Obstacle.height := Obstacle.height obstacle |}.

(** The obstacles move left; those that have left the canvas go. *)
Definition moveObstacles (dt : Q) (runtime : RuntimeState) : RuntimeState :=
  {| dinoY := dinoY runtime;
     dinoVelocity := dinoVelocity runtime;
     ducking := ducking runtime;
     speed := speed runtime;
     score := score runtime;
     health := health runtime;
     invincibleTimer := invincibleTimer runtime;
     healTimer := healTimer runtime;
     obstacles :=
       filter (fun obstacle => Qgtb (Obstacle.x obstacle + Obstacle.width obstacle) (-20))
              (map (shift (speed runtime * dt)) (obstacles runtime));
     spawnTimer := spawnTimer runtime;
     nextSpawnDelay := nextSpawnDelay runtime;
     stars := stars runtime |}.

(** The collision loop: the first obstacle, in the order of the array, whose
    hit box meets the one of the dino while the dino is not invincible. *)
Fixpoint collidedObstacle (dinoRect : Rect.Rect) (invincible : Q)
    (remaining : list Obstacle.Obstacle) : option nat :=
  match remaining with
  | [] => None
  | obstacle :: rest =>
      if intersects dinoRect (obstacleRect obstacle) && Qle_bool invincible 0
      then Some (Obstacle.id obstacle)
      else collidedObstacle dinoRect invincible rest
  end.

(** The collision; the boolean is [true] when the hit takes the last health
    point ([setStatus("crashed")] and [triggerRestart()] are called). *)
Definition collide (draws : Draws) (runtime : RuntimeState) : RuntimeState * bool :=
  match collidedObstacle (getDinoRect runtime) (invincibleTimer runtime) (obstacles runtime) with
  | Some collidedObstacleId =>
      let health' := Z.max 0 (health runtime - 1) in
      ({| dinoY := dinoY runtime;
          dinoVelocity := dinoVelocity runtime;
          ducking := ducking runtime;
          speed := speed runtime;
          score := score runtime;
          health := health';
          invincibleTimer := HIT_INVINCIBLE_SECONDS;
          healTimer := 0;
          obstacles :=
            filter (fun obstacle => negb (Obstacle.id obstacle =? collidedObstacleId)%nat)
                   (obstacles runtime);
          spawnTimer := spawnTimer runtime;
          nextSpawnDelay := nextSpawnDelay runtime;
          stars := crashStars draws |},
       (health' <=? 0)%Z)
  | None => (runtime, false)
  end.

(** [runtime.score += dt * 34] *)
Definition gainScore (dt : Q) (runtime : RuntimeState) : RuntimeState :=
  {| dinoY := dinoY runtime;
     dinoVelocity := dinoVelocity runtime;
     ducking := ducking runtime;
     speed := speed runtime;
     score := score runtime + dt * 34;
     health := health runtime;
     invincibleTimer := invincibleTimer runtime;
     healTimer := healTimer runtime;
     obstacles := obstacles runtime;
     spawnTimer := spawnTimer runtime;
     nextSpawnDelay := nextSpawnDelay runtime;
     stars := stars runtime |}.

(** What a tick works on: the runtime, the input, the counter of obstacle
    identifiers and the time of the last tick ([runtimeRef], [inputRef],
    [obstacleIdRef] and [lastTickRef]). *)
Record Play : Set := {
  runtime : RuntimeState;
  input : Input;
  obstacleId : nat;
  lastTick : option Q
}.

(** The block [if (status === "playing")] of [updateAndRender]; the boolean
    is [true] when the tick ends the game. *)
Definition updatePlaying (dt : Q) (draws : Draws) (play : Play) : Play * bool :=
  let state := updateTimers dt (runtime play) in
  let state := moveDino dt (input play) state in
  let state := gainSpeed dt state in
  let (state, nextId) := spawn dt draws (obstacleId play) state in
  let state := moveObstacles dt state in
  let (state, over) := collide draws state in
  let state := gainScore dt state in
  ({| runtime := state;
      input := consumeJump (input play);
      obstacleId := nextId;
      lastTick := lastTick play |}, over).

(** The gesture that the game displays after the update. *)
Definition nextGesture (state : RuntimeState) : PoseGesture :=
  if ducking state then DUCK
  else if Qltb (dinoY state) (groundY - NORMAL_HEIGHT - 6) then JUMP
  else IDLE.

(** The stars of a crash fall and fade. *)
Definition updateStar (dt : Q) (star : Star.StarParticle) : Star.StarParticle :=
  {| Star.x := Star.x star + Star.vx star * dt;
     Star.y := Star.y star + Star.vy star * dt;
     Star.vx := Star.vx star;
     Star.vy := Star.vy star + 260 * dt;
     Star.life := Star.life star - dt;
     Star.maxLife := Star.maxLife star |}.

Definition updateStars (dt : Q) (state : RuntimeState) : RuntimeState :=
  {| dinoY := dinoY state;
     dinoVelocity := dinoVelocity state;
     ducking := ducking state;
     speed := speed state;
     score := score state;
     health := health state;
     invincibleTimer := invincibleTimer state;
     healTimer := healTimer state;
     obstacles := obstacles state;
     spawnTimer := spawnTimer state;
     nextSpawnDelay := nextSpawnDelay state;
     stars := filter (fun star => Qgtb (Star.life star) 0) (map (updateStar dt) (stars state)) |}.

(** [status === "playing"] and [status === "crashed"] *)
Definition isPlaying (status : GameStatus) : bool :=
  match status with playing => true | _ => false end.
Definition isCrashed (status : GameStatus) : bool :=
  match status with crashed => true | _ => false end.

(** The update of [updateAndRender] for a tick at [timestamp], in the
    status that the callback was built with.  The boolean is [true] when
    the tick ends the game. *)
Definition update (status : GameStatus) (timestamp : Q) (draws : Draws) (play : Play)
  : Play * bool :=
  let dt := frameDt (lastTick play) timestamp in
  let (play, over) :=
    if isPlaying status then updatePlaying dt draws play else (play, false) in
  let state := runtime play in
  let state :=
    if isCrashed status || (0 <? length (stars state))%nat
    then updateStars dt state else state in
  ({| runtime := state;
      input := input play;
      obstacleId := obstacleId play;
      lastTick := Some timestamp |}, over).

(** A run of ticks, oldest first: each with the status of its callback, its
    time stamp and its draws. *)
Fixpoint updates (ticks : list (GameStatus * Q * Draws)) (play : Play) : Play :=
  match ticks with
  | [] => play
  | (status, timestamp, draws) :: rest =>
      updates rest (fst (update status timestamp draws play))
  end.

(** *** Input *)

Module Camera.
End Camera.






Definition onKeyUp (code : string) (input : Input) : Input :=
  if String.eqb code "ArrowDown" || String.eqb code "KeyS"
  then {| jumpQueued := jumpQueued input;
          duckPressed := false;
          poseDuckActive := poseDuckActive input |}
  else input.

(** The effect that turns the published pose into input: the new
    [inputRef.current] and [previousPoseGestureRef.current].  [gameStatus]
    is the [status] of the game, [status pose] the one of the pose. *)
Definition poseEffect (scene : Scene) (gameStatus : GameStatus) (pose : UsePoseGestureState)
    (previousPoseGesture : PoseGesture) (input : Input) : Input * PoseGesture :=
  match scene, gameStatus with
  | game, playing =>
      let poseTracking := status_eqb (status pose) tracking in
      let poseGesture := if poseTracking then gesture pose else IDLE in
      ({| jumpQueued :=
            if gesture_eqb poseGesture JUMP && negb (gesture_eqb previousPoseGesture JUMP)
            then true else jumpQueued input;
          duckPressed := duckPressed input;
          poseDuckActive := gesture_eqb poseGesture DUCK |},
       poseGesture)
  | _, _ =>
      ({| jumpQueued := jumpQueued input;
          duckPressed := duckPressed input;
          poseDuckActive := false |},
       IDLE)
  end.

End Game.
(** * The skeleton overlay

    [drawSkeleton] with the smoothing of the drawn positions.  The canvas
    context is modelled by what is drawn on it: the strokes and the
    circles, in the order of the calls.  The module-level map
    [prevPositions] is passed explicitly; a map from landmark indices is a
    function that has no value where the map has no entry. *)

Module Skeleton.

Module Position.
(** The object type [{ x: number; y: number }]. *)
Record Position : Set := { x : Q; y : Q }.
End Position.

(** [Map<number, { x: number; y: number }>] *)
Definition Positions : Type := nat -> option Position.Position.

(** [prevPositions.set(idx, position)] *)
Definition set (idx : nat) (position : Position.Position) (positions : Positions) : Positions :=
  fun key => if (key =? idx)%nat then Some position else positions key.

Definition SMOOTH_FACTOR : Q := 0.4.

(** [resetSmoothing]: the new value of [prevPositions]. *)
Definition resetSmoothing : Positions := fun _ => None.

Definition getSmoothedPosition (idx : nat) (rawX rawY : Q) (prevPositions : Positions)
  : Positions * Position.Position :=
  match prevPositions idx with
  | None =>
      (set idx {| Position.x := rawX; Position.y := rawY |} prevPositions,
       {| Position.x := rawX; Position.y := rawY |})
  | Some prev =>
      let x' := Position.x prev * (1 - SMOOTH_FACTOR) + rawX * SMOOTH_FACTOR in
      let y' := Position.y prev * (1 - SMOOTH_FACTOR) + rawY * SMOOTH_FACTOR in
      (set idx {| Position.x := x'; Position.y := y' |} prevPositions,
       {| Position.x := x'; Position.y := y' |})
  end.

Definition COLORS_face : string := "#FFD93D"%string.
Definition COLORS_torso : string := "#FF6B6B"%string.
Definition COLORS_leftArm : string := "#4ECDC4"%string.
Definition COLORS_rightArm : string := "#45B7D1"%string.
Definition COLORS_leftLeg : string := "#96E6A1"%string.
Definition COLORS_rightLeg : string := "#DDA0DD"%string.

Definition CONNECTIONS : list (nat * nat * string) := [
  (7, 3, COLORS_face); (3, 0, COLORS_face); (0, 6, COLORS_face); (6, 8, COLORS_face);
  (11, 12, COLORS_torso); (11, 23, COLORS_torso); (12, 24, COLORS_torso);
  (23, 24, COLORS_torso);
  (11, 13, COLORS_leftArm); (13, 15, COLORS_leftArm);
  (12, 14, COLORS_rightArm); (14, 16, COLORS_rightArm);
  (23, 25, COLORS_leftLeg); (25, 27, COLORS_leftLeg); (27, 31, COLORS_leftLeg);
  (24, 26, COLORS_rightLeg); (26, 28, COLORS_rightLeg); (28, 32, COLORS_rightLeg)
]%nat.

Definition JOINT_INDICES : list nat :=
  [0; 3; 6; 7; 8; 11; 12; 13; 14; 15; 16; 23; 24; 25; 26; 27; 28; 31; 32]%nat.

Record DrawSkeletonOptions : Set := {
  lineWidth : option Q;
  jointRadius : option Q;
  minVisibility : option Q;
  mirror : option bool
}.

(** [options?.field ?? fallback] *)
Definition optionOr {A B : Type} (options : option A) (field : A -> option B) (fallback : B)
  : B :=
  match options with
  | Some given => match field given with Some value => value | None => fallback end
  | None => fallback
  end.

(** What a call draws: a stroked line from [from] to [to] with the stroke
    style, line width and opacity set for it, or a filled and stroked
    circle. *)
Inductive Drawn : Set :=
  | Stroke (strokeStyle : string) (width alpha : Q) (from to : Position.Position)
  | Joint (center : Position.Position) (radius : Q).

Section Frame.

Variables (landmarks : list NormalizedLandmark) (width height : Q).
Variable options : option DrawSkeletonOptions.

(** [toCanvas] of [drawSkeleton]. *)
Definition toCanvas (idx : nat) (prevPositions : Positions)
  : Positions * option Position.Position :=
  let minVisibility := optionOr options minVisibility 0.18 in
  let mirror := optionOr options mirror true in
  match nth_error landmarks idx with
  | None => (prevPositions, None)
  | Some lm =>
      if Qltb (visibility lm) minVisibility then (prevPositions, None)
      else
        let rawX := if mirror then (1 - x lm) * width else x lm * width in
        let rawY := y lm * height in
        let (positions, smoothed) := getSmoothedPosition idx rawX rawY prevPositions in
        (positions, Some smoothed)
  end.

(** The loop over [CONNECTIONS]: both ends are taken to the canvas, then
    the glow and the main line are stroked when both are there. *)
Fixpoint drawConnections (connections : list (nat * nat * string))
    (prevPositions : Positions) : Positions * list Drawn :=
  match connections with
  | [] => (prevPositions, [])
  | (fromIdx, toIdx, color) :: rest =>
      let lineWidth := optionOr options lineWidth 4 in
      let (positions, from) := toCanvas fromIdx prevPositions in
      let (positions, to) := toCanvas toIdx positions in
      let (positions', drawn) := drawConnections rest positions in
      match from, to with
      | Some from, Some to =>
          (positions',
           Stroke color (lineWidth + 4) 0.3 from to :: Stroke color lineWidth 1 from to :: drawn)
      | _, _ => (positions', drawn)
      end
  end.

(** The loop over [JOINT_INDICES]. *)
Fixpoint drawJoints (indices : list nat) (prevPositions : Positions)
  : Positions * list Drawn :=
  match indices with
  | [] => (prevPositions, [])
  | idx :: rest =>
      let jointRadius := optionOr options jointRadius 5 in
      let (positions, pos) := toCanvas idx prevPositions in
      let (positions', drawn) := drawJoints rest positions in
      match pos with
      | Some pos => (positions', Joint pos jointRadius :: drawn)
      | None => (positions', drawn)
      end
  end.

Definition drawSkeleton (prevPositions : Positions) : Positions * list Drawn :=
  let (positions, lines) := drawConnections CONNECTIONS prevPositions in
  let (positions, joints) := drawJoints JOINT_INDICES positions in
  (positions, lines ++ joints).

End Frame.

End Skeleton.
(** * The welcome scene

    The state and the refs of [WelcomeScene] in one record, and its effects
    and timer callbacks as functions on it.  A callback reads the values of
    the render that built it; the component rebuilds its callbacks when the
    values they read change, so they are the current ones.  The fade-in of
    the skeleton, the confetti and the texts are outside the model: of the
    feedback the record keeps whether it is the one of a timeout. *)

Module Welcome.

Inductive WelcomePhase : Set := detect | calibrate | ready.

Record Scene : Set := {
  phase : WelcomePhase;
  bodyDetected : bool;
  challengeIdx : nat;
  feedback : option bool;      (* [feedbackText]: of a timeout ([true]) or of a success *)
  shownProgress : Q;           (* the state [holdProgress] *)
  holdStartRef : option Q;
  challengeStartRef : Q;
  phaseTimerRef : bool;        (* a timeout of the detect phase is pending *)
  feedbackTimerRef : bool;     (* a timeout of [advanceChallenge] is pending *)
  advancingRef : bool
}.

(** [const currentChallenge = CHALLENGES[challengeIdx]] *)
Definition currentChallenge (scene : Scene) : option PoseChallenge :=
  nth_error CHALLENGES (challengeIdx scene).

(** *** Phase 1: detect *)

(** The body of the detect effect for the published status. *)
Definition detectEffect (poseStatus : PoseTrackingStatus) (scene : Scene) : Scene :=
  match phase scene with
  | detect =>
      let hasBody := status_eqb poseStatus calibrating || status_eqb poseStatus tracking in
      if hasBody && negb (bodyDetected scene) then
        {| phase := phase scene;
           bodyDetected := true;
           challengeIdx := challengeIdx scene;
           feedback := feedback scene;
           shownProgress := shownProgress scene;
           holdStartRef := holdStartRef scene;
           challengeStartRef := challengeStartRef scene;
           phaseTimerRef := true;
           feedbackTimerRef := feedbackTimerRef scene;
           advancingRef := advancingRef scene |}
      else if negb hasBody && bodyDetected scene then
        {| phase := phase scene;
           bodyDetected := false;
           challengeIdx := challengeIdx scene;
           feedback := feedback scene;
           shownProgress := shownProgress scene;
           holdStartRef := holdStartRef scene;
           challengeStartRef := challengeStartRef scene;
           phaseTimerRef := false;
           feedbackTimerRef := feedbackTimerRef scene;
           advancingRef := advancingRef scene |}
      else scene
  | _ => scene
  end.

(** The cleanup that the detect effect returns. *)
Definition detectCleanup (scene : Scene) : Scene :=
  {| phase := phase scene;
     bodyDetected := bodyDetected scene;
     challengeIdx := challengeIdx scene;
     feedback := feedback scene;
     shownProgress := shownProgress scene;
     holdStartRef := holdStartRef scene;
     challengeStartRef := challengeStartRef scene;
     phaseTimerRef := false;
     feedbackTimerRef := feedbackTimerRef scene;
     advancingRef := advancingRef scene |}.

(** The timeout of the detect phase fires at [now], when it is pending. *)
Definition phaseTimerFires (now : Q) (scene : Scene) : Scene :=
  if phaseTimerRef scene then
    {| phase := calibrate;
       bodyDetected := bodyDetected scene;
       challengeIdx := challengeIdx scene;
       feedback := feedback scene;
       shownProgress := shownProgress scene;
       holdStartRef := holdStartRef scene;
       challengeStartRef := now;
       phaseTimerRef := false;
       feedbackTimerRef := feedbackTimerRef scene;
       advancingRef := advancingRef scene |}
  else scene.

(** *** Phase 2: the challenges *)

(** [advanceChallenge(isTimeout)]; [None] when it reads the texts of a
    challenge that is not there, which throws. *)
Definition advanceChallenge (isTimeout : bool) (scene : Scene) : option Scene :=
  if advancingRef scene then Some scene
  else
    match nth_error CHALLENGES (challengeIdx scene) with
    | None => None
    | Some challenge =>
        Some {| phase := phase scene;
                bodyDetected := bodyDetected scene;
                challengeIdx := challengeIdx scene;
                feedback := Some isTimeout;
                shownProgress := shownProgress scene;
                holdStartRef := holdStartRef scene;
                challengeStartRef := challengeStartRef scene;
                phaseTimerRef := phaseTimerRef scene;
                feedbackTimerRef := true;
                advancingRef := true |}
    end.

(** The timeout of [advanceChallenge] fires at [now], when it is pending. *)
Definition feedbackTimerFires (now : Q) (scene : Scene) : Scene :=
  if feedbackTimerRef scene then
    let nextIdx := S (challengeIdx scene) in
    if (length CHALLENGES <=? nextIdx)%nat then
      {| phase := ready;
         bodyDetected := bodyDetected scene;
         challengeIdx := challengeIdx scene;
         feedback := None;
         shownProgress := shownProgress scene;
         holdStartRef := holdStartRef scene;
         challengeStartRef := challengeStartRef scene;
         phaseTimerRef := phaseTimerRef scene;
         feedbackTimerRef := false;
         advancingRef := false |}
    else
      {| phase := phase scene;
         bodyDetected := bodyDetected scene;
         challengeIdx := nextIdx;
         feedback := None;
         shownProgress := 0;
         holdStartRef := None;
         challengeStartRef := now;
         phaseTimerRef := phaseTimerRef scene;
         feedbackTimerRef := false;
         advancingRef := false |}
  else scene.

(** The effect that checks the pose against the challenge, run at [now]. *)
Definition checkPose (poseGesture : PoseGesture) (poseStatus : PoseTrackingStatus) (now : Q)
    (scene : Scene) : option Scene :=
  match phase scene, currentChallenge scene, advancingRef scene with
  | calibrate, Some challenge, false =>
      if Qgtb (now - challengeStartRef scene) (timeoutMs challenge)
      then advanceChallenge true scene
      else
        let (holdStart, result) :=
          checkEffect challenge poseGesture poseStatus (holdStartRef scene) now in
        let scene :=
          {| phase := phase scene;
             bodyDetected := bodyDetected scene;
             challengeIdx := challengeIdx scene;
             feedback := feedback scene;
             shownProgress := holdProgress result;
             holdStartRef := holdStart;
             challengeStartRef := challengeStartRef scene;
             phaseTimerRef := phaseTimerRef scene;
             feedbackTimerRef := feedbackTimerRef scene;
             advancingRef := advancingRef scene |} in
        if matched result then advanceChallenge false scene else Some scene
  | _, _, _ => Some scene
  end.

(** A tick of the timeout ticker of the calibrate phase, at [now]. *)
Definition timeoutTick (now : Q) (scene : Scene) : option Scene :=
  match phase scene, currentChallenge scene, advancingRef scene with
  | calibrate, Some challenge, false =>
      if Qgtb (now - challengeStartRef scene) (timeoutMs challenge)
      then advanceChallenge true scene
      else Some scene
  | _, _, _ => Some scene
  end.

(** What happens to the scene. *)
Inductive Event : Set :=
  | PoseSeen (poseGesture : PoseGesture) (poseStatus : PoseTrackingStatus) (now : Q)
  | Ticked (now : Q)
  | FeedbackShown (now : Q).

Definition handle (event : Event) (scene : Scene) : option Scene :=
  match event with
  | PoseSeen poseGesture poseStatus now => checkPose poseGesture poseStatus now scene
  | Ticked now => timeoutTick now scene
  | FeedbackShown now => Some (feedbackTimerFires now scene)
  end.

(** A run of events, oldest first; [None] when one of them throws. *)
Fixpoint handleAll (events : list Event) (scene : Scene) : option Scene :=
  match events with
  | [] => Some scene
  | event :: rest =>
      match handle event scene with
      | Some next => handleAll rest next
      | None => None
      end
  end.

End Welcome.
(** * What the further statements are written with

    As above, none of these definitions is part of the program. *)

(** ** The pose-gesture hook *)

(** The error message that a run of frames leaves published. *)
Fixpoint messageAfter (frames : list (Detection * Q)) (current : option string)
  : option string :=
  match frames with
  | [] => current
  | (Threw message, _) :: rest => messageAfter rest (Some message)
  | (Detected _, _) :: rest => messageAfter rest current
  end.

(** The calibration buffer is shorter than the calibration it serves, and
    the published progress is a share. *)
Definition progressInRange (world : GestureRuntime * UsePoseGestureState) : Prop :=
  (length (calibrationBuffer (fst world)) < neededFrames (fst world))%nat
  /\ 0 <= calibrationProgress (snd world) <= 1.

(** The drift test and the count of drifting frames send the frame into
    recalibration: the frame is the fifteenth in a row on which the stable
    gesture is IDLE and the signal is more than 0.35 away from the
    baseline as the frame has adapted it. *)
Definition entersRecalibration (sig : Q) (runtime : GestureRuntime) : bool :=
  driftTest sig runtime && (CALIBRATION_FRAMES <=? S (driftFrames runtime))%nat.

(** A frame with thirteen landmarks of which none is visible: the tier
    extraction fails. *)
Definition hiddenFrame (t : Q) : Detection * Q := (Detected (Some hiddenPose), t).

(** The hook after a calibration at 0.5 and a jump to 0.30 that is held
    for 100 ms: the jump is committed and published. *)
Definition jumpCommitted : GestureRuntime * UsePoseGestureState :=
  processFrames (steadyFrames 15 0.5 34 ++ [frameAt 0.30 600; frameAt 0.30 700])
    (createRuntime, INITIAL_STATE).

(** The runtime after fourteen of the swinging frames: calibrated, with
    fourteen drifting frames counted. *)
Definition swungRuntime : GestureRuntime :=
  fst (processFrames (firstn 14 swingingFrames) (trackingRuntime 0.5 None, INITIAL_STATE)).

(** The landmark is at a height of the normalised image. *)
Definition heightInImage (point : NormalizedLandmark) : Prop := 0 <= y point <= 1.

(** ** The welcome scene *)

(** What the welcome scene sees when its check runs: the published
    gesture and status, and the time. *)
Definition Observation : Set := (PoseGesture * PoseTrackingStatus * Q)%type.

Definition observedAt (observation : Observation) : Q := snd observation.

(** The observation shows the target gesture of the challenge, tracked. *)
Definition showsTarget (challenge : PoseChallenge) (observation : Observation) : Prop :=
  fst (fst observation) = targetGesture challenge /\ snd (fst observation) = tracking.

(** [holdStartRef.current] after the checks of a run of observations,
    oldest first. *)
Fixpoint holdStartAfter (challenge : PoseChallenge) (observations : list Observation)
    (holdStart : option Q) : option Q :=
  match observations with
  | [] => holdStart
  | (poseGesture, poseStatus, now) :: rest =>
      holdStartAfter challenge rest
        (fst (checkEffect challenge poseGesture poseStatus holdStart now))
  end.

(** The observations are in the order of their times: the scene reads
    them from [performance.now()], which never goes back. *)
Fixpoint inTimeOrder (observations : list Observation) : Prop :=
  match observations with
  | first :: (second :: _) as rest =>
      observedAt first <= observedAt second /\ inTimeOrder rest
  | _ => True
  end.

(** Successive observations differ in the gesture or the status: the
    check is an effect of the gesture and the status, and runs again when
    one of them has changed. *)
Fixpoint changing (observations : list Observation) : Prop :=
  match observations with
  | first :: (second :: _) as rest => fst first <> fst second /\ changing rest
  | _ => True
  end.

(** The detect effect as React runs it once the published status has
    changed: the cleanup of the last run, then the effect; and, when that
    run has changed [bodyDetected] (a dependency of the effect), the
    cleanup and the effect once more, for the render that the change
    causes. *)
Definition statusChanges (scene : Welcome.Scene) (poseStatus : PoseTrackingStatus)
  : Welcome.Scene :=
  let first := Welcome.detectEffect poseStatus (Welcome.detectCleanup scene) in
  if Bool.eqb (Welcome.bodyDetected first) (Welcome.bodyDetected scene) then first
  else Welcome.detectEffect poseStatus (Welcome.detectCleanup first).

(** The scene shows a challenge that is there, and a feedback timer is
    pending exactly while it advances. *)
Definition showsChallenge (scene : Welcome.Scene) : Prop :=
  (Welcome.challengeIdx scene < length CHALLENGES)%nat
  /\ Welcome.feedbackTimerRef scene = Welcome.advancingRef scene.

(** The welcome scene when its calibrate phase starts at [now]. *)
Definition firstChallenge (now : Q) : Welcome.Scene :=
  {| Welcome.phase := Welcome.calibrate; Welcome.bodyDetected := true;
     Welcome.challengeIdx := 0; Welcome.feedback := None;
     Welcome.shownProgress := 0; Welcome.holdStartRef := None;
     Welcome.challengeStartRef := now; Welcome.phaseTimerRef := false;
     Welcome.feedbackTimerRef := false; Welcome.advancingRef := false |}.

(** The welcome scene when it is mounted. *)
Definition mounted : Welcome.Scene :=
  {| Welcome.phase := Welcome.detect; Welcome.bodyDetected := false;
     Welcome.challengeIdx := 0; Welcome.feedback := None;
     Welcome.shownProgress := 0; Welcome.holdStartRef := None;
     Welcome.challengeStartRef := 0; Welcome.phaseTimerRef := false;
     Welcome.feedbackTimerRef := false; Welcome.advancingRef := false |}.

(** ** The game *)

(** The height that the dino can still gain: its position, less the rise
    that its upward speed is good for under gravity, with the margin that
    the length of a time step costs. *)
Definition jumpReserve (state : Game.RuntimeState) : Q :=
  Game.dinoY state
  - Game.dinoVelocity state * Game.dinoVelocity state / (2 * Game.GRAVITY)
  + (1 # 40) * Game.dinoVelocity state.

(** The dino is on the screen: not below the floor of a duck, and with a
    reserve that keeps it below the top of the canvas. *)
Definition dinoOnScreen (state : Game.RuntimeState) : Prop :=
  (133 # 5) <= jumpReserve state /\ Game.dinoY state <= Game.groundY - Game.DUCK_HEIGHT.

(** The play with the jump request withdrawn. *)
Definition withoutJump (play : Game.Play) : Game.Play :=
  {| Game.runtime := Game.runtime play;
     Game.input := Game.consumeJump (Game.input play);
     Game.obstacleId := Game.obstacleId play;
     Game.lastTick := Game.lastTick play |}.


(** The play with another input. *)
Definition withInput (input : Game.Input) (play : Game.Play) : Game.Play :=
  {| Game.runtime := Game.runtime play;
     Game.input := input;
     Game.obstacleId := Game.obstacleId play;
     Game.lastTick := Game.lastTick play |}.

(** The runtime that enters the collision of a played tick: after the
    timers, the dino, the speed, the spawn and the move of the
    obstacles. *)
Definition entering (dt : Q) (draws : Game.Draws) (play : Game.Play) : Game.RuntimeState :=
  Game.moveObstacles dt
    (fst (Game.spawn dt draws (Game.obstacleId play)
            (Game.gainSpeed dt
               (Game.moveDino dt (Game.input play)
                  (Game.updateTimers dt (Game.runtime play)))))).

(** The time that the played ticks of a run cover, in seconds: the sum of
    their time steps, each measured from the tick before it. *)
Fixpoint playedTime (ticks : list (Game.GameStatus * Q * Game.Draws)) (lastTick : option Q)
  : Q :=
  match ticks with
  | [] => 0
  | (status, timestamp, _) :: rest =>
      (if Game.isPlaying status then Game.frameDt lastTick timestamp else 0)
      + playedTime rest (Some timestamp)
  end.

(** The obstacles carry distinct identifiers, all below the counter. *)
Definition freshIds (play : Game.Play) : Prop :=
  NoDup (map Game.Obstacle.id (Game.obstacles (Game.runtime play)))
  /\ Forall (fun obstacle => (Game.Obstacle.id obstacle < Game.obstacleId play)%nat)
       (Game.obstacles (Game.runtime play)).

(** Draws for the examples: a cactus, small, after the shortest delay. *)
Definition lowDraws : Game.Draws :=
  {| Game.delayDraw := 0; Game.birdDraw := 0; Game.bigDraw := 0; Game.flightDraw := 0;
     Game.crashStars := [] |}.

(** Draws that make a bird once the score allows it. *)
Definition birdDraws : Game.Draws :=
  {| Game.delayDraw := 0; Game.birdDraw := 0.95; Game.bigDraw := 0; Game.flightDraw := 0.5;
     Game.crashStars := [] |}.

(** A game that has just been reset, with nothing pressed. *)
Definition freshPlay : Game.Play :=
  {| Game.runtime := Game.createInitialRuntime 0;
     Game.input := {| Game.jumpQueued := false; Game.duckPressed := false;
                      Game.poseDuckActive := false |};
     Game.obstacleId := 0;
     Game.lastTick := None |}.

(** A small cactus where the dino stands. *)
Definition cactusAtDino : Game.Obstacle.Obstacle :=
  {| Game.Obstacle.id := 0; Game.Obstacle.kind := Game.cactus;
     Game.Obstacle.x := Game.DINO_X; Game.Obstacle.y := Game.groundY - 52;
     Game.Obstacle.width := 30; Game.Obstacle.height := 52 |}.

(** The fresh game with that cactus on the canvas. *)
Definition playAtCactus : Game.Play :=
  {| Game.runtime :=
       {| Game.dinoY := Game.groundY - Game.NORMAL_HEIGHT; Game.dinoVelocity := 0;
          Game.ducking := false; Game.speed := Game.BASE_SPEED; Game.score := 0;
          Game.health := Game.MAX_HEALTH; Game.invincibleTimer := 0; Game.healTimer := 0;
          Game.obstacles := [cactusAtDino]; Game.spawnTimer := 0;
          Game.nextSpawnDelay := 5; Game.stars := [] |};
     Game.input := Game.input freshPlay;
     Game.obstacleId := 1;
     Game.lastTick := None |}.

(** The jump is requested, and nothing else. *)
Definition jumpRequested : Game.Input :=
  {| Game.jumpQueued := true; Game.duckPressed := false; Game.poseDuckActive := false |}.

(** The dino in the air, on its way up, with a jump requested; the last
    tick was at 1000 ms. *)
Definition airbornePlay : Game.Play :=
  {| Game.runtime :=
       {| Game.dinoY := 120; Game.dinoVelocity := -300;
          Game.ducking := false; Game.speed := Game.BASE_SPEED; Game.score := 40;
          Game.health := Game.MAX_HEALTH; Game.invincibleTimer := 0; Game.healTimer := 0;
          Game.obstacles := []; Game.spawnTimer := 1;
          Game.nextSpawnDelay := 5; Game.stars := [] |};
     Game.input := jumpRequested;
     Game.obstacleId := 1;
     Game.lastTick := Some 1000 |}.

(** The cactus game just after a hit: four hearts and the full 1.35
    seconds of invincibility. *)
Definition playAfterHit : Game.Play :=
  {| Game.runtime :=
       {| Game.dinoY := Game.groundY - Game.NORMAL_HEIGHT; Game.dinoVelocity := 0;
          Game.ducking := false; Game.speed := Game.BASE_SPEED; Game.score := 0;
          Game.health := 4; Game.invincibleTimer := Game.HIT_INVINCIBLE_SECONDS;
          Game.healTimer := 0;
          Game.obstacles := [cactusAtDino]; Game.spawnTimer := 0;
          Game.nextSpawnDelay := 5; Game.stars := [] |};
     Game.input := Game.input freshPlay;
     Game.obstacleId := 1;
     Game.lastTick := Some 1000 |}.

(** The cactus game with one heart left. *)
Definition playAtLastHeart : Game.Play :=
  {| Game.runtime :=
       {| Game.dinoY := Game.groundY - Game.NORMAL_HEIGHT; Game.dinoVelocity := 0;
          Game.ducking := false; Game.speed := Game.BASE_SPEED; Game.score := 0;
          Game.health := 1; Game.invincibleTimer := 0; Game.healTimer := 0;
          Game.obstacles := [cactusAtDino]; Game.spawnTimer := 0;
          Game.nextSpawnDelay := 5; Game.stars := [] |};
     Game.input := Game.input freshPlay;
     Game.obstacleId := 1;
     Game.lastTick := None |}.

(** A published pose: a tracked jump. *)
Definition jumpPose : UsePoseGestureState :=
  {| gesture := JUMP; status := tracking; calibrationProgress := 1;
     errorMessage := None; stateTrackingTier := Tier1 |}.

(** ** The skeleton overlay *)

(** The map after [count] calls of [getSmoothedPosition] for the landmark
    [idx] with the same raw position. *)
Fixpoint smoothedAfter (count : nat) (idx : nat) (rawX rawY : Q)
    (prevPositions : Skeleton.Positions) : Skeleton.Positions :=
  match count with
  | O => prevPositions
  | S rest =>
      smoothedAfter rest idx rawX rawY
        (fst (Skeleton.getSmoothedPosition idx rawX rawY prevPositions))
  end.

(** The point lies on the canvas. *)
Definition onCanvas (width height : Q) (position : Skeleton.Position.Position) : Prop :=
  0 <= Skeleton.Position.x position <= width
  /\ 0 <= Skeleton.Position.y position <= height.

(** Every stored position lies on the canvas. *)
Definition storedOnCanvas (width height : Q) (positions : Skeleton.Positions) : Prop :=
  forall idx position, positions idx = Some position -> onCanvas width height position.

(** What is drawn lies on the canvas. *)
Definition drawnOnCanvas (width height : Q) (drawn : Skeleton.Drawn) : Prop :=
  match drawn with
  | Skeleton.Stroke _ _ _ from to => onCanvas width height from /\ onCanvas width height to
  | Skeleton.Joint center _ => onCanvas width height center
  end.

(** The landmark is in the unit square of the normalised image. *)
Definition normalised (lm : NormalizedLandmark) : Prop :=
  0 <= x lm <= 1 /\ 0 <= y lm <= 1.

(** The two strokes of a connection between the points [ends]: the glow,
    four wider and at 30 % opacity, then the main line. *)
Definition strokesFor (options : option Skeleton.DrawSkeletonOptions)
    (connection : nat * nat * string)
    (ends : Skeleton.Position.Position * Skeleton.Position.Position)
  : list Skeleton.Drawn :=
  let lineWidth := Skeleton.optionOr options Skeleton.lineWidth 4 in
  [Skeleton.Stroke (snd connection) (lineWidth + 4) 0.3 (fst ends) (snd ends);
   Skeleton.Stroke (snd connection) lineWidth 1 (fst ends) (snd ends)].

(** The landmarks that the loop over the connections takes to the canvas,
    in the order of the calls: the two ends of each connection. *)
Definition endsOf (connections : list (nat * nat * string)) : list nat :=
  flat_map (fun connection => [fst (fst connection); snd (fst connection)]) connections.

(** [prevPositions] after the landmarks [calls] were taken to the canvas,
    one after the other. *)
Definition takenToCanvas (landmarks : list NormalizedLandmark) (width height : Q)
    (options : option Skeleton.DrawSkeletonOptions) (calls : list nat)
    (prevPositions : Skeleton.Positions) : Skeleton.Positions :=
  fold_left
    (fun positions idx =>
       fst (Skeleton.toCanvas landmarks width height options idx positions))
    calls prevPositions.

(** The elements of a list, each with the elements before it. *)
Fixpoint withFront {A : Type} (front rest : list A) : list (list A * A) :=
  match rest with
  | [] => []
  | a :: rest => (front, a) :: withFront (front ++ [a]) rest
  end.

(** The circle of a joint at [center]. *)
Definition circleAt (options : option Skeleton.DrawSkeletonOptions)
    (center : Skeleton.Position.Position) : Skeleton.Drawn :=
  Skeleton.Joint center (Skeleton.optionOr options Skeleton.jointRadius 5).

(** The landmark at [idx] is there and as visible as the overlay asks. *)
Definition visibleAt (landmarks : list NormalizedLandmark)
    (options : option Skeleton.DrawSkeletonOptions) (idx : nat) : bool :=
  match nth_error landmarks idx with
  | None => false
  | Some lm => Qgeb (visibility lm) (Skeleton.optionOr options Skeleton.minVisibility 0.18)
  end.

(** Both ends of the connection are visible. *)
Definition connected (landmarks : list NormalizedLandmark)
    (options : option Skeleton.DrawSkeletonOptions) (connection : nat * nat * string) : bool :=
  visibleAt landmarks options (fst (fst connection))
  && visibleAt landmarks options (snd (fst connection)).

(** The strokes of [connection], which comes after the connections
    [front]: when both its ends are visible, the two strokes between the
    position stored for its first end once that end has been taken to the
    canvas, and the position stored for its second end once that one has
    been. *)
Definition strokesOf (landmarks : list NormalizedLandmark) (width height : Q)
    (options : option Skeleton.DrawSkeletonOptions) (prevPositions : Skeleton.Positions)
    (front : list (nat * nat * string)) (connection : nat * nat * string)
  : list Skeleton.Drawn :=
  let fromIdx := fst (fst connection) in
  let toIdx := snd (fst connection) in
  let stored calls := takenToCanvas landmarks width height options calls prevPositions in
  if connected landmarks options connection then
    match stored (endsOf front ++ [fromIdx]) fromIdx,
          stored (endsOf front ++ [fromIdx; toIdx]) toIdx with
    | Some from, Some to => strokesFor options connection (from, to)
    | _, _ => []
    end
  else [].

(** * Properties *)

(** ** Tactics *)

(** Reads and assignments of runtime fields. *)
Ltac fields :=
  cbn [baseline calibrationBuffer stableGesture pendingGesture pendingSince missingFrames
       lastDetectAt lastSignal driftFrames idleFrames recalibrating trackingTier
       set_baseline set_calibrationBuffer set_stableGesture set_pendingGesture
       set_pendingSince set_missingFrames set_lastDetectAt set_lastSignal set_driftFrames
       set_idleFrames set_recalibrating set_trackingTier fst snd] in *.

(** Case analysis on a test of the goal; [break_inner] takes a test that
    contains no other test. *)
Ltac break_if :=
  match goal with
  | |- context [if ?c then _ else _] => destruct c eqn:?
  | |- context [match ?c with _ => _ end] => destruct c eqn:?
  end.

Ltac break_inner :=
  match goal with
  | |- context [if ?c then _ else _] =>
      lazymatch c with
      | context [if _ then _ else _] => fail
      | _ => destruct c eqn:?
      end
  | |- context [match ?c with Some _ => _ | None => _ end] =>
      lazymatch c with
      | context [if _ then _ else _] => fail
      | _ => destruct c eqn:?
      end
  end.


(** ** Comparisons *)

Lemma Qltb_lt (a b : Q) : Qltb a b = true <-> a < b.
Proof.
  unfold Qltb. rewrite negb_true_iff, <- not_true_iff_false, Qle_bool_iff.
  split; intro H; [apply Qnot_le_lt; exact H | apply Qlt_not_le; exact H].
Qed.

Lemma Qgtb_gt (a b : Q) : Qgtb a b = true <-> b < a.
Proof. unfold Qgtb. apply Qltb_lt. Qed.

Lemma Qgeb_ge (a b : Q) : Qgeb a b = true <-> b <= a.
Proof. unfold Qgeb. apply Qle_bool_iff. Qed.

Lemma Qgtb_false (a b : Q) : Qgtb a b = false <-> a <= b.
Proof.
  rewrite <- not_true_iff_false, Qgtb_gt.
  split; intro H; [apply Qnot_lt_le; exact H | apply Qle_not_lt; exact H].
Qed.

Lemma Qgeb_false (a b : Q) : Qgeb a b = false <-> a < b.
Proof.
  rewrite <- not_true_iff_false, Qgeb_ge.
  split; intro H; [apply Qnot_le_lt; exact H | apply Qlt_not_le; exact H].
Qed.

(** ** Sums *)

Lemma fold_left_Qplus_acc (values : list Q) (acc : Q) :
  fold_left Qplus values acc == acc + sumQ values.
Proof.
  revert acc. induction values as [|v values IH]; intro acc; simpl.
  - ring.
  - rewrite IH. ring.
Qed.

(** ** The phases of a frame *)

(** The four ways through the debouncer. *)
Lemma debounce_cases (candidate : PoseGesture) (runtime : GestureRuntime) (now : Q) :
  (candidate = stableGesture runtime
   /\ debounce candidate runtime now = (set_pendingGesture None runtime, stableGesture runtime))
  \/ (candidate <> stableGesture runtime /\ pendingGesture runtime <> Some candidate
      /\ debounce candidate runtime now
         = (set_pendingSince now (set_pendingGesture (Some candidate) runtime),
            stableGesture runtime))
  \/ (candidate <> stableGesture runtime /\ pendingGesture runtime = Some candidate
      /\ DEBOUNCE_MS <= now - pendingSince runtime
      /\ debounce candidate runtime now
         = (set_pendingGesture None (set_stableGesture candidate runtime), candidate))
  \/ (candidate <> stableGesture runtime /\ pendingGesture runtime = Some candidate
      /\ now - pendingSince runtime < DEBOUNCE_MS
      /\ debounce candidate runtime now = (runtime, stableGesture runtime)).
Proof.
  unfold debounce.
  destruct (PoseGesture_eq_dec candidate (stableGesture runtime)) as [e|n].
  - left. split; [exact e | reflexivity].
  - right. destruct (pending_neq_dec (pendingGesture runtime) (Some candidate)) as [p|p].
    + left. split; [exact n | split; [exact p | reflexivity]].
    + right. destruct (Qgeb (now - pendingSince runtime) DEBOUNCE_MS) eqn:T.
      * left. apply Qgeb_ge in T.
        split; [exact n | split; [exact p | split; [exact T |]]].
        destruct runtime; reflexivity.
      * right. apply Qgeb_false in T.
        split; [exact n | split; [exact p | split; [exact T | reflexivity]]].
Qed.

(** The front end leaves the debouncer's fields alone. *)
Lemma analyse_debounce_fields (landmarks : list NormalizedLandmark) (runtime : GestureRuntime) :
  let r := analysisRuntime (analyse landmarks runtime) in
  stableGesture r = stableGesture runtime
  /\ pendingGesture r = pendingGesture runtime
  /\ pendingSince r = pendingSince runtime
  /\ lastDetectAt r = lastDetectAt runtime.
Proof.
  unfold analyse, calibrationPhase, adaptBaseline, driftCheck.
  destruct runtime; cbn.
  repeat (break_if; cbn); try discriminate; repeat split; try reflexivity; congruence.
Qed.

(** [estimateGesture] as the analysis followed by the debouncer. *)
Lemma estimateGesture_fields (landmarks : list NormalizedLandmark)
    (runtime : GestureRuntime) (now : Q) :
  match analyse landmarks runtime with
  | Candidate mid candidate =>
      estimateGesture landmarks runtime now = debounce candidate mid now
      /\ stableGesture mid = stableGesture runtime
      /\ pendingGesture mid = pendingGesture runtime
      /\ pendingSince mid = pendingSince runtime
  | other =>
      estimateGesture landmarks runtime now = (analysisRuntime other, IDLE)
      /\ stableGesture (analysisRuntime other) = stableGesture runtime
      /\ pendingGesture (analysisRuntime other) = pendingGesture runtime
      /\ pendingSince (analysisRuntime other) = pendingSince runtime
  end.
Proof.
  pose proof (analyse_debounce_fields landmarks runtime) as H. cbv zeta in H.
  unfold estimateGesture.
  destruct (analyse landmarks runtime); cbn [analysisRuntime] in *;
    (split; [reflexivity | tauto]).
Qed.

(** The tier, the signal and the missing-frame counter that a frame
    records. *)
Lemma estimateGesture_records_tier (landmarks : list NormalizedLandmark)
    (runtime : GestureRuntime) (now : Q) :
  let after := fst (estimateGesture landmarks runtime now) in
  match computeTierSignal landmarks with
  | Some tierResult =>
      trackingTier after = tier tierResult /\ lastSignal after = Some (signal tierResult)
      /\ missingFrames after = 0%nat
  | None =>
      trackingTier after = trackingTier runtime /\ lastSignal after = None
      /\ missingFrames after = S (missingFrames runtime)
  end.
Proof.
  cbv zeta. unfold estimateGesture, analyse.
  destruct (computeTierSignal landmarks) as [tr|]; [|cbn; tauto].
  cbv zeta. unfold calibrationPhase, adaptBaseline, driftCheck, debounce.
  cbn. repeat (break_if; cbn); repeat apply conj; reflexivity.
Qed.

(** ** The classifier *)

(** The candidate against the thresholds. *)
Lemma classify_spec (sig riseVelocity multiplier : Q) (runtime : GestureRuntime) :
  let b := toNumber (baseline runtime) in
  let jumpDelta := b - sig in
  let duckDelta := sig - b in
  let jump := 0.10 * multiplier < jumpDelta
              \/ (0.065 * multiplier < jumpDelta /\ 0.010 * multiplier < riseVelocity) in
  let duck := 0.09 * multiplier < duckDelta in
  let candidate := classify sig riseVelocity multiplier runtime in
  (candidate = JUMP <-> jump)
  /\ (candidate = DUCK <-> ~ jump /\ duck)
  /\ (candidate = IDLE <-> ~ jump /\ ~ duck).
Proof.
  cbv zeta. unfold classify.
  change JUMP_THRESHOLD with 0.10. change QUICK_JUMP_THRESHOLD with 0.065.
  change QUICK_JUMP_VELOCITY with 0.010. change DUCK_THRESHOLD with 0.09.
  set (b := toNumber (baseline runtime)).
  set (jump := 0.10 * multiplier < b - sig
               \/ (0.065 * multiplier < b - sig /\ 0.010 * multiplier < riseVelocity)).
  set (test := Qgtb (b - sig) (0.10 * multiplier)
               || (Qgtb (b - sig) (0.065 * multiplier)
                   && Qgtb riseVelocity (0.010 * multiplier))).
  assert (HJ : test = true <-> jump).
  { unfold test, jump. rewrite orb_true_iff, andb_true_iff, !Qgtb_gt. reflexivity. }
  pose proof (Qgtb_gt (sig - b) (0.09 * multiplier)) as HD.
  destruct test.
  - assert (J : jump) by (apply HJ; reflexivity).
    intuition discriminate.
  - assert (J : ~ jump) by (intro K; apply HJ in K; discriminate).
    destruct (Qgtb (sig - b) (0.09 * multiplier)).
    + assert (D : 0.09 * multiplier < sig - b) by (apply HD; reflexivity).
      intuition discriminate.
    + assert (D : ~ 0.09 * multiplier < sig - b) by (intro K; apply HD in K; discriminate).
      intuition discriminate.
Qed.

(** The drift check writes the drift counter and, on entering
    recalibration, the flag and the buffer. *)
Lemma driftCheck_fields (sig : Q) (runtime : GestureRuntime) :
  let r := fst (driftCheck sig runtime) in
  baseline r = baseline runtime
  /\ (snd (driftCheck sig runtime) = true
      -> recalibrating r = true /\ calibrationBuffer r = [sig] /\ driftFrames r = 0%nat)
  /\ (snd (driftCheck sig runtime) = false -> recalibrating r = recalibrating runtime).
Proof.
  unfold driftCheck. cbv zeta.
  repeat (break_if; cbn); repeat split; intros; try reflexivity; try discriminate.
Qed.

Lemma adaptBaseline_baseline (sig : Q) (runtime : GestureRuntime) :
  baseline runtime <> None -> baseline (adaptBaseline sig runtime) <> None.
Proof.
  unfold adaptBaseline. intro H. repeat (break_if; cbn); try discriminate; exact H.
Qed.

(** What [analyse] does on a calibrated frame with a signal. *)
Lemma analyse_tracking (landmarks : list NormalizedLandmark) (runtime : GestureRuntime)
    (tierResult : TierResult) :
  computeTierSignal landmarks = Some tierResult ->
  baseline runtime <> None ->
  recalibrating runtime = false ->
  let sig := signal tierResult in
  let riseVelocity :=
    match lastSignal runtime with
    | None => 0
    | Some last => last - sig
    end in
  let entry := set_lastSignal (Some sig)
                 (set_trackingTier (tier tierResult) (set_missingFrames 0 runtime)) in
  let check := driftCheck sig (adaptBaseline sig entry) in
  analyse landmarks runtime
  = if snd check then DriftRecalibration (fst check)
    else Candidate (fst check)
           (classify sig riseVelocity (thresholdMultiplier tierResult) (fst check)).
Proof.
  intros T B R. cbv zeta. unfold analyse. rewrite T. cbn.
  destruct (baseline runtime) eqn:Eb; [|congruence]. rewrite R. cbn.
  destruct (driftCheck _ _) as [r entered]. reflexivity.
Qed.

(** The analysis enters recalibration exactly on the frames that
    [entersRecalibration] names. *)
Lemma driftCheck_enters (sig : Q) (runtime : GestureRuntime) (last : option Q)
    (tier0 : TrackingTier) :
  let entry := set_lastSignal last (set_trackingTier tier0 (set_missingFrames 0 runtime)) in
  snd (driftCheck sig (adaptBaseline sig entry)) = entersRecalibration sig runtime.
Proof.
  cbv zeta. unfold entersRecalibration, driftTest, driftCheck.
  assert (E : baseline (adaptBaseline sig
                 (set_lastSignal last (set_trackingTier tier0 (set_missingFrames 0 runtime))))
              = baseline (adaptBaseline sig runtime)
              /\ stableGesture (adaptBaseline sig
                   (set_lastSignal last (set_trackingTier tier0 (set_missingFrames 0 runtime))))
                 = stableGesture runtime
              /\ driftFrames (adaptBaseline sig
                   (set_lastSignal last (set_trackingTier tier0 (set_missingFrames 0 runtime))))
                 = driftFrames runtime).
  { unfold adaptBaseline. fields.
    destruct (PoseGesture_eq_dec (stableGesture runtime) IDLE); cbv zeta; fields;
      repeat apply conj; reflexivity. }
  destruct E as (Eb & Es & Ed). cbv zeta. rewrite Eb, Es.
  destruct (gesture_eqb (stableGesture runtime) IDLE && Qgtb _ _); cbn [andb].
  - fields. rewrite Ed. destruct (CALIBRATION_FRAMES <=? S (driftFrames runtime))%nat;
      reflexivity.
  - reflexivity.
Qed.

(** C2 as amended: on a calibrated frame with a usable signal that does not
    enter recalibration, the raw candidate is JUMP exactly when jumpDelta
    exceeds 0.10 mult, or exceeds 0.065 mult with a rise velocity above
    0.010 mult; otherwise DUCK exactly when duckDelta exceeds 0.09 mult;
    otherwise IDLE.  The baseline is the runtime's, as the frame has
    adapted it; the candidate is the one handed to the debouncer.  The
    frame that enters recalibration (the fifteenth drifting frame in a
    row) computes no candidate, whatever the deltas are: it returns IDLE
    and leaves the debouncer as it was. *)
Theorem candidate_thresholds (landmarks : list NormalizedLandmark) (runtime : GestureRuntime)
    (now : Q) (tierResult : TierResult) :
  computeTierSignal landmarks = Some tierResult ->
  baseline runtime <> None ->
  recalibrating runtime = false ->
  (entersRecalibration (signal tierResult) runtime = false ->
   exists candidate b mid,
     analyse landmarks runtime = Candidate mid candidate
     /\ rawCandidate landmarks runtime = Some candidate
     /\ estimateGesture landmarks runtime now = debounce candidate mid now
     /\ baseline (fst (estimateGesture landmarks runtime now)) = Some b
     /\ let mult := thresholdMultiplier tierResult in
        let jumpDelta := b - signal tierResult in
        let duckDelta := signal tierResult - b in
        let riseVelocity :=
          match lastSignal runtime with
          | Some previousSignal => previousSignal - signal tierResult
          | None => 0
          end in
        let jump := 0.10 * mult < jumpDelta
                    \/ (0.065 * mult < jumpDelta /\ 0.010 * mult < riseVelocity) in
        (candidate = JUMP <-> jump)
        /\ (candidate = DUCK <-> ~ jump /\ 0.09 * mult < duckDelta)
        /\ (candidate = IDLE <-> ~ jump /\ ~ 0.09 * mult < duckDelta))
  /\ (entersRecalibration (signal tierResult) runtime = true ->
      let after := fst (estimateGesture landmarks runtime now) in
      rawCandidate landmarks runtime = None
      /\ snd (estimateGesture landmarks runtime now) = IDLE
      /\ recalibrating after = true
      /\ calibrationBuffer after = [signal tierResult]
      /\ stableGesture after = stableGesture runtime
      /\ pendingGesture after = pendingGesture runtime
      /\ pendingSince after = pendingSince runtime).
Proof.
  intros T B R.
  pose proof (analyse_tracking landmarks runtime tierResult T B R) as A. cbv zeta in A.
  pose proof (estimateGesture_fields landmarks runtime now) as F.
  pose proof (driftCheck_enters (signal tierResult) runtime (Some (signal tierResult))
                (tier tierResult)) as En. cbv zeta in En.
  set (entry := set_lastSignal _ _) in A, En.
  pose proof (driftCheck_fields (signal tierResult) (adaptBaseline (signal tierResult) entry)) as D.
  cbv zeta in D. destruct D as (Db & Dt & Df).
  rewrite En in A, Dt, Df. split; intro Es; rewrite Es in A.
  - rewrite A in F. destruct F as (E & _).
    set (mid := fst (driftCheck _ _)) in *.
    assert (Bmid : baseline mid <> None).
    { rewrite Db. apply adaptBaseline_baseline. subst entry. cbn. exact B. }
    destruct (baseline mid) as [b|] eqn:Eb; [|congruence].
    eexists _, b, mid.
    split; [exact A | split; [unfold rawCandidate; rewrite A; reflexivity|]].
    split; [exact E | split].
    + rewrite E.
      destruct (debounce_cases (classify (signal tierResult)
                  match lastSignal runtime with Some last => last - signal tierResult | None => 0 end
                  (thresholdMultiplier tierResult) mid) mid now)
        as [(_ & X) | [(_ & _ & X) | [(_ & _ & _ & X) | (_ & _ & _ & X)]]];
        rewrite X; cbn; exact Eb.
    + pose proof (classify_spec (signal tierResult)
                    match lastSignal runtime with Some last => last - signal tierResult | None => 0 end
                    (thresholdMultiplier tierResult) mid) as C.
      cbv zeta in C. rewrite Eb in C. cbn [toNumber] in C.
      subst entry. cbn [lastSignal set_lastSignal set_trackingTier set_missingFrames] in *.
      cbv zeta.
      match goal with |- context [classify _ ?rv _ _] =>
        match type of C with context [classify _ ?rv' _ _] => change rv with rv' end end.
      exact C.
  - cbv zeta. rewrite A in F. cbn [analysisRuntime] in F.
    destruct F as (E & Fs & Fp & Ft). rewrite E. cbn [fst snd].
    destruct (Dt Es) as (Dr & Dc & _).
    split; [unfold rawCandidate; rewrite A; reflexivity|].
    repeat apply conj; try reflexivity; assumption.
Qed.

Lemma candidate_thresholds_witness :
  rawCandidate (poseAt 0.38) (trackingRuntime 0.5 (Some 0.5)) = Some JUMP
  /\ rawCandidate (poseAt 0) swungRuntime = None.
Proof.
  split.
  - edestruct (candidate_thresholds (poseAt 0.38) (trackingRuntime 0.5 (Some 0.5)) 34)
      as ((candidate & b & mid & _ & A & _ & B & J & _) & _).
    + vm_compute. reflexivity.
    + discriminate.
    + reflexivity.
    + vm_compute. reflexivity.
    + assert (E : candidate = JUMP).
      { apply J. left. vm_compute in B. injection B as <-. vm_compute. reflexivity. }
      rewrite A, E. reflexivity.
  - edestruct (candidate_thresholds (poseAt 0) swungRuntime 510) as (_ & Enters).
    + vm_compute. reflexivity.
    + vm_compute. discriminate.
    + vm_compute. reflexivity.
    + apply Enters. vm_compute. reflexivity.
Defined.

(** C2 as stated fails on the frame that enters recalibration.  After
    fourteen swinging frames the runtime is calibrated and the frame
    reports the signal 0 under tier 1: jumpDelta is above 0.10, but the
    frame has no candidate, returns IDLE and records no pending JUMP. *)
Lemma drift_entry_frame_has_no_candidate :
  let step := estimateGesture (poseAt 0) swungRuntime 510 in
  (exists b, baseline swungRuntime = Some b)
  /\ recalibrating swungRuntime = false
  /\ (exists tierResult,
        computeTierSignal (poseAt 0) = Some tierResult
        /\ signal tierResult == 0
        /\ thresholdMultiplier tierResult == 1)
  /\ (exists b, baseline (fst step) = Some b /\ 0.10 * 1 < b - 0)
  /\ rawCandidate (poseAt 0) swungRuntime = None
  /\ snd step = IDLE
  /\ pendingGesture (fst step) <> Some JUMP
  /\ recalibrating (fst step) = true.
Proof.
  cbv zeta. repeat apply conj.
  - eexists. vm_compute. reflexivity.
  - vm_compute. reflexivity.
  - eexists. split; [vm_compute; reflexivity | split; vm_compute; reflexivity].
  - eexists. split; [vm_compute; reflexivity | vm_compute; reflexivity].
  - vm_compute. reflexivity.
  - vm_compute. reflexivity.
  - vm_compute. discriminate.
  - vm_compute. reflexivity.
Qed.

(** ** Frames of the loop *)

(** A tick of the loop processes a frame, or does nothing when it comes
    less than the detection interval after the last detection. *)
Lemma loop_cases (detection : Detection) (now : Q)
    (world : GestureRuntime * UsePoseGestureState) :
  (now - lastDetectAt (fst world) < DETECTION_INTERVAL_MS
   /\ loop detection now world = world)
  \/ (DETECTION_INTERVAL_MS <= now - lastDetectAt (fst world)
      /\ loop detection now world = processFrame detection now world).
Proof.
  unfold loop.
  destruct (Qltb (now - lastDetectAt (fst world)) DETECTION_INTERVAL_MS) eqn:E.
  - left. apply Qltb_lt in E. tauto.
  - right. split; [|reflexivity].
    apply Qnot_lt_le. intro K. apply Qltb_lt in K. congruence.
Qed.

Lemma processFrames_app (first second : list (Detection * Q))
    (world : GestureRuntime * UsePoseGestureState) :
  processFrames (first ++ second) world = processFrames second (processFrames first world).
Proof.
  revert world. induction first as [|[d t] first IH]; intro world; cbn.
  - reflexivity.
  - apply IH.
Qed.

(** The time of the last detection plays no role in the analysis. *)
Lemma rawCandidate_lastDetectAt (landmarks : list NormalizedLandmark)
    (runtime : GestureRuntime) (now : Q) :
  rawCandidate landmarks (set_lastDetectAt now runtime) = rawCandidate landmarks runtime.
Proof.
  unfold rawCandidate, analyse.
  destruct (computeTierSignal landmarks) as [tr|]; [|reflexivity].
  cbv zeta. unfold calibrationPhase, adaptBaseline, driftCheck, classify.
  fields. repeat (break_inner; fields); try reflexivity; try congruence.
Qed.

(** The runtime after a frame with landmarks is the one that
    [estimateGesture] leaves. *)
Lemma processFrame_runtime (landmarks : list NormalizedLandmark) (now : Q)
    (world : GestureRuntime * UsePoseGestureState) :
  tooFew (Some landmarks) = false ->
  fst (processFrame (Detected (Some landmarks)) now world)
  = fst (estimateGesture landmarks (set_lastDetectAt now (fst world)) now).
Proof.
  destruct world as [runtime current]. intro Few.
  unfold processFrame. rewrite Few. unfold trackLandmarks. cbn [fst].
  destruct (estimateGesture _ _ _) as [r g]. break_if; reflexivity.
Qed.

(** The runtime and the published state after a frame with landmarks, from
    what [estimateGesture] returns. *)
Lemma trackLandmarks_publishes (landmarks : list NormalizedLandmark) (now : Q)
    (runtime : GestureRuntime) (current : UsePoseGestureState) :
  let result := estimateGesture landmarks runtime now in
  let after := trackLandmarks landmarks now runtime current in
  fst after = fst result
  /\ (missingFrames (fst result) = 0%nat ->
      gesture (snd after) = snd result
      /\ status (snd after)
         = if negb (isNull (baseline (fst result))) && negb (recalibrating (fst result))
           then tracking else calibrating).
Proof.
  cbv zeta. unfold trackLandmarks.
  destruct (estimateGesture landmarks runtime now) as [r g]. cbn [fst snd].
  destruct (Nat.ltb_spec MAX_MISSING_FRAMES (missingFrames r)) as [L|L]; cbn [fst snd].
  - split; [reflexivity|]. intro Z. rewrite Z in L. inversion L.
  - split; [reflexivity|]. intros _. cbn [gesture status publish]. split; reflexivity.
Qed.

(** ** Frames without a usable signal *)

(** A frame without landmarks, by the branch of the loop. *)
Lemma missingLandmarks_effect (runtime : GestureRuntime) (current : UsePoseGestureState) :
  let after := missingLandmarks runtime current in
  fst after = set_missingFrames (S (missingFrames runtime)) runtime
  /\ ((S (missingFrames runtime) <= MAX_MISSING_FRAMES)%nat -> snd after = current)
  /\ ((MAX_MISSING_FRAMES < S (missingFrames runtime))%nat ->
      status (snd after) = no_person /\ gesture (snd after) = IDLE).
Proof.
  unfold missingLandmarks. cbn [missingFrames set_missingFrames].
  destruct (Nat.ltb_spec MAX_MISSING_FRAMES (S (missingFrames runtime))); cbn.
  - split; [reflexivity | split; intro K; [lia | split; reflexivity]].
  - split; [reflexivity | split; intro K; [reflexivity | lia]].
Qed.

(** A frame with landmarks on which tier extraction fails. *)
Lemma trackLandmarks_noSignal (landmarks : list NormalizedLandmark) (now : Q)
    (runtime : GestureRuntime) (current : UsePoseGestureState) :
  computeTierSignal landmarks = None ->
  let after := trackLandmarks landmarks now runtime current in
  fst after = set_lastSignal None (set_missingFrames (S (missingFrames runtime)) runtime)
  /\ ((S (missingFrames runtime) <= MAX_MISSING_FRAMES)%nat ->
      status (snd after) = tracking \/ status (snd after) = calibrating)
  /\ ((MAX_MISSING_FRAMES < S (missingFrames runtime))%nat ->
      status (snd after) = no_person /\ gesture (snd after) = IDLE).
Proof.
  intro T. unfold trackLandmarks, estimateGesture, analyse. rewrite T.
  cbn [missingFrames set_missingFrames set_lastSignal].
  destruct (Nat.ltb_spec MAX_MISSING_FRAMES (S (missingFrames runtime))); cbn.
  - split; [reflexivity | split; intro K; [lia | split; reflexivity]].
  - split; [reflexivity | split; intro K; [|lia]].
    destruct (negb (isNull (baseline runtime)) && negb (recalibrating runtime)); auto.
Qed.

(** A frame that fails counts one more missing frame; it publishes
    no-person past the threshold and not below. *)
Lemma failed_frame (detection : Detection) (now : Q)
    (world : GestureRuntime * UsePoseGestureState) :
  failedExtraction detection = true ->
  let after := processFrame detection now world in
  missingFrames (fst after) = S (missingFrames (fst world))
  /\ ((S (missingFrames (fst world)) <= MAX_MISSING_FRAMES)%nat ->
      status (snd world) <> no_person -> status (snd after) <> no_person)
  /\ ((MAX_MISSING_FRAMES < S (missingFrames (fst world)))%nat ->
      status (snd after) = no_person /\ gesture (snd after) = IDLE).
Proof.
  destruct world as [runtime current]. destruct detection as [m|[landmarks|]]; cbn [failedExtraction].
  - discriminate.
  - intro F. unfold processFrame. cbn [fst snd].
    destruct (tooFew (Some landmarks)) eqn:Few.
    + pose proof (missingLandmarks_effect (set_lastDetectAt now runtime) current) as (E & Lo & Hi).
      cbn [missingFrames set_lastDetectAt] in *.
      rewrite E. cbn. split; [reflexivity | split].
      * intros L N. rewrite (Lo L). exact N.
      * exact Hi.
    + cbn in F. destruct (computeTierSignal landmarks) eqn:T; [discriminate|].
      pose proof (trackLandmarks_noSignal landmarks now (set_lastDetectAt now runtime) current T)
        as (E & Lo & Hi).
      cbn [missingFrames set_lastDetectAt] in *.
      rewrite E. cbn. split; [reflexivity | split].
      * intros L _. destruct (Lo L) as [S|S]; rewrite S; discriminate.
      * exact Hi.
  - intros _. unfold processFrame. cbn [fst snd].
    pose proof (missingLandmarks_effect (set_lastDetectAt now runtime) current) as (E & Lo & Hi).
    cbn [missingFrames set_lastDetectAt] in *.
    rewrite E. cbn. split; [reflexivity | split].
    + intros L N. rewrite (Lo L). exact N.
    + exact Hi.
Qed.

Lemma failed_frames_count (frames : list (Detection * Q))
    (world : GestureRuntime * UsePoseGestureState) :
  forallb failedExtraction (map fst frames) = true ->
  missingFrames (fst (processFrames frames world))
  = (missingFrames (fst world) + length frames)%nat.
Proof.
  revert world. induction frames as [|[d t] frames IH]; intros world F; cbn.
  - lia.
  - cbn in F. apply andb_true_iff in F. destruct F as (Fd & Ff).
    rewrite (IH _ Ff). destruct (failed_frame d t world Fd) as (M & _). rewrite M. lia.
Qed.

Lemma failed_frames_below (frames : list (Detection * Q))
    (world : GestureRuntime * UsePoseGestureState) :
  forallb failedExtraction (map fst frames) = true ->
  (missingFrames (fst world) + length frames <= MAX_MISSING_FRAMES)%nat ->
  status (snd world) <> no_person ->
  let after := processFrames frames world in
  missingFrames (fst after) = (missingFrames (fst world) + length frames)%nat
  /\ status (snd after) <> no_person.
Proof.
  revert world. induction frames as [|[d t] frames IH]; intros world F L N; cbn.
  - split; [lia | exact N].
  - cbn in F, L. apply andb_true_iff in F. destruct F as (Fd & Ff).
    destruct (failed_frame d t world Fd) as (M & Lo & _).
    destruct (IH (processFrame d t world) Ff) as (M' & N').
    + rewrite M. lia.
    + apply Lo; [lia | exact N].
    + split; [rewrite M', M; lia | exact N'].
Qed.

(** C7: from a missing-frame counter of zero, up to 20 consecutive frames
    with failed extraction do not publish no-person (a published status
    that is not no-person stays so); 21 do, with the gesture IDLE; and a
    frame whose extraction succeeds resets the counter to zero. *)
Theorem missing_frames_threshold :
  (forall frames world,
     missingFrames (fst world) = 0%nat ->
     forallb failedExtraction (map fst frames) = true ->
     (length frames <= 20)%nat ->
     status (snd world) <> no_person ->
     status (snd (processFrames frames world)) <> no_person)
  /\ (forall frames world,
        missingFrames (fst world) = 0%nat ->
        forallb failedExtraction (map fst frames) = true ->
        length frames = 21%nat ->
        status (snd (processFrames frames world)) = no_person
        /\ gesture (snd (processFrames frames world)) = IDLE)
  /\ (forall landmarks tierResult now world,
        tooFew (Some landmarks) = false ->
        computeTierSignal landmarks = Some tierResult ->
        missingFrames (fst (processFrame (Detected (Some landmarks)) now world)) = 0%nat).
Proof.
  split; [|split].
  - intros frames world M F L N.
    apply (failed_frames_below frames world F); [|exact N].
    rewrite M. unfold MAX_MISSING_FRAMES. lia.
  - intros frames world M F L.
    destruct (exists_last (l := frames)) as (front & [d t] & ->).
    { intro E; rewrite E in L; discriminate. }
    rewrite length_app in L. cbn in L.
    rewrite map_app, forallb_app in F. apply andb_true_iff in F. destruct F as (Ff & Fd).
    cbn in Fd. rewrite andb_true_r in Fd.
    rewrite processFrames_app. cbn [processFrames].
    (* the first twenty frames only count *)
    assert (C : missingFrames (fst (processFrames front world)) = 20%nat).
    { rewrite (failed_frames_count front world Ff), M. lia. }
    destruct (failed_frame d t (processFrames front world) Fd) as (_ & _ & Hi).
    apply Hi. rewrite C. unfold MAX_MISSING_FRAMES. lia.
  - intros landmarks tierResult now world Few T.
    rewrite (processFrame_runtime landmarks now world Few).
    pose proof (estimateGesture_records_tier landmarks
                  (set_lastDetectAt now (fst world)) now) as K.
    cbv zeta in K. rewrite T in K. tauto.
Qed.

Lemma missing_frames_threshold_witness :
  let start := (trackingRuntime 0.5 (Some 0.5), INITIAL_STATE) in
  status (snd (processFrames (repeat (Detected None, 0) 20) start)) <> no_person
  /\ status (snd (processFrames (repeat (Detected (Some hiddenPose), 0) 21) start))
     = no_person
  /\ missingFrames
       (fst (processFrame (Detected (Some (poseAt 0.5))) 0
               (processFrames (repeat (Detected None, 0) 21) start))) = 0%nat.
Proof.
  destruct missing_frames_threshold as (Below & Above & Reset).
  split; [|split].
  - apply Below.
    + reflexivity.
    + reflexivity.
    + cbn. lia.
    + discriminate.
  - apply (Above (repeat (Detected (Some hiddenPose), 0) 21)); reflexivity.
  - eapply (Reset (poseAt 0.5)).
    + reflexivity.
    + vm_compute. reflexivity.
Defined.
(** The sibling path: landmarks are there and tier extraction fails. *)
Lemma noSignal_frame_effect (landmarks : list NormalizedLandmark) (now : Q)
    (world : GestureRuntime * UsePoseGestureState) :
  tooFew (Some landmarks) = false ->
  computeTierSignal landmarks = None ->
  let after := fst (processFrame (Detected (Some landmarks)) now world) in
  missingFrames after = S (missingFrames (fst world))
  /\ lastSignal after = None
  /\ sameCalibration after (fst world).
Proof.
  destruct world as [runtime current]. intros Few T. cbv zeta.
  unfold processFrame. rewrite Few.
  unfold trackLandmarks, estimateGesture, analyse. rewrite T.
  cbn [missingFrames set_missingFrames set_lastSignal].
  destruct (_ <? _)%nat; cbn; unfold sameCalibration; cbn; tauto.
Qed.

(** C8, on the frames without landmarks (none, or fewer than 13): the
    missing-frame counter goes up by one and the calibration and debounce
    fields stay, but the stored previous signal stays too; it is not
    reset, as it is on the frames whose tier extraction fails. *)
Theorem missing_landmarks_keep_lastSignal (landmarks : option (list NormalizedLandmark))
    (now : Q) (world : GestureRuntime * UsePoseGestureState) :
  tooFew landmarks = true ->
  let after := fst (processFrame (Detected landmarks) now world) in
  missingFrames after = S (missingFrames (fst world))
  /\ lastSignal after = lastSignal (fst world)
  /\ sameCalibration after (fst world).
Proof.
  destruct world as [runtime current]. intro Few. cbv zeta.
  unfold processFrame.
  destruct landmarks as [l|]; [rewrite Few|];
    unfold missingLandmarks; cbn [missingFrames set_missingFrames set_lastDetectAt];
    destruct (_ <? _)%nat; cbn; unfold sameCalibration; cbn; tauto.
Qed.

Lemma missing_landmarks_keep_lastSignal_witness :
  lastSignal (fst (processFrame (Detected None) 34
                     (trackingRuntime 0.5 (Some 0.5), INITIAL_STATE))) = Some 0.5.
Proof.
  exact (proj1 (proj2 (missing_landmarks_keep_lastSignal None 34
                         (trackingRuntime 0.5 (Some 0.5), INITIAL_STATE) eq_refl))).
Defined.

(** The stale signal shows on the next frame: after a frame without
    landmarks the rise velocity is taken against the signal of two frames
    ago and the candidate is JUMP; after a frame whose tier extraction
    fails it is 0 and the candidate is IDLE. *)
Lemma stale_lastSignal_changes_candidate :
  let world := (trackingRuntime 0.5 (Some 0.5), INITIAL_STATE) in
  rawCandidate (poseAt 0.42) (fst (processFrame (Detected None) 34 world)) = Some JUMP
  /\ rawCandidate (poseAt 0.42) (fst (processFrame (Detected (Some hiddenPose)) 34 world))
     = Some IDLE.
Proof. vm_compute. split; reflexivity. Qed.
(** ** The baseline *)

Lemma debounce_baseline (candidate : PoseGesture) (runtime : GestureRuntime) (now : Q) :
  baseline (fst (debounce candidate runtime now)) = baseline runtime.
Proof.
  destruct (debounce_cases candidate runtime now)
    as [(_ & X) | [(_ & _ & X) | [(_ & _ & _ & X) | (_ & _ & _ & X)]]];
    rewrite X; reflexivity.
Qed.

Lemma calibrationPhase_baseline (sig : Q) (runtime : GestureRuntime) :
  let after := calibrationPhase sig runtime in
  (recalibrating after = recalibrating runtime
   /\ baseline after = baseline runtime
   /\ calibrationBuffer after = calibrationBuffer runtime ++ [sig])
  \/ (recalibrating after = false
      /\ baseline after = Some (mean (calibrationBuffer runtime ++ [sig]))
      /\ calibrationBuffer after = []).
Proof.
  unfold calibrationPhase. cbv zeta. break_if; cbn; [right | left]; tauto.
Qed.

Lemma estimateGesture_baseline (landmarks : list NormalizedLandmark)
    (runtime : GestureRuntime) (now : Q) :
  baseline runtime <> None ->
  baseline (fst (estimateGesture landmarks runtime now)) <> None.
Proof.
  intro B. unfold estimateGesture, analyse.
  destruct (computeTierSignal landmarks) as [tierResult|]; [|exact B].
  cbv zeta. cbn [baseline recalibrating set_lastSignal set_trackingTier set_missingFrames].
  destruct (isNull (baseline runtime) || recalibrating runtime).
  - destruct (calibrationPhase_baseline (signal tierResult)
                (set_lastSignal (Some (signal tierResult))
                   (set_trackingTier (tier tierResult) (set_missingFrames 0 runtime))))
      as [(_ & E & _) | (_ & E & _)]; cbn [fst]; rewrite E; [exact B | discriminate].
  - set (entry := set_lastSignal _ _).
    pose proof (driftCheck_fields (signal tierResult) (adaptBaseline (signal tierResult) entry)) as D.
    cbv zeta in D. destruct D as (Db & _).
    assert (Ba : baseline (adaptBaseline (signal tierResult) entry) <> None)
      by (apply adaptBaseline_baseline; exact B).
    destruct (driftCheck _ _) as [r entered]. cbn [fst] in Db.
    destruct entered; cbn [fst].
    + rewrite Db. exact Ba.
    + rewrite debounce_baseline, Db. exact Ba.
Qed.

Lemma processFrame_baseline (detection : Detection) (now : Q)
    (world : GestureRuntime * UsePoseGestureState) :
  baseline (fst world) <> None ->
  baseline (fst (processFrame detection now world)) <> None.
Proof.
  destruct world as [runtime current]. cbn [fst]. intro B.
  unfold processFrame.
  destruct detection as [m|[l|]]; cbn [fst]; try exact B.
  - destruct (tooFew (Some l)).
    + unfold missingLandmarks. break_if; exact B.
    + unfold trackLandmarks.
      pose proof (estimateGesture_baseline l (set_lastDetectAt now runtime) now B) as E.
      destruct (estimateGesture _ _ _) as [r g]. cbn [fst] in E.
      break_if; exact E.
  - unfold missingLandmarks. break_if; exact B.
Qed.

(** C10: a baseline that is set stays set over every frame; entering
    recalibration leaves its value, frames of a recalibration keep it until
    the mean of the buffer replaces it, and only the rebuilt runtime of a
    disabled subsystem has none. *)
Theorem baseline_stays_set :
  (forall landmarks runtime now,
     baseline runtime <> None ->
     baseline (fst (estimateGesture landmarks runtime now)) <> None)
  /\ (forall frames world,
        baseline (fst world) <> None ->
        baseline (fst (processFrames frames world)) <> None)
  (* entering recalibration writes the flag, the buffer and the drift
     counter, and leaves the baseline *)
  /\ (forall sig runtime, baseline (fst (driftCheck sig runtime)) = baseline runtime)
  (* while recalibrating: no classification, and the baseline stays until
     the mean of the buffer replaces it *)
  /\ (forall landmarks runtime now,
        recalibrating runtime = true ->
        let after := fst (estimateGesture landmarks runtime now) in
        rawCandidate landmarks runtime = None
        /\ snd (estimateGesture landmarks runtime now) = IDLE
        /\ (recalibrating after = true -> baseline after = baseline runtime)
        /\ (recalibrating after = false ->
            exists tierResult,
              computeTierSignal landmarks = Some tierResult
              /\ baseline after
                 = Some (mean (calibrationBuffer runtime ++ [signal tierResult]))))
  (* only a rebuilt runtime has no baseline *)
  /\ baseline createRuntime = None
  /\ (forall world,
        baseline (fst (disable world)) = None /\ baseline (fst (enable world)) = None).
Proof.
  split; [|split; [|split; [|split; [|split]]]].
  - exact estimateGesture_baseline.
  - intros frames. induction frames as [|[d t] frames IH]; intros world B; cbn.
    + exact B.
    + apply IH. apply processFrame_baseline. exact B.
  - intros sig runtime. apply (driftCheck_fields sig runtime).
  - intros landmarks runtime now R. cbv zeta.
    unfold rawCandidate, estimateGesture, analyse.
    destruct (computeTierSignal landmarks) as [tierResult|].
    + cbv zeta. cbn [baseline recalibrating set_lastSignal set_trackingTier set_missingFrames].
      rewrite R, orb_true_r.
      destruct (calibrationPhase_baseline (signal tierResult)
                  (set_lastSignal (Some (signal tierResult))
                     (set_trackingTier (tier tierResult) (set_missingFrames 0 runtime))))
        as [(Er & Eb & _) | (Er & Eb & _)]; cbn [fst snd];
        cbn [baseline recalibrating calibrationBuffer
             set_lastSignal set_trackingTier set_missingFrames] in *.
      * repeat split; try reflexivity.
        -- intros _. exact Eb.
        -- intro K. congruence.
      * repeat split; try reflexivity.
        -- intro K. congruence.
        -- intros _. exists tierResult. split; [reflexivity | exact Eb].
    + cbn. repeat split; try reflexivity. intro K. congruence.
  - reflexivity.
  - intro world. split; reflexivity.
Qed.

Lemma baseline_stays_set_witness :
  baseline (fst (processFrames swingingFrames (trackingRuntime 0.5 None, INITIAL_STATE)))
  <> None.
Proof.
  apply (proj1 (proj2 baseline_stays_set) swingingFrames
           (trackingRuntime 0.5 None, INITIAL_STATE)).
  discriminate.
Defined.
(** ** Calibration *)

(** What a frame with a signal is made of. *)
Lemma signalOf_inv (detection : Detection) (sig : Q) :
  signalOf detection = Some sig ->
  exists landmarks tierResult,
    detection = Detected (Some landmarks)
    /\ tooFew (Some landmarks) = false
    /\ computeTierSignal landmarks = Some tierResult
    /\ signal tierResult = sig.
Proof.
  destruct detection as [m|[l|]]; cbn [signalOf]; try discriminate.
  destruct (tooFew (Some l)) eqn:Few; [discriminate|].
  destruct (computeTierSignal l) as [tr|] eqn:T; [|discriminate].
  intro H. injection H as <-. exists l, tr. tauto.
Qed.

(** A frame with a signal while the runtime calibrates. *)
Lemma calibrating_frame (detection : Detection) (now sig : Q)
    (runtime : GestureRuntime) (current : UsePoseGestureState) :
  signalOf detection = Some sig ->
  isNull (baseline runtime) || recalibrating runtime = true ->
  let needed := if recalibrating runtime then RECALIBRATION_FRAMES else CALIBRATION_FRAMES in
  let buffer := calibrationBuffer runtime ++ [sig] in
  let after := processFrame detection now (runtime, current) in
  gesture (snd after) = IDLE
  /\ missingFrames (fst after) = 0%nat
  /\ lastSignal (fst after) = Some sig
  /\ stableGesture (fst after) = stableGesture runtime
  /\ ((length buffer < needed)%nat ->
      baseline (fst after) = baseline runtime
      /\ recalibrating (fst after) = recalibrating runtime
      /\ calibrationBuffer (fst after) = buffer
      /\ (recalibrating runtime = false -> baseline runtime = None ->
          status (snd after) = calibrating
          /\ calibrationProgress (snd after) = ofNat (length buffer) / ofNat CALIBRATION_FRAMES))
  /\ ((needed <= length buffer)%nat ->
      baseline (fst after) = Some (mean buffer)
      /\ recalibrating (fst after) = false
      /\ calibrationBuffer (fst after) = []
      /\ driftFrames (fst after) = 0%nat
      /\ idleFrames (fst after) = 0%nat
      /\ status (snd after) = tracking).
Proof.
  intros S C. destruct (signalOf_inv detection sig S) as (l & tr & -> & Few & T & <-).
  cbv zeta. unfold processFrame. rewrite Few.
  unfold trackLandmarks, estimateGesture, analyse. rewrite T. cbv zeta.
  cbn [baseline recalibrating set_lastSignal set_trackingTier set_missingFrames set_lastDetectAt].
  rewrite C. unfold calibrationPhase. cbv zeta.
  cbn [calibrationBuffer recalibrating set_calibrationBuffer set_lastSignal set_trackingTier
       set_missingFrames set_lastDetectAt].
  set (needed := if recalibrating runtime then RECALIBRATION_FRAMES else CALIBRATION_FRAMES).
  destruct (Nat.leb_spec needed (length (calibrationBuffer runtime ++ [signal tr]))) as [L|L].
  - cbn. repeat apply conj; try reflexivity.
    + intro K. lia.
    + intros _. repeat apply conj; reflexivity.
  - cbn. repeat apply conj; try reflexivity.
    + intros _. repeat apply conj; try reflexivity.
      intros R B. rewrite R, B. split; reflexivity.
    + intro K. lia.
Qed.

Lemma signalsOf_app (first second : list (Detection * Q)) :
  signalsOf (first ++ second) = signalsOf first ++ signalsOf second.
Proof. unfold signalsOf. apply flat_map_app. Qed.

Lemma signalsOf_length (frames : list (Detection * Q)) :
  Forall hasSignal frames -> length (signalsOf frames) = length frames.
Proof.
  unfold signalsOf.
  induction 1 as [|[d t] frames H _ IH]; cbn [flat_map fst length].
  - reflexivity.
  - unfold hasSignal in H. cbn [fst] in H. destruct (signalOf d); [|congruence].
    cbn [app length]. rewrite IH. reflexivity.
Qed.

(** Frames with a signal that do not fill the buffer. *)
Lemma calibrating_run (frames : list (Detection * Q)) :
  forall (runtime : GestureRuntime) (current : UsePoseGestureState),
    isNull (baseline runtime) || recalibrating runtime = true ->
    Forall hasSignal frames ->
    (length (calibrationBuffer runtime) + length frames < neededFrames runtime)%nat ->
    let after := processFrames frames (runtime, current) in
    baseline (fst after) = baseline runtime
    /\ recalibrating (fst after) = recalibrating runtime
    /\ stableGesture (fst after) = stableGesture runtime
    /\ calibrationBuffer (fst after) = calibrationBuffer runtime ++ signalsOf frames
    /\ (frames <> [] ->
        gesture (snd after) = IDLE
        /\ (recalibrating runtime = false -> baseline runtime = None ->
            status (snd after) = calibrating
            /\ calibrationProgress (snd after)
               = ofNat (length (calibrationBuffer (fst after))) / ofNat CALIBRATION_FRAMES)).
Proof.
  induction frames as [|[d t] frames IH]; intros runtime current C F L; cbv zeta.
  - cbn. rewrite app_nil_r. repeat apply conj; try reflexivity. congruence.
  - inversion F as [|? ? Hd Hf]; subst. cbn [processFrames].
    unfold hasSignal in Hd. cbn in Hd.
    destruct (signalOf d) as [sig|] eqn:Sd; [|congruence].
    pose proof (calibrating_frame d t sig runtime current Sd C) as P. cbv zeta in P.
    fold (neededFrames runtime) in P.
    destruct P as (G & _ & _ & St & Lo & _).
    cbn [length] in L.
    destruct Lo as (B1 & R1 & C1 & P1); [rewrite length_app; cbn [length]; lia|].
    destruct (processFrame d t (runtime, current)) as [runtime1 current1] eqn:E1.
    cbn [fst snd] in *.
    assert (C' : isNull (baseline runtime1) || recalibrating runtime1 = true)
      by (rewrite B1, R1; exact C).
    assert (L' : (length (calibrationBuffer runtime1) + length frames
                  < neededFrames runtime1)%nat).
    { unfold neededFrames in *. rewrite C1, R1, length_app. cbn [length]. lia. }
    specialize (IH runtime1 current1 C' Hf L'). cbv zeta in IH.
    destruct IH as (B2 & R2 & St2 & C2 & N2).
    repeat apply conj.
    + congruence.
    + congruence.
    + congruence.
    + rewrite C2, C1. unfold signalsOf. cbn [flat_map fst]. rewrite Sd, <- app_assoc.
      reflexivity.
    + intros _. destruct frames as [|f frames].
      * cbn [processFrames snd fst]. split; [exact G|].
        intros R B. destruct (P1 R B) as (X & Y). rewrite C1. split; [exact X | exact Y].
      * destruct N2 as (G2 & N2); [discriminate|]. split; [exact G2|].
        intros R B. apply N2; congruence.
Qed.

Lemma Forall_prefix {A : Type} (P : A -> Prop) (k : nat) (l : list A) :
  Forall P l -> Forall P (firstn k l).
Proof.
  intro H. rewrite <- (firstn_skipn k l) in H. apply Forall_app in H. tauto.
Qed.

(** The frame that fills the buffer, after frames that did not. *)
Lemma calibration_completes (front : list (Detection * Q)) (last : Detection * Q)
    (runtime : GestureRuntime) (current : UsePoseGestureState) :
  isNull (baseline runtime) || recalibrating runtime = true ->
  Forall hasSignal (front ++ [last]) ->
  (length (calibrationBuffer runtime) + length front + 1 = neededFrames runtime)%nat ->
  let after := processFrames (front ++ [last]) (runtime, current) in
  baseline (fst after)
  = Some (mean (calibrationBuffer runtime ++ signalsOf (front ++ [last])))
  /\ recalibrating (fst after) = false
  /\ calibrationBuffer (fst after) = []
  /\ driftFrames (fst after) = 0%nat
  /\ idleFrames (fst after) = 0%nat
  /\ stableGesture (fst after) = stableGesture runtime
  /\ gesture (snd after) = IDLE
  /\ status (snd after) = tracking.
Proof.
  intros C F L. cbv zeta. apply Forall_app in F. destruct F as (Ff & Fl).
  inversion Fl as [|? ? Hl _]; subst. destruct last as [d t].
  unfold hasSignal in Hl. cbn [fst] in Hl.
  destruct (signalOf d) as [sig|] eqn:Sd; [|congruence].
  rewrite processFrames_app. cbn [processFrames].
  destruct (calibrating_run front runtime current C Ff) as (B1 & R1 & St1 & C1 & _); [lia|].
  destruct (processFrames front (runtime, current)) as [runtime1 current1].
  cbn [fst snd] in *.
  assert (C' : isNull (baseline runtime1) || recalibrating runtime1 = true)
    by (rewrite B1, R1; exact C).
  pose proof (calibrating_frame d t sig runtime1 current1 Sd C') as P. cbv zeta in P.
  fold (neededFrames runtime1) in P.
  destruct P as (G & _ & _ & St & _ & Hi).
  destruct Hi as (B2 & R2 & C2 & D2 & I2 & S2).
  { unfold neededFrames in *. rewrite R1, C1, !length_app, (signalsOf_length front Ff).
    cbn [length]. lia. }
  rewrite signalsOf_app. unfold signalsOf at 2. cbn [flat_map fst]. rewrite Sd.
  cbn [app]. rewrite app_assoc, <- C1.
  repeat apply conj; try assumption. congruence.
Qed.

(** The mean times the number of samples is their sum. *)
Lemma mean_sum (buffer : list Q) :
  buffer <> [] -> mean buffer * ofNat (length buffer) == sumQ buffer.
Proof.
  intro N. unfold mean. rewrite fold_left_Qplus_acc. fold (ofNat (length buffer)).
  assert (Z : ~ ofNat (length buffer) == 0).
  { destruct buffer as [|v buffer]; [congruence|].
    intro K. unfold Qeq, ofNat in K. cbn [Qnum Qden inject_Z length] in K. lia. }
  field. exact Z.
Qed.




(** ** The challenge matcher *)

Lemma gesture_eqb_eq (a b : PoseGesture) : gesture_eqb a b = true <-> a = b.
Proof.
  unfold gesture_eqb. destruct (PoseGesture_eq_dec a b); split; congruence.
Qed.

Lemma status_eqb_eq (a b : PoseTrackingStatus) : status_eqb a b = true <-> a = b.
Proof.
  unfold status_eqb. destruct (PoseTrackingStatus_eq_dec a b); split; congruence.
Qed.

Lemma holdStartAfter_app (challenge : PoseChallenge) (first second : list Observation)
    (holdStart : option Q) :
  holdStartAfter challenge (first ++ second) holdStart
  = holdStartAfter challenge second (holdStartAfter challenge first holdStart).
Proof.
  revert holdStart. induction first as [|[[g s] t] first IH]; intro holdStart; cbn.
  - reflexivity.
  - apply IH.
Qed.

Lemma trackHold_cases (challenge : PoseChallenge) (poseGesture : PoseGesture)
    (poseStatus : PoseTrackingStatus) (holdStart : option Q) (now : Q) :
  0 < holdMs challenge ->
  (showsTarget challenge (poseGesture, poseStatus, now)
   /\ trackHold challenge poseGesture poseStatus holdStart now
      = match holdStart with None => Some now | Some start => Some start end)
  \/ (~ showsTarget challenge (poseGesture, poseStatus, now)
      /\ trackHold challenge poseGesture poseStatus holdStart now = None).
Proof.
  intro H. unfold trackHold, showsTarget. cbn [fst snd].
  destruct (gesture_eqb poseGesture (targetGesture challenge)) eqn:G;
    destruct (status_eqb poseStatus tracking) eqn:T; cbn [andb];
    rewrite ?gesture_eqb_eq, ?status_eqb_eq in *.
  - left. split; [tauto|]. destruct holdStart; reflexivity.
  - right. apply not_true_iff_false in T. rewrite status_eqb_eq in T.
    assert (P : Qgtb (holdMs challenge) 0 = true) by (apply Qgtb_gt; exact H).
    rewrite P. tauto.
  - right. apply not_true_iff_false in G. rewrite gesture_eqb_eq in G.
    assert (P : Qgtb (holdMs challenge) 0 = true) by (apply Qgtb_gt; exact H).
    rewrite P. tauto.
  - right. apply not_true_iff_false in G. rewrite gesture_eqb_eq in G.
    assert (P : Qgtb (holdMs challenge) 0 = true) by (apply Qgtb_gt; exact H).
    rewrite P. tauto.
Qed.

(** The hold start that a run leaves is the time of the first observation
    of an unbroken stretch, up to the end of the run, that shows the
    target. *)
Lemma holdStartAfter_stretch (challenge : PoseChallenge) (observations : list Observation)
    (start : Q) :
  0 < holdMs challenge ->
  holdStartAfter challenge observations None = Some start ->
  exists front first held,
    observations = front ++ first :: held
    /\ observedAt first = start
    /\ Forall (showsTarget challenge) (first :: held).
Proof.
  intro H. revert start.
  induction observations as [|[[g s] t] observations IH] using rev_ind; intros start E.
  - discriminate E.
  - rewrite holdStartAfter_app in E. cbn [holdStartAfter checkEffect fst] in E.
    destruct (trackHold_cases challenge g s (holdStartAfter challenge observations None) t H)
      as [(Sh & Et) | (_ & Et)]; rewrite Et in E; [|discriminate].
    destruct (holdStartAfter challenge observations None) as [before|] eqn:B.
    + injection E as <-. destruct (IH before eq_refl) as (front & first & held & -> & A & F).
      exists front, first, (held ++ [(g, s, t)]). rewrite <- app_assoc. cbn [app].
      repeat apply conj; [reflexivity | exact A|].
      rewrite app_comm_cons. apply Forall_app. split; [exact F | constructor; [exact Sh|constructor]].
    + injection E as <-. exists observations, (g, s, t), [].
      repeat apply conj; [reflexivity | reflexivity | constructor; [exact Sh | constructor]].
Qed.

(** ** Checks in the order of time *)

Lemma inTimeOrder_from (first : Observation) (rest : list Observation) :
  inTimeOrder (first :: rest) ->
  Forall (fun later => observedAt first <= observedAt later) rest.
Proof.
  revert first. induction rest as [|second rest IH]; intros first T.
  - constructor.
  - destruct T as (L & T). constructor; [exact L|].
    apply (Forall_impl _ (P := fun later => observedAt second <= observedAt later)).
    + intros later K. apply (Qle_trans _ (observedAt second)); assumption.
    + apply IH. exact T.
Qed.

Lemma inTimeOrder_after (front rest : list Observation) :
  inTimeOrder (front ++ rest) -> inTimeOrder rest.
Proof.
  induction front as [|first front IH]; cbn [app]; intro T.
  - exact T.
  - apply IH. destruct (front ++ rest); [exact I | exact (proj2 T)].
Qed.

(** The hold start that the checks of a run in the order of time have left
    is not after the time of the next check. *)
Lemma holdStart_not_after (challenge : PoseChallenge) (earlier : list Observation)
    (last : Observation) (start : Q) :
  0 < holdMs challenge ->
  inTimeOrder (earlier ++ [last]) ->
  holdStartAfter challenge earlier None = Some start ->
  start <= observedAt last.
Proof.
  intros H T E.
  destruct (holdStartAfter_stretch challenge earlier start H E)
    as (front & first & held & -> & <- & _).
  rewrite <- app_assoc in T. apply inTimeOrder_after in T.
  cbn [app] in T. apply inTimeOrder_from in T.
  apply Forall_app in T. destruct T as (_ & T).
  inversion T; assumption.
Qed.

Section HoldChallenge.

Variable challenge : PoseChallenge.
Hypothesis hold : 0 < holdMs challenge.

Lemma holdMs_not_zero : Qeq_bool (holdMs challenge) 0 = false.
Proof.
  apply not_true_iff_false. intro K. apply Qeq_bool_iff in K. lra.
Qed.

(** The share of the hold that has elapsed, against 1. *)
Lemma hold_ratio (start now : Q) :
  (holdMs challenge <= now - start <-> 1 <= (now - start) / holdMs challenge)
  /\ (start <= now -> 0 <= (now - start) / holdMs challenge).
Proof.
  split; [split; intro K|intro K].
  - apply Qle_shift_div_l; [exact hold | lra].
  - apply (Qmult_le_r _ _ (holdMs challenge) hold) in K.
    unfold Qdiv in K. rewrite <- Qmult_assoc, (Qmult_comm (/ _)), Qmult_inv_r in K; lra.
  - apply Qle_shift_div_l; [exact hold | lra].
Qed.

(** The result when the gesture matches and the hold has started. *)
Lemma checkPoseMatch_holding (start now : Q) :
  let result := checkPoseMatch challenge (targetGesture challenge) (Some start) now in
  holdProgress result = Qmin 1 ((now - start) / holdMs challenge)
  /\ holdProgress result <= 1
  /\ (matched result = true <-> 1 <= holdProgress result)
  /\ (matched result = true <-> holdMs challenge <= now - start)
  /\ (start <= now -> 0 <= holdProgress result).
Proof.
  cbv zeta. unfold checkPoseMatch.
  assert (E : gesture_eqb (targetGesture challenge) (targetGesture challenge) = true)
    by (apply gesture_eqb_eq; reflexivity).
  rewrite E, holdMs_not_zero. cbn [negb matched holdProgress].
  destruct (hold_ratio start now) as (R & P).
  set (ratio := (now - start) / holdMs challenge) in *.
  split; [|split; [|split; [|split]]].
  - reflexivity.
  - apply Q.le_min_l.
  - apply Qgeb_ge.
  - rewrite Qgeb_ge. split; intro K.
    + apply R. apply (Q.min_glb_iff 1 ratio 1) in K. tauto.
    + apply R in K. apply Q.min_glb; [lra | exact K].
  - intro K. apply Q.min_glb; [lra | exact (P K)].
Qed.

(** C9: for a hold challenge, [checkPoseMatch] gives no match and no
    progress when the gesture differs from the target or no hold start is
    set; otherwise the progress is the elapsed share of the hold clamped
    to [[0, 1]], for every hold start that is not after [now], and it
    matches exactly when the progress reaches 1.  The scene, its only
    caller, sets the hold start from the clock of an earlier check or of
    this one, so over every run of its checks in the order of time the
    progress is the clamped share.  An interruption clears the hold start
    and the progress, and the next hold counts from the check that shows
    the target again. *)
Theorem checkPoseMatch_hold :
  (forall currentGesture holdStartTime now,
     currentGesture <> targetGesture challenge \/ holdStartTime = None ->
     checkPoseMatch challenge currentGesture holdStartTime now
     = {| matched := false; holdProgress := 0 |})
  /\ (forall start now,
        let result :=
          checkPoseMatch challenge (targetGesture challenge) (Some start) now in
        holdProgress result = Qmin 1 ((now - start) / holdMs challenge)
        /\ holdProgress result <= 1
        /\ (matched result = true <-> 1 <= holdProgress result)
        /\ (matched result = true <-> holdMs challenge <= now - start)
        /\ (start <= now ->
            0 <= holdProgress result
            /\ holdProgress result == clamp01 ((now - start) / holdMs challenge)))
  /\ (forall poseGesture poseStatus holdStart now,
        ~ (poseGesture = targetGesture challenge /\ poseStatus = tracking) ->
        checkEffect challenge poseGesture poseStatus holdStart now
        = (None, {| matched := false; holdProgress := 0 |}))
  /\ (forall restart now,
        fst (checkEffect challenge (targetGesture challenge) tracking None restart)
        = Some restart
        /\ let result :=
             snd (checkEffect challenge (targetGesture challenge) tracking
                    (Some restart) now) in
           (matched result = true <-> holdMs challenge <= now - restart))
  /\ (forall earlier poseGesture poseStatus now,
        inTimeOrder (earlier ++ [(poseGesture, poseStatus, now)]) ->
        let check :=
          checkEffect challenge poseGesture poseStatus
            (holdStartAfter challenge earlier None) now in
        0 <= holdProgress (snd check) <= 1
        /\ (matched (snd check) = true <-> 1 <= holdProgress (snd check))
        /\ (fst check = None ->
            snd check = {| matched := false; holdProgress := 0 |})
        /\ (forall start,
              fst check = Some start ->
              start <= now
              /\ snd check
                 = checkPoseMatch challenge (targetGesture challenge) (Some start) now
              /\ holdProgress (snd check)
                 == clamp01 ((now - start) / holdMs challenge))).
Proof.
  assert (Interrupted : forall poseGesture poseStatus holdStart now,
             ~ (poseGesture = targetGesture challenge /\ poseStatus = tracking) ->
             checkEffect challenge poseGesture poseStatus holdStart now
             = (None, {| matched := false; holdProgress := 0 |})).
  { intros poseGesture poseStatus holdStart now N.
    unfold checkEffect, trackHold.
    assert (C : gesture_eqb poseGesture (targetGesture challenge)
                && status_eqb poseStatus tracking = false).
    { apply not_true_iff_false. intro K. apply andb_true_iff in K.
      rewrite gesture_eqb_eq, status_eqb_eq in K. contradiction. }
    rewrite C.
    assert (G : Qgtb (holdMs challenge) 0 = true) by (apply Qgtb_gt; exact hold).
    rewrite G. f_equal.
    unfold checkPoseMatch. rewrite holdMs_not_zero.
    destruct (negb _); reflexivity. }
  assert (Clamped : forall start now,
             start <= now ->
             let result :=
               checkPoseMatch challenge (targetGesture challenge) (Some start) now in
             0 <= holdProgress result
             /\ holdProgress result == clamp01 ((now - start) / holdMs challenge)).
  { intros start now K.
    destruct (checkPoseMatch_holding start now) as (E & _ & _ & _ & P).
    cbv zeta. split; [exact (P K)|].
    unfold clamp01. rewrite <- E. rewrite Q.max_r; [reflexivity | exact (P K)]. }
  split; [|split; [|split; [exact Interrupted|split]]].
  - intros currentGesture holdStartTime now [N | N]; unfold checkPoseMatch.
    + destruct (gesture_eqb currentGesture (targetGesture challenge)) eqn:E.
      * apply gesture_eqb_eq in E. contradiction.
      * reflexivity.
    + subst holdStartTime. rewrite holdMs_not_zero.
      destruct (gesture_eqb currentGesture (targetGesture challenge)); reflexivity.
  - intros start now.
    destruct (checkPoseMatch_holding start now) as (E & L & M1 & M2 & P).
    cbv zeta. split; [exact E | split; [exact L | split; [exact M1 | split; [exact M2|]]]].
    exact (Clamped start now).
  - intros restart now.
    unfold checkEffect, trackHold.
    assert (C : gesture_eqb (targetGesture challenge) (targetGesture challenge)
                && status_eqb tracking tracking = true).
    { apply andb_true_iff. rewrite gesture_eqb_eq, status_eqb_eq. tauto. }
    rewrite C. cbn [fst snd]. split; [reflexivity|].
    change (status_eqb tracking tracking) with true. cbv iota.
    apply (checkPoseMatch_holding restart now).
  - intros earlier poseGesture poseStatus now T. cbv zeta.
    destruct (trackHold_cases challenge poseGesture poseStatus
                (holdStartAfter challenge earlier None) now hold) as [(Sh & Et) | (Sh & _)].
    + destruct Sh as (Sg & Ss). cbn [fst snd] in Sg, Ss. subst poseGesture poseStatus.
      unfold checkEffect. rewrite Et. cbn [fst snd].
      change (status_eqb tracking tracking) with true. cbv iota.
      assert (S : exists start,
                 match holdStartAfter challenge earlier None with
                 | Some start => Some start
                 | None => Some now
                 end = Some start /\ start <= now).
      { destruct (holdStartAfter challenge earlier None) as [start|] eqn:B.
        - exists start. split; [reflexivity|].
          exact (holdStart_not_after challenge earlier _ start hold T B).
        - exists now. split; [reflexivity | lra]. }
      destruct S as (start & -> & K).
      destruct (checkPoseMatch_holding start now) as (_ & L & M & _ & _).
      destruct (Clamped start now K) as (P & C).
      repeat apply conj; try assumption.
      * apply M.
      * apply M.
      * discriminate.
      * intros other O. injection O as <-. repeat apply conj; [exact K | reflexivity | exact C].
    + rewrite (Interrupted poseGesture poseStatus _ now).
      * cbn [fst snd holdProgress matched].
        split; [lra|]. split; [split; [discriminate | intro K; exfalso; lra]|].
        split; [reflexivity | discriminate].
      * intros (G & S). apply Sh. split; assumption.
Qed.

End HoldChallenge.

Lemma checkPoseMatch_hold_witness :
  holdProgress (checkPoseMatch standStill IDLE (Some 1000) 2500)
  = Qmin 1 ((2500 - 1000) / 2000)
  /\ checkEffect standStill JUMP tracking (Some 1000) 2500
     = (None, {| matched := false; holdProgress := 0 |})
  /\ 0 <= holdProgress
            (snd (checkEffect standStill IDLE tracking
                    (holdStartAfter standStill
                       [(JUMP, tracking, 0); (IDLE, tracking, 1000)] None) 2500)) <= 1.
Proof.
  assert (H : 0 < holdMs standStill) by reflexivity.
  destruct (checkPoseMatch_hold standStill H) as (_ & Holding & Interrupted & _ & Runs).
  split; [|split].
  - apply (Holding 1000 2500).
  - apply Interrupted. intros (K & _). discriminate.
  - apply (Runs [(JUMP, tracking, 0); (IDLE, tracking, 1000)] IDLE tracking 2500).
    cbn [app inTimeOrder]. unfold observedAt. cbn [snd]. repeat split; lra.
Defined.

(** ** Drift and recalibration *)

Lemma debounce_other_fields (candidate : PoseGesture) (runtime : GestureRuntime) (now : Q) :
  sameButDebounce (fst (debounce candidate runtime now)) runtime
  /\ snd (debounce candidate runtime now)
     = stableGesture (fst (debounce candidate runtime now)).
Proof.
  destruct (debounce_cases candidate runtime now)
    as [(_ & X) | [(_ & _ & X) | [(_ & _ & _ & X) | (_ & _ & _ & X)]]];
    rewrite X; unfold sameButDebounce; cbn; tauto.
Qed.

Lemma adaptBaseline_fields (sig : Q) (runtime : GestureRuntime) :
  let r := adaptBaseline sig runtime in
  stableGesture r = stableGesture runtime
  /\ pendingGesture r = pendingGesture runtime
  /\ driftFrames r = driftFrames runtime
  /\ recalibrating r = recalibrating runtime
  /\ calibrationBuffer r = calibrationBuffer runtime
  /\ missingFrames r = missingFrames runtime
  /\ lastSignal r = lastSignal runtime.
Proof.
  unfold adaptBaseline. cbv zeta. repeat (break_if; cbn); tauto.
Qed.

(** The adaptation reads the baseline, the stable gesture and the idle
    counter only. *)
Lemma adaptBaseline_entry (sig now : Q) (last : option Q) (tr : TrackingTier) (missing : nat)
    (runtime : GestureRuntime) :
  let entry := set_lastSignal last
                 (set_trackingTier tr (set_missingFrames missing (set_lastDetectAt now runtime))) in
  baseline (adaptBaseline sig entry) = baseline (adaptBaseline sig runtime)
  /\ idleFrames (adaptBaseline sig entry) = idleFrames (adaptBaseline sig runtime).
Proof.
  unfold adaptBaseline. cbv zeta. cbn. repeat (break_if; cbn); split; reflexivity.
Qed.

(** The three ways through the drift check. *)
Lemma driftCheck_cases (sig : Q) (runtime : GestureRuntime) :
  let test := gesture_eqb (stableGesture runtime) IDLE
              && Qgtb (Qabs (sig - toNumber (baseline runtime)))
                      RECALIBRATION_DRIFT_THRESHOLD in
  (test = false /\ driftCheck sig runtime = (set_driftFrames 0 runtime, false))
  \/ (test = true /\ (S (driftFrames runtime) < CALIBRATION_FRAMES)%nat
      /\ driftCheck sig runtime
         = (set_driftFrames (S (driftFrames runtime)) runtime, false))
  \/ (test = true /\ (CALIBRATION_FRAMES <= S (driftFrames runtime))%nat
      /\ driftCheck sig runtime
         = (set_driftFrames 0
              (set_calibrationBuffer [sig]
                 (set_recalibrating true
                    (set_driftFrames (S (driftFrames runtime)) runtime))), true)).
Proof.
  cbv zeta. unfold driftCheck.
  destruct (gesture_eqb (stableGesture runtime) IDLE && Qgtb _ _).
  - right. cbn [driftFrames set_driftFrames].
    destruct (Nat.leb_spec CALIBRATION_FRAMES (S (driftFrames runtime))).
    + right. tauto.
    + left. tauto.
  - left. tauto.
Qed.

(** A frame with a signal on a calibrated runtime. *)
Lemma tracking_frame (detection : Detection) (now sig : Q)
    (runtime : GestureRuntime) (current : UsePoseGestureState) :
  signalOf detection = Some sig ->
  baseline runtime <> None ->
  recalibrating runtime = false ->
  let after := processFrame detection now (runtime, current) in
  baseline (fst after) = baseline (adaptBaseline sig runtime)
  /\ baseline (fst after) <> None
  /\ idleFrames (fst after) = idleFrames (adaptBaseline sig runtime)
  /\ lastSignal (fst after) = Some sig
  /\ (driftTest sig runtime = false ->
      driftFrames (fst after) = 0%nat
      /\ recalibrating (fst after) = false
      /\ calibrationBuffer (fst after) = calibrationBuffer runtime
      /\ status (snd after) = tracking
      /\ gesture (snd after) = stableGesture (fst after))
  /\ (driftTest sig runtime = true ->
      (S (driftFrames runtime) < CALIBRATION_FRAMES)%nat ->
      driftFrames (fst after) = S (driftFrames runtime)
      /\ recalibrating (fst after) = false
      /\ calibrationBuffer (fst after) = calibrationBuffer runtime
      /\ status (snd after) = tracking
      /\ gesture (snd after) = stableGesture (fst after))
  /\ (driftTest sig runtime = true ->
      (CALIBRATION_FRAMES <= S (driftFrames runtime))%nat ->
      driftFrames (fst after) = 0%nat
      /\ recalibrating (fst after) = true
      /\ calibrationBuffer (fst after) = [sig]
      /\ stableGesture (fst after) = stableGesture runtime
      /\ status (snd after) = calibrating
      /\ gesture (snd after) = IDLE).
Proof.
  intros Sd B R. destruct (signalOf_inv detection sig Sd) as (l & tr & -> & Few & T & <-).
  cbv zeta. unfold processFrame. rewrite Few.
  set (entered := set_lastDetectAt now runtime).
  destruct (trackLandmarks_publishes l now entered current) as (Er & Ep). rewrite Er.
  pose proof (estimateGesture_records_tier l entered now) as K. cbv zeta in K.
  rewrite T in K. destruct K as (_ & _ & Km). specialize (Ep Km).
  destruct Ep as (Eg & Es). rewrite Eg, Es. clear Er Eg Es.
  pose proof (estimateGesture_fields l entered now) as F.
  pose proof (analyse_tracking l entered tr T B R) as A. cbv zeta in A.
  set (entry := set_lastSignal _ _) in A.
  assert (Eb : baseline (adaptBaseline (signal tr) entry)
               = baseline (adaptBaseline (signal tr) runtime)
               /\ idleFrames (adaptBaseline (signal tr) entry)
                  = idleFrames (adaptBaseline (signal tr) runtime)).
  { unfold adaptBaseline, entry, entered. fields. repeat (break_inner; fields); tauto. }
  destruct Eb as (Eb & Ei).
  pose proof (adaptBaseline_fields (signal tr) entry) as G. cbv zeta in G.
  destruct G as (Gs & _ & Gd & Gr & Gc & _ & Gl).
  pose proof (adaptBaseline_baseline (signal tr) runtime B) as Ba.
  pose proof (driftCheck_cases (signal tr) (adaptBaseline (signal tr) entry)) as D.
  cbv zeta in D. rewrite Gs, Eb, Gd in D.
  change (stableGesture entry) with (stableGesture runtime) in D.
  change (driftFrames entry) with (driftFrames runtime) in D.
  fold (driftTest (signal tr) runtime) in D.
  destruct (baseline (adaptBaseline (signal tr) runtime)) as [b|] eqn:Eq; [|congruence].
  destruct D as [(Dt & D) | [(Dt & Dl & D) | (Dt & Dl & D)]];
    rewrite D in A; cbn [fst snd] in A; rewrite A in F; rewrite Dt;
    destruct F as (F & _); rewrite F; clear F A D.
  1, 2: match goal with |- context [debounce ?c ?m ?t] =>
          destruct (debounce_other_fields c m t)
            as ((X1 & X2 & _ & _ & X5 & X6 & X7 & X8 & _) & Y);
          destruct (debounce c m t) as [r g]
        end;
        fields; rewrite ?X1, ?X2, ?X5, ?X6, ?X7, ?X8, ?Eb, ?Ei, ?Gr, ?Gc, ?Gl.
  3: cbn [analysisRuntime]; fields; rewrite ?Eb, ?Ei, ?Gs, ?Gl.
  all: subst entry entered; fields; rewrite ?R.
  all: cbn [isNull negb andb].
  all: repeat apply conj; try reflexivity; try discriminate.
  all: try (intros; discriminate); try (intros; lia).
  all: intros; repeat apply conj; try reflexivity; try exact Y.
Qed.

Lemma allDrifting_app (first second : list (Detection * Q))
    (world : GestureRuntime * UsePoseGestureState) :
  allDrifting (first ++ second) world
  = allDrifting first world && allDrifting second (processFrames first world).
Proof.
  revert world. induction first as [|[d t] first IH]; intro world; cbn [app allDrifting processFrames].
  - reflexivity.
  - rewrite IH, andb_assoc. reflexivity.
Qed.

Lemma drifting_inv (detection : Detection) (runtime : GestureRuntime) :
  drifting detection runtime = true ->
  exists sig,
    signalOf detection = Some sig
    /\ baseline runtime <> None
    /\ recalibrating runtime = false
    /\ driftTest sig runtime = true.
Proof.
  unfold drifting. destruct (signalOf detection) as [sig|]; [|discriminate].
  intro H. apply andb_true_iff in H. destruct H as (H & D).
  apply andb_true_iff in H. destruct H as (B & R).
  exists sig. repeat apply conj; try reflexivity; try assumption.
  - destruct (baseline runtime); [discriminate | discriminate B].
  - destruct (recalibrating runtime); [discriminate R | reflexivity].
Qed.

(** Drifting frames below the count only count. *)
Lemma drifting_run (frames : list (Detection * Q)) :
  forall world,
    baseline (fst world) <> None ->
    recalibrating (fst world) = false ->
    allDrifting frames world = true ->
    (driftFrames (fst world) + length frames < CALIBRATION_FRAMES)%nat ->
    let after := processFrames frames world in
    driftFrames (fst after) = (driftFrames (fst world) + length frames)%nat
    /\ baseline (fst after) <> None
    /\ recalibrating (fst after) = false.
Proof.
  induction frames as [|[d t] frames IH]; intros [runtime current] B R A L; cbv zeta.
  - cbn. repeat apply conj; [lia | exact B | exact R].
  - cbn [allDrifting] in A. apply andb_true_iff in A. destruct A as (Ad & Af).
    cbn [fst snd length] in *.
    destruct (drifting_inv d runtime Ad) as (sig & Sd & _ & _ & Dt).
    destruct (tracking_frame d t sig runtime current Sd B R) as (_ & B1 & _ & _ & _ & Lo & _).
    destruct (Lo Dt) as (D1 & R1 & _); [lia|].
    cbn [processFrames].
    destruct (IH (processFrame d t (runtime, current)) B1 R1 Af) as (D2 & B2 & R2); [lia|].
    repeat apply conj; [lia | exact B2 | exact R2].
Qed.

(** A calibrated frame that cannot reach the drift count is classified. *)
Lemma tracking_candidate (landmarks : list NormalizedLandmark) (runtime : GestureRuntime)
    (tierResult : TierResult) :
  computeTierSignal landmarks = Some tierResult ->
  baseline runtime <> None ->
  recalibrating runtime = false ->
  (S (driftFrames runtime) < CALIBRATION_FRAMES)%nat ->
  rawCandidate landmarks runtime <> None.
Proof.
  intros T B R L. unfold rawCandidate.
  rewrite (analyse_tracking landmarks runtime tierResult T B R).
  set (entry := set_lastSignal _ _).
  pose proof (adaptBaseline_fields (signal tierResult) entry) as G. cbv zeta in G.
  destruct G as (_ & _ & Gd & _).
  destruct (driftCheck_cases (signal tierResult) (adaptBaseline (signal tierResult) entry))
    as [(_ & D) | [(_ & _ & D) | (_ & K & _)]]; try (rewrite D; discriminate).
  rewrite Gd in K. cbn in K. lia.
Qed.

(** C5 as amended: fifteen consecutive drifting frames enter recalibration on the
    fifteenth, with the buffer reseeded to its sample; recalibration
    completes on the ninth further sample (the triggering sample is the
    first of the ten); the baseline is then the mean of the ten (ten times
    the baseline is their sum), the buffer is empty and the drift count is
    zero, so that every next frame with a signal is classified again. *)
Theorem drift_recalibration :
  (forall front last world,
     baseline (fst world) <> None ->
     recalibrating (fst world) = false ->
     allDrifting (front ++ [last]) world = true ->
     (driftFrames (fst world) + length front + 1 = 15)%nat ->
     let before := processFrames front world in
     let after := processFrames (front ++ [last]) world in
     recalibrating (fst before) = false
     /\ recalibrating (fst after) = true
     /\ (exists sig,
           signalOf (fst last) = Some sig /\ calibrationBuffer (fst after) = [sig])
     /\ baseline (fst after) <> None
     /\ status (snd after) = calibrating
     /\ gesture (snd after) = IDLE)
  /\ recalibrationCompletesAfter 9
  /\ (forall frames seed runtime current,
        recalibrating runtime = true ->
        baseline runtime <> None ->
        calibrationBuffer runtime = [seed] ->
        Forall hasSignal frames ->
        length frames = 9%nat ->
        let after := processFrames frames (runtime, current) in
        (exists b,
           baseline (fst after) = Some b
           /\ b * 10 == sumQ (seed :: signalsOf frames))
        /\ recalibrating (fst after) = false
        /\ calibrationBuffer (fst after) = []
        /\ driftFrames (fst after) = 0%nat
        /\ status (snd after) = tracking
        /\ (forall landmarks tierResult,
              computeTierSignal landmarks = Some tierResult ->
              rawCandidate landmarks (fst after) <> None))
  /\ (forall landmarks tierResult runtime,
        computeTierSignal landmarks = Some tierResult ->
        baseline runtime <> None ->
        recalibrating runtime = false ->
        driftFrames runtime = 0%nat ->
        rawCandidate landmarks runtime <> None).
Proof.
  assert (Resumes : forall landmarks tierResult runtime,
             computeTierSignal landmarks = Some tierResult ->
             baseline runtime <> None ->
             recalibrating runtime = false ->
             driftFrames runtime = 0%nat ->
             rawCandidate landmarks runtime <> None).
  { intros landmarks tierResult runtime T B R D.
    apply (tracking_candidate landmarks runtime tierResult T B R).
    rewrite D. unfold CALIBRATION_FRAMES. lia. }
  split; [|split; [|split; [|exact Resumes]]].
  - intros front [d t] world B R A L. cbv zeta.
    rewrite allDrifting_app in A. apply andb_true_iff in A. destruct A as (Af & Al).
    cbn [allDrifting] in Al. rewrite andb_true_r in Al.
    destruct (drifting_run front world B R Af) as (D1 & B1 & R1);
      [unfold CALIBRATION_FRAMES; lia|].
    rewrite processFrames_app. cbn [processFrames].
    destruct (processFrames front world) as [runtime1 current1]. cbn [fst snd] in *.
    destruct (drifting_inv d runtime1 Al) as (sig & Sd & _ & _ & Dt).
    destruct (tracking_frame d t sig runtime1 current1 Sd B1 R1)
      as (_ & B2 & _ & _ & _ & _ & Hi).
    destruct (Hi Dt) as (_ & R2 & C2 & _ & S2 & G2); [unfold CALIBRATION_FRAMES; lia|].
    repeat apply conj; try assumption.
    exists sig. split; assumption.
  - intros frames seed runtime current R B E F L.
    assert (C : isNull (baseline runtime) || recalibrating runtime = true)
      by (rewrite R; apply orb_true_r).
    split.
    + intros k K. cbv zeta.
      destruct (calibrating_run (firstn k frames) runtime current C) as (B1 & R1 & _).
      * apply Forall_prefix. exact F.
      * rewrite E, length_firstn. unfold neededFrames, RECALIBRATION_FRAMES. rewrite R.
        cbn [length]. lia.
      * split; congruence.
    + cbv zeta.
      destruct (exists_last (l := frames)) as (front & last & ->).
      { intro Z. rewrite Z in L. discriminate. }
      rewrite length_app in L. cbn [length] in L.
      destruct (calibration_completes front last runtime current C F)
        as (B1 & R1 & _ & _ & _ & _ & _ & S1).
      { unfold neededFrames, RECALIBRATION_FRAMES. rewrite R, E. cbn [length]. lia. }
      rewrite E in B1. cbn [app] in B1. repeat apply conj; assumption.
  - intros frames seed runtime current R B E F L.
    assert (C : isNull (baseline runtime) || recalibrating runtime = true)
      by (rewrite R; apply orb_true_r).
    cbv zeta.
    destruct (exists_last (l := frames)) as (front & last & ->).
    { intro Z. rewrite Z in L. discriminate. }
    pose proof (signalsOf_length _ F) as Ls. rewrite L in Ls.
    rewrite length_app in L. cbn [length] in L.
    destruct (calibration_completes front last runtime current C F)
      as (B1 & R1 & C1 & D1 & _ & _ & _ & S1).
    { unfold neededFrames, RECALIBRATION_FRAMES. rewrite R, E. cbn [length]. lia. }
    rewrite E in B1. cbn [app] in B1.
    split; [|repeat apply conj; try assumption].
    + eexists. split; [exact B1|].
      assert (N : seed :: signalsOf (front ++ [last]) <> []) by discriminate.
      pose proof (mean_sum _ N) as M. cbn [length] in M. rewrite Ls in M. exact M.
    + intros landmarks tierResult T.
      apply (Resumes landmarks tierResult _ T); [rewrite B1; discriminate | exact R1 | exact D1].
Qed.

Lemma drift_recalibration_witness :
  let start := (trackingRuntime 0.5 None, INITIAL_STATE) in
  let after := processFrames swingingFrames start in
  (recalibrating (fst (processFrames (firstn 14 swingingFrames) start)) = false
   /\ recalibrating (fst after) = true
   /\ (exists sig,
         signalOf (fst (frameAt 0 510)) = Some sig /\ calibrationBuffer (fst after) = [sig])
   /\ baseline (fst after) <> None
   /\ status (snd after) = calibrating
   /\ gesture (snd after) = IDLE)
  /\ rawCandidate (poseAt 0.5)
       (fst (processFrames (steadyFrames 9 1 34) (recalibratingRuntime 0.5 1, INITIAL_STATE)))
     <> None.
Proof.
  destruct drift_recalibration as (Enters & _ & Completes & _). split.
  - refine (Enters (firstn 14 swingingFrames) (frameAt 0 510)
              (trackingRuntime 0.5 None, INITIAL_STATE) _ eq_refl _ eq_refl).
    + discriminate.
    + vm_compute. reflexivity.
  - destruct (Completes (steadyFrames 9 1 34) 1 (recalibratingRuntime 0.5 1) INITIAL_STATE)
      as (_ & _ & _ & _ & _ & Next).
    + reflexivity.
    + discriminate.
    + reflexivity.
    + repeat constructor; unfold hasSignal; vm_compute; discriminate.
    + reflexivity.
    + destruct (computeTierSignal (poseAt 0.5)) as [tierResult|] eqn:T.
      * exact (Next (poseAt 0.5) tierResult T).
      * vm_compute in T. discriminate T.
Defined.

(** C5 as stated fails: recalibration does not take 10 further samples.
    After the trigger on the sample 1, nine further samples complete it,
    and the runtime no longer recalibrates when the tenth arrives. *)
Lemma recalibration_done_before_tenth : ~ recalibrationCompletesAfter 10.
Proof.
  intro H.
  destruct (H (steadyFrames 10 1 34) 1 (recalibratingRuntime 0.5 1) INITIAL_STATE)
    as (During & _).
  - reflexivity.
  - discriminate.
  - reflexivity.
  - repeat constructor; unfold hasSignal; vm_compute; discriminate.
  - reflexivity.
  - destruct (During 9%nat) as (R & _); [lia|].
    vm_compute in R. discriminate.
Qed.

(** ** Tier extraction against the specification *)

Lemma fold_left_y_acc (points : list NormalizedLandmark) (acc : Q) :
  fold_left (fun sum point => sum + y point) points acc == acc + sumQ (map y points).
Proof.
  revert acc. induction points as [|p points IH]; intro acc; simpl.
  - ring.
  - rewrite IH. ring.
Qed.

Lemma meanY_specMean (points : list NormalizedLandmark) :
  meanY points == specMean (map y points).
Proof.
  unfold meanY, specMean, ofNat. rewrite fold_left_y_acc, length_map.
  apply Qdiv_comp; [ring | reflexivity].
Qed.

Lemma filterUsable_spec (landmarks : list NormalizedLandmark) :
  filterUsable [nth_error landmarks 0; nth_error landmarks 7; nth_error landmarks 8]
  = specHeadPoints landmarks.
Proof.
  unfold specHeadPoints.
  generalize (nth_error landmarks 0) (nth_error landmarks 7) (nth_error landmarks 8).
  intros a b c.
  destruct a as [a|], b as [b|], c as [c|]; cbn [filterUsable flat_map usable specUsable app];
    change (Qle_bool 0.18 ?v) with (Qgeb v MIN_VISIBILITY);
    repeat match goal with
      | |- context [Qgeb ?v ?u] => destruct (Qgeb v u)
      end; reflexivity.
Qed.

Lemma computeTierSignal_refines (landmarks : list NormalizedLandmark) :
  sameTier (computeTierSignal landmarks) (specTier landmarks).
Proof.
  unfold computeTierSignal, specTier, specShoulders.
  rewrite filterUsable_spec.
  set (head := specHeadPoints landmarks).
  destruct (nth_error landmarks 11) as [l|], (nth_error landmarks 12) as [r|].
  all: cbn [usable specUsable andb].
  all: change (Qle_bool 0.18 ?v) with (Qgeb v MIN_VISIBILITY).
  all: repeat match goal with |- context [Qgeb ?v MIN_VISIBILITY] => destruct (Qgeb v MIN_VISIBILITY) end.
  all: cbn [andb].
  all: destruct head as [|h1 [|h2 rest]]; cbn [length Nat.ltb Nat.leb sameTier tier signal thresholdMultiplier].
  all: try exact I.
  all: repeat split; try reflexivity.
  all: try (rewrite meanY_specMean).
  all: try (rewrite (Q.max_comm 0.09)); try (rewrite (Q.max_comm 0.06)).
  all: try (apply Qdiv_comp; [ring | reflexivity]).
  all: try reflexivity.
Qed.


(** C3: tier extraction returns, in priority order, tier 1, tier 2, tier 3
    or nothing, with the signal and the multiplier that the specification
    gives for each tier; and the tier and the signal that a frame records
    in the runtime are those of its landmark set, whatever the runtime that
    earlier frames have left. *)
Theorem computeTierSignal_spec (landmarks : list NormalizedLandmark) :
  sameTier (computeTierSignal landmarks) (specTier landmarks)
  /\ (forall runtime now,
        let after := fst (estimateGesture landmarks runtime now) in
        match computeTierSignal landmarks with
        | Some tierResult =>
            trackingTier after = tier tierResult
            /\ lastSignal after = Some (signal tierResult)
        | None => lastSignal after = None
        end).
Proof.
  split.
  - apply computeTierSignal_refines.
  - intros runtime now.
    pose proof (estimateGesture_records_tier landmarks runtime now) as H. cbv zeta in *.
    destruct (computeTierSignal landmarks); tauto.
Qed.

(** ** Frames on a calibrated runtime *)

Lemma classify_baseline (sig riseVelocity multiplier : Q) (a b : GestureRuntime) :
  baseline a = baseline b ->
  classify sig riseVelocity multiplier a = classify sig riseVelocity multiplier b.
Proof. intro E. unfold classify. rewrite E. reflexivity. Qed.

(** The candidate of a calibrated frame that does not enter
    recalibration: the classifier on the adapted baseline. *)
Lemma rawCandidate_tracking (landmarks : list NormalizedLandmark) (runtime : GestureRuntime)
    (tierResult : TierResult) :
  computeTierSignal landmarks = Some tierResult ->
  baseline runtime <> None ->
  recalibrating runtime = false ->
  driftTest (signal tierResult) runtime = false
  \/ (S (driftFrames runtime) < CALIBRATION_FRAMES)%nat ->
  rawCandidate landmarks runtime
  = Some (classify (signal tierResult)
            match lastSignal runtime with
            | Some previousSignal => previousSignal - signal tierResult
            | None => 0
            end
            (thresholdMultiplier tierResult)
            (adaptBaseline (signal tierResult) runtime)).
Proof.
  intros T B R D. unfold rawCandidate.
  rewrite (analyse_tracking landmarks runtime tierResult T B R).
  set (entry := set_lastSignal _ _).
  assert (Eb : baseline (adaptBaseline (signal tierResult) entry)
               = baseline (adaptBaseline (signal tierResult) runtime)).
  { unfold adaptBaseline, entry. cbn. repeat (break_if; cbn); reflexivity. }
  pose proof (adaptBaseline_fields (signal tierResult) entry) as G. cbv zeta in G.
  destruct G as (Gs & _ & Gd & _).
  pose proof (driftCheck_fields (signal tierResult) (adaptBaseline (signal tierResult) entry)) as F.
  cbv zeta in F. destruct F as (Fb & _).
  pose proof (driftCheck_cases (signal tierResult) (adaptBaseline (signal tierResult) entry)) as C.
  cbv zeta in C. rewrite Gs, Eb, Gd in C.
  change (stableGesture entry) with (stableGesture runtime) in C.
  change (driftFrames entry) with (driftFrames runtime) in C.
  fold (driftTest (signal tierResult) runtime) in C.
  destruct C as [(_ & C) | [(_ & _ & C) | (Ct & Cl & _)]].
  - rewrite C in *. cbn [fst snd] in *. f_equal. apply classify_baseline.
    rewrite Fb. exact Eb.
  - rewrite C in *. cbn [fst snd] in *. f_equal. apply classify_baseline.
    rewrite Fb. exact Eb.
  - destruct D as [D | D]; [congruence | lia].
Qed.

(** The debouncer's fields after a frame with landmarks, by the frame's
    candidate. *)
Lemma processFrame_debounce (landmarks : list NormalizedLandmark) (now : Q)
    (runtime : GestureRuntime) (current : UsePoseGestureState) (candidate : PoseGesture) :
  tooFew (Some landmarks) = false ->
  rawCandidate landmarks runtime = Some candidate ->
  let after := fst (processFrame (Detected (Some landmarks)) now (runtime, current)) in
  (candidate = stableGesture runtime ->
   stableGesture after = stableGesture runtime /\ pendingGesture after = None)
  /\ (candidate <> stableGesture runtime ->
      pendingGesture runtime <> Some candidate ->
      stableGesture after = stableGesture runtime
      /\ pendingGesture after = Some candidate
      /\ pendingSince after = now)
  /\ (candidate <> stableGesture runtime ->
      pendingGesture runtime = Some candidate ->
      DEBOUNCE_MS <= now - pendingSince runtime ->
      stableGesture after = candidate /\ pendingGesture after = None)
  /\ (candidate <> stableGesture runtime ->
      pendingGesture runtime = Some candidate ->
      now - pendingSince runtime < DEBOUNCE_MS ->
      stableGesture after = stableGesture runtime
      /\ pendingGesture after = Some candidate
      /\ pendingSince after = pendingSince runtime).
Proof.
  intros Few C. cbv zeta.
  rewrite (processFrame_runtime landmarks now (runtime, current) Few). cbn [fst].
  rewrite <- (rawCandidate_lastDetectAt landmarks runtime now) in C.
  pose proof (estimateGesture_fields landmarks (set_lastDetectAt now runtime) now) as F.
  unfold rawCandidate in C.
  destruct (analyse landmarks (set_lastDetectAt now runtime)) as [r|r|r|mid c];
    try discriminate.
  injection C as ->. destruct F as (E & Fs & Fp & Ft). rewrite E.
  cbn [stableGesture pendingGesture pendingSince set_lastDetectAt] in Fs, Fp, Ft.
  rewrite <- Fs, <- Fp, <- Ft.
  destruct (debounce_cases candidate mid now)
    as [(C & D) | [(C & P & D) | [(C & P & T & D) | (C & P & T & D)]]];
    rewrite D; cbn [fst stableGesture pendingGesture pendingSince
                    set_pendingGesture set_pendingSince set_stableGesture].
  - split; [tauto | split; [|split]]; intro K; contradiction.
  - split; [intro K; contradiction | split; [tauto | split]]; intros _ K; contradiction.
  - split; [intro K; contradiction | split; [intros _ K; contradiction | split]].
    + tauto.
    + intros _ _ K. lra.
  - split; [intro K; contradiction | split; [intros _ K; contradiction | split]].
    + intros _ _ K. lra.
    + tauto.
Qed.

Lemma computeTierSignal_multiplier (landmarks : list NormalizedLandmark)
    (tierResult : TierResult) :
  computeTierSignal landmarks = Some tierResult ->
  thresholdMultiplier tierResult
  = match tier tierResult with
    | Tier1 => 1.0
    | Tier2 => 1.2
    | Tier3 => 0.85
    end.
Proof.
  unfold computeTierSignal. cbv zeta.
  repeat break_inner; intro H; try discriminate; injection H as <-; reflexivity.
Qed.

Lemma adaptBaseline_idle (sig b : Q) (runtime : GestureRuntime) :
  stableGesture runtime = IDLE ->
  (idleFrames runtime < IDLE_ACCELERATION_FRAMES)%nat ->
  baseline runtime = Some b ->
  baseline (adaptBaseline sig runtime)
  = Some (b * BASELINE_SMOOTHING + sig * (1 - BASELINE_SMOOTHING))
  /\ idleFrames (adaptBaseline sig runtime) = S (idleFrames runtime).
Proof.
  intros St I B. unfold adaptBaseline. rewrite St.
  destruct (PoseGesture_eq_dec IDLE IDLE) as [_|N]; [|congruence].
  cbv zeta. fields.
  destruct (Nat.ltb_spec IDLE_ACCELERATION_FRAMES (S (idleFrames runtime))); [lia|].
  fields. rewrite B. split; reflexivity.
Qed.

Lemma adaptBaseline_active (sig : Q) (runtime : GestureRuntime) :
  stableGesture runtime <> IDLE ->
  baseline (adaptBaseline sig runtime) = baseline runtime
  /\ idleFrames (adaptBaseline sig runtime) = 0%nat.
Proof.
  intro St. unfold adaptBaseline.
  destruct (PoseGesture_eq_dec (stableGesture runtime) IDLE); [contradiction|].
  split; reflexivity.
Qed.

Lemma driftTest_active (sig : Q) (runtime : GestureRuntime) :
  stableGesture runtime <> IDLE -> driftTest sig runtime = false.
Proof.
  intro St. unfold driftTest, gesture_eqb.
  destruct (PoseGesture_eq_dec (stableGesture runtime) IDLE); [contradiction | reflexivity].
Qed.

Lemma driftTest_near (sig b : Q) (runtime : GestureRuntime) :
  baseline (adaptBaseline sig runtime) = Some b ->
  - RECALIBRATION_DRIFT_THRESHOLD <= sig - b <= RECALIBRATION_DRIFT_THRESHOLD ->
  driftTest sig runtime = false.
Proof.
  intros B H. unfold driftTest. rewrite B. cbn [toNumber].
  apply andb_false_iff. right. apply Qgtb_false. apply Qabs_Qle_condition. exact H.
Qed.

(** A frame with landmarks on a calibrated runtime, away from the drift
    threshold, whose candidate is [candidate]. *)
Lemma tracked_frame (landmarks : list NormalizedLandmark) (tierResult : TierResult)
    (now : Q) (runtime : GestureRuntime) (current : UsePoseGestureState)
    (candidate : PoseGesture) :
  tooFew (Some landmarks) = false ->
  computeTierSignal landmarks = Some tierResult ->
  baseline runtime <> None ->
  recalibrating runtime = false ->
  driftTest (signal tierResult) runtime = false ->
  classify (signal tierResult)
    match lastSignal runtime with
    | Some previousSignal => previousSignal - signal tierResult
    | None => 0
    end
    (thresholdMultiplier tierResult) (adaptBaseline (signal tierResult) runtime)
  = candidate ->
  let after := processFrame (Detected (Some landmarks)) now (runtime, current) in
  (baseline (fst after) = baseline (adaptBaseline (signal tierResult) runtime)
   /\ idleFrames (fst after) = idleFrames (adaptBaseline (signal tierResult) runtime)
   /\ recalibrating (fst after) = false
   /\ gesture (snd after) = stableGesture (fst after)
   /\ lastSignal (fst after) = Some (signal tierResult))
  /\ (candidate = stableGesture runtime ->
      stableGesture (fst after) = stableGesture runtime /\ pendingGesture (fst after) = None)
  /\ (candidate <> stableGesture runtime ->
      pendingGesture runtime <> Some candidate ->
      stableGesture (fst after) = stableGesture runtime
      /\ pendingGesture (fst after) = Some candidate
      /\ pendingSince (fst after) = now)
  /\ (candidate <> stableGesture runtime ->
      pendingGesture runtime = Some candidate ->
      DEBOUNCE_MS <= now - pendingSince runtime ->
      stableGesture (fst after) = candidate /\ pendingGesture (fst after) = None)
  /\ (candidate <> stableGesture runtime ->
      pendingGesture runtime = Some candidate ->
      now - pendingSince runtime < DEBOUNCE_MS ->
      stableGesture (fst after) = stableGesture runtime
      /\ pendingGesture (fst after) = Some candidate
      /\ pendingSince (fst after) = pendingSince runtime).
Proof.
  intros Few T B R D C. cbv zeta.
  assert (Sd : signalOf (Detected (Some landmarks)) = Some (signal tierResult)).
  { cbn [signalOf]. rewrite Few, T. reflexivity. }
  destruct (tracking_frame _ now _ runtime current Sd B R) as (B1 & _ & I1 & L1 & Lo & _).
  destruct (Lo D) as (_ & R1 & _ & _ & G1).
  split; [repeat apply conj; assumption|].
  apply processFrame_debounce; [exact Few|].
  rewrite (rawCandidate_tracking landmarks runtime tierResult T B R (or_introl D)).
  rewrite C. reflexivity.
Qed.

Lemma classify_jump (sig riseVelocity multiplier b : Q) (runtime : GestureRuntime) :
  baseline runtime = Some b ->
  0.10 * multiplier < b - sig ->
  classify sig riseVelocity multiplier runtime = JUMP.
Proof.
  intros B H. pose proof (classify_spec sig riseVelocity multiplier runtime) as C.
  cbv zeta in C. rewrite B in C. cbn [toNumber] in C.
  apply C. left. exact H.
Qed.

Lemma classify_idle (sig riseVelocity multiplier b : Q) (runtime : GestureRuntime) :
  baseline runtime = Some b ->
  b - sig <= 0.10 * multiplier ->
  b - sig <= 0.065 * multiplier \/ riseVelocity <= 0.010 * multiplier ->
  sig - b <= 0.09 * multiplier ->
  classify sig riseVelocity multiplier runtime = IDLE.
Proof.
  intros B J Q D. pose proof (classify_spec sig riseVelocity multiplier runtime) as C.
  cbv zeta in C. rewrite B in C. cbn [toNumber] in C.
  apply C. split.
  - intros [K | [K1 K2]]; [lra | destruct Q; lra].
  - intro K. lra.
Qed.

(** An idle frame whose signal is more than the jump threshold under the
    adapted baseline. *)
Lemma idle_jump_frame (frame : Detection * Q) (runtime : GestureRuntime)
    (current : UsePoseGestureState) (b lo hi : Q) :
  reportsTier1 lo hi frame ->
  baseline runtime = Some b ->
  recalibrating runtime = false ->
  stableGesture runtime = IDLE ->
  (idleFrames runtime < 60)%nat ->
  0.10 < 0.85 * (b - hi) ->
  0.85 * (b - lo) <= 0.35 ->
  let after := processFrame (fst frame) (snd frame) (runtime, current) in
  (exists sig,
     lo <= sig <= hi
     /\ baseline (fst after) = Some (b * BASELINE_SMOOTHING + sig * (1 - BASELINE_SMOOTHING)))
  /\ idleFrames (fst after) = S (idleFrames runtime)
  /\ recalibrating (fst after) = false
  /\ gesture (snd after) = stableGesture (fst after)
  /\ (pendingGesture runtime <> Some JUMP ->
      stableGesture (fst after) = IDLE
      /\ pendingGesture (fst after) = Some JUMP
      /\ pendingSince (fst after) = snd frame)
  /\ (pendingGesture runtime = Some JUMP ->
      DEBOUNCE_MS <= snd frame - pendingSince runtime ->
      stableGesture (fst after) = JUMP /\ pendingGesture (fst after) = None)
  /\ (pendingGesture runtime = Some JUMP ->
      snd frame - pendingSince runtime < DEBOUNCE_MS ->
      stableGesture (fst after) = IDLE
      /\ pendingGesture (fst after) = Some JUMP
      /\ pendingSince (fst after) = pendingSince runtime).
Proof.
  intros (l & tr & Ef & Few & T & Ti & Lo & Hi) B R St I J D. cbv zeta. rewrite Ef.
  destruct (adaptBaseline_idle (signal tr) b runtime St I B) as (Ba & Ia).
  pose proof (computeTierSignal_multiplier l tr T) as M. rewrite Ti in M.
  assert (Bn : baseline runtime <> None) by congruence.
  assert (Dt : driftTest (signal tr) runtime = false).
  { apply (driftTest_near _ _ _ Ba).
    unfold BASELINE_SMOOTHING, RECALIBRATION_DRIFT_THRESHOLD. lra. }
  assert (C : classify (signal tr)
                match lastSignal runtime with
                | Some previousSignal => previousSignal - signal tr
                | None => 0
                end (thresholdMultiplier tr) (adaptBaseline (signal tr) runtime) = JUMP).
  { apply (classify_jump _ _ _ _ _ Ba). rewrite M. unfold BASELINE_SMOOTHING. lra. }
  destruct (tracked_frame l tr (snd frame) runtime current JUMP Few T Bn R Dt C)
    as ((B1 & I1 & R1 & G1 & _) & _ & New & Commit & Hold).
  assert (N : JUMP <> stableGesture runtime) by (rewrite St; discriminate).
  rewrite St in *.
  split; [exists (signal tr); split; [tauto | congruence] |].
  repeat apply conj; try congruence.
  - intro P. apply New; assumption.
  - intros P K. apply Commit; assumption.
  - intros P K. apply Hold; assumption.
Qed.

(** A frame on a runtime that holds a gesture: the baseline stays. *)
Lemma active_frame (frame : Detection * Q) (runtime : GestureRuntime)
    (current : UsePoseGestureState) (b lo hi : Q) (candidate : PoseGesture) :
  reportsTier1 lo hi frame ->
  baseline runtime = Some b ->
  recalibrating runtime = false ->
  stableGesture runtime <> IDLE ->
  (forall sig riseVelocity, lo <= sig <= hi ->
     classify sig riseVelocity 1.0 runtime = candidate) ->
  let after := processFrame (fst frame) (snd frame) (runtime, current) in
  baseline (fst after) = Some b
  /\ recalibrating (fst after) = false
  /\ gesture (snd after) = stableGesture (fst after)
  /\ (candidate = stableGesture runtime ->
      stableGesture (fst after) = stableGesture runtime /\ pendingGesture (fst after) = None)
  /\ (candidate <> stableGesture runtime ->
      pendingGesture runtime <> Some candidate ->
      stableGesture (fst after) = stableGesture runtime
      /\ pendingGesture (fst after) = Some candidate
      /\ pendingSince (fst after) = snd frame)
  /\ (candidate <> stableGesture runtime ->
      pendingGesture runtime = Some candidate ->
      DEBOUNCE_MS <= snd frame - pendingSince runtime ->
      stableGesture (fst after) = candidate /\ pendingGesture (fst after) = None).
Proof.
  intros (l & tr & Ef & Few & T & Ti & Lo & Hi) B R St C. cbv zeta. rewrite Ef.
  destruct (adaptBaseline_active (signal tr) runtime St) as (Ba & _).
  pose proof (computeTierSignal_multiplier l tr T) as M. rewrite Ti in M.
  assert (Bn : baseline runtime <> None) by congruence.
  pose proof (driftTest_active (signal tr) runtime St) as Dt.
  assert (C' : classify (signal tr)
                 match lastSignal runtime with
                 | Some previousSignal => previousSignal - signal tr
                 | None => 0
                 end (thresholdMultiplier tr) (adaptBaseline (signal tr) runtime) = candidate).
  { rewrite M, (classify_baseline _ _ _ _ runtime Ba). apply C. split; assumption. }
  destruct (tracked_frame l tr (snd frame) runtime current candidate Few T Bn R Dt C')
    as ((B1 & _ & R1 & G1 & _) & Same & New & Commit & _).
  repeat apply conj; try assumption. congruence.
Qed.

(** Three frames well under the baseline, the third at least the debounce
    window after the first, bring a runtime that idles at 0.50 to JUMP. *)
Lemma jump_phase (runtime : GestureRuntime) (current : UsePoseGestureState)
    (f1 f2 f3 : Detection * Q) (b : Q) :
  baseline runtime = Some b -> b == 0.5 ->
  recalibrating runtime = false ->
  stableGesture runtime = IDLE ->
  pendingGesture runtime = None ->
  (idleFrames runtime <= 57)%nat ->
  reportsTier1 0.28 0.32 f1 -> reportsTier1 0.28 0.32 f2 -> reportsTier1 0.28 0.32 f3 ->
  DEBOUNCE_MS <= snd f3 - snd f1 ->
  gesture (snd (processFrames [f1] (runtime, current))) = IDLE
  /\ holdsJump (processFrames [f1; f2; f3] (runtime, current)).
Proof.
  intros B Eb R St P I F1 F2 F3 W.
  destruct f1 as [d1 t1], f2 as [d2 t2], f3 as [d3 t3]. cbn [processFrames fst snd] in *.
  (* first frame: JUMP becomes pending *)
  destruct (idle_jump_frame (d1, t1) runtime current b 0.28 0.32 F1 B R St)
    as ((s1 & S1 & B1) & I1 & R1 & G1 & New1 & _); try lra; try lia.
  cbn [fst snd] in *.
  destruct New1 as (St1 & P1 & T1); [rewrite P; discriminate|].
  destruct (processFrame d1 t1 (runtime, current)) as [runtime1 current1].
  cbn [fst snd] in *. unfold BASELINE_SMOOTHING in B1.
  split; [congruence|].
  (* second frame: JUMP is pending, or committed when the window is over *)
  destruct (idle_jump_frame (d2, t2) runtime1 current1 _ 0.28 0.32 F2 B1 R1 St1)
    as ((s2 & S2 & B2) & I2 & R2 & G2 & _ & Commit2 & Hold2); try lra; try lia.
  cbn [fst snd] in *. unfold BASELINE_SMOOTHING in B2.
  destruct (Qlt_le_dec (t2 - pendingSince runtime1) DEBOUNCE_MS) as [Early | Late].
  - destruct (Hold2 P1 Early) as (St2 & P2 & T2).
    destruct (processFrame d2 t2 (runtime1, current1)) as [runtime2 current2].
    cbn [fst snd] in *.
    (* third frame: the window is over *)
    destruct (idle_jump_frame (d3, t3) runtime2 current2 _ 0.28 0.32 F3 B2 R2 St2)
      as ((s3 & S3 & B3) & I3 & R3 & G3 & _ & Commit3 & _); try lra; try lia.
    cbn [fst snd] in *. unfold BASELINE_SMOOTHING in B3.
    destruct (Commit3 P2) as (St3 & P3); [rewrite T2, T1; exact W|].
    unfold holdsJump. repeat apply conj; try assumption; try congruence.
    eexists. split; [exact B3 | lra].
  - destruct (Commit2 P1 Late) as (St2 & P2).
    destruct (processFrame d2 t2 (runtime1, current1)) as [runtime2 current2].
    cbn [fst snd] in *.
    (* third frame: JUMP is held *)
    assert (N2 : stableGesture runtime2 <> IDLE) by (rewrite St2; discriminate).
    destruct (active_frame (d3, t3) runtime2 current2 _ 0.28 0.32 JUMP F3 B2 R2 N2)
      as (B3 & R3 & G3 & Same3 & _).
    { intros sig rv K. apply (classify_jump _ _ _ _ _ B2). lra. }
    cbn [fst snd] in *.
    destruct Same3 as (St3 & P3); [congruence|].
    unfold holdsJump. repeat apply conj; try assumption; try congruence.
    eexists. split; [exact B3 | lra].
Qed.

(** Back at 0.50 for the debounce window, a runtime that holds JUMP
    returns to IDLE. *)
Lemma return_phase (world : GestureRuntime * UsePoseGestureState) (f4 f5 : Detection * Q) :
  holdsJump world ->
  reportsTier1 0.5 0.5 f4 -> reportsTier1 0.5 0.5 f5 ->
  DEBOUNCE_MS <= snd f5 - snd f4 ->
  gesture (snd (processFrames [f4] world)) = JUMP
  /\ gesture (snd (processFrames [f4; f5] world)) = IDLE
  /\ stableGesture (fst (processFrames [f4; f5] world)) = IDLE.
Proof.
  destruct world as [runtime current].
  intros (St & P & R & (b & B & Bb) & G) F4 F5 W.
  destruct f4 as [d4 t4], f5 as [d5 t5]. cbn [processFrames fst snd] in *.
  assert (N : stableGesture runtime <> IDLE) by (rewrite St; discriminate).
  destruct (active_frame (d4, t4) runtime current b 0.5 0.5 IDLE F4 B R N)
    as (B4 & R4 & G4 & _ & New4 & _).
  { intros sig rv K. apply (classify_idle _ _ _ _ _ B); [lra | left; lra | lra]. }
  cbn [fst snd] in *.
  destruct New4 as (St4 & P4 & T4); [rewrite St; discriminate | rewrite P; discriminate |].
  destruct (processFrame d4 t4 (runtime, current)) as [runtime4 current4].
  cbn [fst snd] in *.
  split; [congruence|].
  assert (N4 : stableGesture runtime4 <> IDLE) by (rewrite St4, St; discriminate).
  destruct (active_frame (d5, t5) runtime4 current4 b 0.5 0.5 IDLE F5 B4 R4 N4)
    as (B5 & R5 & G5 & _ & _ & Commit5).
  { intros sig rv K. apply (classify_idle _ _ _ _ _ B4); [lra | left; lra | lra]. }
  cbn [fst snd] in *.
  destruct Commit5 as (St5 & P5); [congruence | exact P4 | rewrite T4; exact W |].
  split; congruence.
Qed.

Lemma adaptBaseline_idle_any (sig b : Q) (runtime : GestureRuntime) :
  stableGesture runtime = IDLE ->
  baseline runtime = Some b ->
  exists smoothing,
    (smoothing = IDLE_SMOOTHING \/ smoothing = BASELINE_SMOOTHING)
    /\ baseline (adaptBaseline sig runtime) = Some (b * smoothing + sig * (1 - smoothing)).
Proof.
  intros St B. unfold adaptBaseline. rewrite St.
  destruct (PoseGesture_eq_dec IDLE IDLE) as [_|N]; [|congruence].
  cbv zeta. fields. rewrite B. cbn [toNumber].
  destruct (IDLE_ACCELERATION_FRAMES <? S (idleFrames runtime))%nat; eexists; split;
    try reflexivity; tauto.
Qed.

(** One more frame at 0.38. *)
Lemma steady_038_frame (frame : Detection * Q)
    (world : GestureRuntime * UsePoseGestureState) :
  idlesAbove038 world ->
  reportsTier1 0.38 0.38 frame ->
  let after := processFrame (fst frame) (snd frame) world in
  idlesAbove038 after /\ gesture (snd after) = IDLE.
Proof.
  destruct world as [runtime current].
  intros (St & R & b & B & Lb & Inv) (l & tr & Ef & Few & T & Ti & Lo & Hi).
  cbv zeta. cbn [fst snd] in *. rewrite Ef.
  destruct (adaptBaseline_idle_any (signal tr) b runtime St B) as (a & Ea & Ba).
  pose proof (computeTierSignal_multiplier l tr T) as M. rewrite Ti in M.
  assert (Bn : baseline runtime <> None) by congruence.
  assert (Ub : b <= 0.5) by (destruct Inv as [(U & _) | (U & _)]; lra).
  assert (Ra : 0.75 <= a <= 0.85).
  { destruct Ea as [-> | ->]; unfold IDLE_SMOOTHING, BASELINE_SMOOTHING; lra. }
  assert (Dt : driftTest (signal tr) runtime = false).
  { apply (driftTest_near _ _ _ Ba). unfold RECALIBRATION_DRIFT_THRESHOLD. nra. }
  (* the adapted baseline *)
  set (b' := b * a + signal tr * (1 - a)) in *.
  assert (Lb' : 0.38 <= b') by (unfold b'; nra).
  assert (Ub' : b' - signal tr <= 0.85 * (b - 0.38)) by (unfold b'; nra).
  remember (classify (signal tr)
              match lastSignal runtime with
              | Some previousSignal => previousSignal - signal tr
              | None => 0
              end (thresholdMultiplier tr) (adaptBaseline (signal tr) runtime)) as c eqn:Ec.
  symmetry in Ec.
  destruct (tracked_frame l tr (snd frame) runtime current c Few T Bn R Dt Ec)
    as ((B1 & _ & R1 & G1 & L1) & Same & New & _).
  rewrite St in *.
  assert (After : stableGesture
                    (fst (processFrame (Detected (Some l)) (snd frame) (runtime, current)))
                  = IDLE).
  { destruct Inv as [(_ & P) | (U & _ & p & Lp & Ep)].
    - (* nothing is pending: whatever the candidate, it is not committed *)
      destruct (PoseGesture_eq_dec c IDLE) as [E|N].
      + apply Same. exact E.
      + apply New; [exact N | rewrite P; discriminate].
    - (* the signal does not move: the candidate is IDLE *)
      apply Same. rewrite <- Ec.
      apply (classify_idle _ _ _ _ _ Ba); rewrite ?M, ?Lp; [nra | right; lra | lra]. }
  split; [|congruence].
  unfold idlesAbove038. cbn [fst snd].
  split; [exact After | split; [exact R1 |]].
  exists b'. split; [congruence | split; [exact Lb' |]].
  right. split; [nra | split; [congruence |]].
  exists (signal tr). split; [exact L1 | lra].
Qed.

Lemma steady_038_run (frames : list (Detection * Q)) :
  forall world,
    idlesAbove038 world ->
    Forall (reportsTier1 0.38 0.38) frames ->
    idlesAbove038 (processFrames frames world)
    /\ (frames <> [] -> gesture (snd (processFrames frames world)) = IDLE).
Proof.
  induction frames as [|[d t] frames IH]; intros world Inv F; cbn [processFrames].
  - split; [exact Inv | congruence].
  - inversion F as [|? ? Fd Ff]; subst.
    destruct (steady_038_frame (d, t) world Inv Fd) as (Inv1 & G1). cbn [fst snd] in *.
    destruct (IH _ Inv1 Ff) as (Inv2 & G2).
    split; [exact Inv2 | intros _].
    destruct frames as [|f frames]; [exact G1 | apply G2; discriminate].
Qed.

(** C6 as amended: a runtime that idles on the baseline 0.50 under tier 1, the
    baseline still smoothed with 0.85, publishes JUMP after three frames
    whose signal lies between 0.28 and 0.32, the third at least 90 ms after
    the first; two frames back at 0.50, 90 ms apart, then return the
    published gesture to IDLE.  Frames that report 0.38 never do: the
    baseline follows the signal, and the stable and published gesture stay
    IDLE whatever their number and their times. *)
Theorem jump_and_return :
  (forall runtime current f1 f2 f3 f4 f5 b,
     baseline runtime = Some b -> b == 0.5 ->
     recalibrating runtime = false ->
     stableGesture runtime = IDLE ->
     pendingGesture runtime = None ->
     (idleFrames runtime <= 57)%nat ->
     reportsTier1 0.28 0.32 f1 -> reportsTier1 0.28 0.32 f2 -> reportsTier1 0.28 0.32 f3 ->
     DEBOUNCE_MS <= snd f3 - snd f1 ->
     reportsTier1 0.5 0.5 f4 -> reportsTier1 0.5 0.5 f5 ->
     DEBOUNCE_MS <= snd f5 - snd f4 ->
     gesture (snd (processFrames [f1; f2; f3] (runtime, current))) = JUMP
     /\ gesture (snd (processFrames [f1; f2; f3; f4] (runtime, current))) = JUMP
     /\ gesture (snd (processFrames [f1; f2; f3; f4; f5] (runtime, current))) = IDLE)
  /\ (forall runtime current frames b,
        baseline runtime = Some b -> b == 0.5 ->
        recalibrating runtime = false ->
        stableGesture runtime = IDLE ->
        pendingGesture runtime = None ->
        Forall (reportsTier1 0.38 0.38) frames ->
        stableGesture (fst (processFrames frames (runtime, current))) = IDLE
        /\ (frames <> [] -> gesture (snd (processFrames frames (runtime, current))) = IDLE)).
Proof.
  split.
  - intros runtime current f1 f2 f3 f4 f5 b B Eb R St P I F1 F2 F3 W1 F4 F5 W2.
    destruct (jump_phase runtime current f1 f2 f3 b B Eb R St P I F1 F2 F3 W1) as (_ & H).
    destruct (return_phase _ f4 f5 H F4 F5 W2) as (G4 & G5 & _).
    change [f1; f2; f3; f4] with ([f1; f2; f3] ++ [f4]).
    change [f1; f2; f3; f4; f5] with ([f1; f2; f3] ++ [f4; f5]).
    rewrite !processFrames_app.
    split; [apply H | split; assumption].
  - intros runtime current frames b B Eb R St P F.
    assert (Inv : idlesAbove038 (runtime, current)).
    { unfold idlesAbove038. cbn [fst snd].
      split; [exact St | split; [exact R |]].
      exists b. split; [exact B | split; [lra | left; split; [lra | exact P]]]. }
    destruct (steady_038_run frames (runtime, current) Inv F) as ((S1 & _) & G1).
    split; assumption.
Qed.

Ltac report_pose s :=
  exists (poseAt s); eexists;
  split; [reflexivity |
  split; [reflexivity |
  split; [vm_compute; reflexivity |
  split; [reflexivity |
  split; vm_compute; discriminate]]]].

Lemma jump_and_return_witness :
  let start := (trackingRuntime 0.5 (Some 0.5), INITIAL_STATE) in
  gesture (snd (processFrames [frameAt 0.30 50; frameAt 0.30 100; frameAt 0.30 150] start))
  = JUMP
  /\ gesture (snd (processFrames [frameAt 0.30 50; frameAt 0.30 100; frameAt 0.30 150;
                                  frameAt 0.5 200] start)) = JUMP
  /\ gesture (snd (processFrames [frameAt 0.30 50; frameAt 0.30 100; frameAt 0.30 150;
                                  frameAt 0.5 200; frameAt 0.5 300] start)) = IDLE.
Proof.
  apply (proj1 jump_and_return (trackingRuntime 0.5 (Some 0.5)) INITIAL_STATE
           (frameAt 0.30 50) (frameAt 0.30 100) (frameAt 0.30 150)
           (frameAt 0.5 200) (frameAt 0.5 300) 0.5).
  - reflexivity.
  - reflexivity.
  - reflexivity.
  - reflexivity.
  - reflexivity.
  - cbn. lia.
  - report_pose 0.30.
  - report_pose 0.30.
  - report_pose 0.30.
  - vm_compute. discriminate.
  - report_pose 0.5.
  - report_pose 0.5.
  - vm_compute. discriminate.
Defined.

(** C6 as stated fails: from the baseline 0.50, frames that report 0.38
    every 34 ms give the candidate JUMP on the first frame only (the
    baseline has moved to 0.482, then 0.4667), and the published gesture is
    IDLE after each of six frames, 170 ms after the first. *)
Lemma steady_038_stays_idle :
  let start := (trackingRuntime 0.5 (Some 0.5), INITIAL_STATE) in
  let run n := processFrames (steadyFrames n 0.38 34) start in
  rawCandidate (poseAt 0.38) (fst start) = Some JUMP
  /\ rawCandidate (poseAt 0.38) (fst (run 1%nat)) = Some IDLE
  /\ toNumber (baseline (fst (run 1%nat))) == 0.482
  /\ toNumber (baseline (fst (run 2%nat))) == 0.4667
  /\ gesture (snd (run 1%nat)) = IDLE
  /\ gesture (snd (run 2%nat)) = IDLE
  /\ gesture (snd (run 3%nat)) = IDLE
  /\ gesture (snd (run 4%nat)) = IDLE
  /\ gesture (snd (run 5%nat)) = IDLE
  /\ gesture (snd (run 6%nat)) = IDLE.
Proof. vm_compute. repeat split; reflexivity. Qed.

(** ** The debouncer over processed frames *)

Lemma candidateOf_inv (detection : Detection) (runtime : GestureRuntime)
    (candidate : PoseGesture) :
  candidateOf detection runtime = Some candidate ->
  exists landmarks,
    detection = Detected (Some landmarks)
    /\ tooFew (Some landmarks) = false
    /\ rawCandidate landmarks runtime = Some candidate.
Proof.
  destruct detection as [m|[l|]]; cbn [candidateOf]; try discriminate.
  destruct (tooFew (Some l)) eqn:Few; [discriminate|].
  intro H. exists l. tauto.
Qed.

(** A frame without a candidate leaves the debouncer's fields. *)
Lemma processFrame_no_candidate (detection : Detection) (now : Q)
    (runtime : GestureRuntime) (current : UsePoseGestureState) :
  candidateOf detection runtime = None ->
  let after := fst (processFrame detection now (runtime, current)) in
  stableGesture after = stableGesture runtime
  /\ pendingGesture after = pendingGesture runtime
  /\ pendingSince after = pendingSince runtime.
Proof.
  intro C. cbv zeta.
  assert (M : forall r c,
             let after := fst (missingLandmarks r c) in
             stableGesture after = stableGesture r
             /\ pendingGesture after = pendingGesture r
             /\ pendingSince after = pendingSince r).
  { intros r c. unfold missingLandmarks. cbv zeta. break_inner; fields; tauto. }
  destruct detection as [m|[l|]].
  - unfold processFrame. fields. tauto.
  - cbn [candidateOf] in C. destruct (tooFew (Some l)) eqn:Few.
    + unfold processFrame. rewrite Few.
      apply (M (set_lastDetectAt now runtime) current).
    + rewrite (processFrame_runtime l now (runtime, current) Few). fields.
      rewrite <- (rawCandidate_lastDetectAt l runtime now) in C.
      pose proof (estimateGesture_fields l (set_lastDetectAt now runtime) now) as F.
      unfold rawCandidate in C.
      destruct (analyse l (set_lastDetectAt now runtime)) as [r|r|r|mid c];
        try discriminate;
        destruct F as (E & Fs & Fp & Ft); rewrite E; fields; tauto.
  - unfold processFrame. apply (M (set_lastDetectAt now runtime) current).
Qed.

(** The time stamp of the pending candidate is kept by a frame that does
    not record a new candidate. *)
Lemma processFrame_pendingSince (landmarks : list NormalizedLandmark) (now : Q)
    (runtime : GestureRuntime) (current : UsePoseGestureState) (candidate : PoseGesture) :
  tooFew (Some landmarks) = false ->
  rawCandidate landmarks runtime = Some candidate ->
  candidate = stableGesture runtime \/ pendingGesture runtime = Some candidate ->
  pendingSince (fst (processFrame (Detected (Some landmarks)) now (runtime, current)))
  = pendingSince runtime.
Proof.
  intros Few C K.
  rewrite (processFrame_runtime landmarks now (runtime, current) Few). cbn [fst].
  rewrite <- (rawCandidate_lastDetectAt landmarks runtime now) in C.
  pose proof (estimateGesture_fields landmarks (set_lastDetectAt now runtime) now) as F.
  unfold rawCandidate in C.
  destruct (analyse landmarks (set_lastDetectAt now runtime)) as [r|r|r|mid c];
    try discriminate.
  injection C as ->. destruct F as (E & Fs & Fp & Ft). rewrite E. fields.
  rewrite <- Fs, <- Fp, <- Ft in *.
  destruct (debounce_cases candidate mid now)
    as [(C & D) | [(C & P & D) | [(C & P & T & D) | (C & P & T & D)]]];
    rewrite D; fields; try reflexivity.
  destruct K; contradiction.
Qed.

Lemma rawCandidate_inv (landmarks : list NormalizedLandmark) (runtime : GestureRuntime)
    (candidate : PoseGesture) :
  rawCandidate landmarks runtime = Some candidate ->
  exists tierResult,
    computeTierSignal landmarks = Some tierResult
    /\ baseline runtime <> None
    /\ recalibrating runtime = false.
Proof.
  unfold rawCandidate, analyse.
  destruct (computeTierSignal landmarks) as [tr|]; [|discriminate].
  cbv zeta. fields.
  destruct (baseline runtime) as [b|]; [|discriminate].
  destruct (recalibrating runtime); [discriminate|].
  intros _. exists tr. repeat apply conj; [reflexivity | discriminate | reflexivity].
Qed.

(** A classified frame publishes the stable gesture that it leaves. *)
Lemma classified_frame_publishes (detection : Detection) (now : Q)
    (runtime : GestureRuntime) (current : UsePoseGestureState) (candidate : PoseGesture) :
  candidateOf detection runtime = Some candidate ->
  let after := processFrame detection now (runtime, current) in
  gesture (snd after) = stableGesture (fst after) /\ status (snd after) = tracking.
Proof.
  intro C. destruct (candidateOf_inv detection runtime candidate C) as (l & -> & Few & Rc).
  destruct (rawCandidate_inv l runtime candidate Rc) as (tr & T & B & R).
  assert (Sd : signalOf (Detected (Some l)) = Some (signal tr)).
  { cbn [signalOf]. rewrite Few, T. reflexivity. }
  destruct (tracking_frame _ now _ runtime current Sd B R) as (_ & _ & _ & _ & Lo & Mid & Hi).
  cbv zeta.
  destruct (driftTest (signal tr) runtime) eqn:Dt.
  - destruct (Nat.lt_ge_cases (S (driftFrames runtime)) CALIBRATION_FRAMES) as [L | L].
    + destruct (Mid eq_refl L) as (_ & _ & _ & S1 & G1). tauto.
    + exfalso. (* the frame would have entered recalibration *)
      unfold rawCandidate in Rc.
      rewrite (analyse_tracking l runtime tr T B R) in Rc.
      set (entry := set_lastSignal _ _) in Rc.
      pose proof (adaptBaseline_fields (signal tr) entry) as G. cbv zeta in G.
      destruct G as (Gs & _ & Gd & _).
      assert (Eb : baseline (adaptBaseline (signal tr) entry)
                   = baseline (adaptBaseline (signal tr) runtime)).
      { unfold adaptBaseline, entry. fields. repeat (break_inner; fields); reflexivity. }
      pose proof (driftCheck_cases (signal tr) (adaptBaseline (signal tr) entry)) as D.
      cbv zeta in D. rewrite Gs, Eb, Gd in D.
      change (stableGesture entry) with (stableGesture runtime) in D.
      change (driftFrames entry) with (driftFrames runtime) in D.
      fold (driftTest (signal tr) runtime) in D.
      destruct D as [(D & _) | [(_ & D & _) | (_ & _ & D)]];
        [congruence | lia | rewrite D in Rc; discriminate].
  - destruct (Lo eq_refl) as (_ & _ & _ & S1 & G1). tauto.
Qed.

(** A frame that does not reach the classifier publishes the gesture IDLE
    or publishes nothing. *)
Lemma unclassified_frame_publishes (detection : Detection) (now : Q)
    (runtime : GestureRuntime) (current : UsePoseGestureState) :
  candidateOf detection runtime = None ->
  let after := processFrame detection now (runtime, current) in
  gesture (snd after) = IDLE \/ snd after = current.
Proof.
  intro C. cbv zeta.
  assert (M : forall r, gesture (snd (missingLandmarks r current)) = IDLE
                        \/ snd (missingLandmarks r current) = current).
  { intro r. unfold missingLandmarks. cbv zeta. break_inner; [left|right]; reflexivity. }
  destruct detection as [m|[l|]]; unfold processFrame.
  - left. reflexivity.
  - cbn [candidateOf] in C. destruct (tooFew (Some l)) eqn:Few; [apply M|].
    rewrite <- (rawCandidate_lastDetectAt l runtime now) in C.
    unfold trackLandmarks, estimateGesture. unfold rawCandidate in C.
    destruct (analyse l (set_lastDetectAt now runtime)) as [r|r|r|r c]; try discriminate;
      left; break_inner; reflexivity.
  - apply M.
Qed.

(** The debouncer's fields after a processed frame. *)
Lemma processFrame_debounce_rule (detection : Detection) (now : Q)
    (runtime : GestureRuntime) (current : UsePoseGestureState) :
  let after := fst (processFrame detection now (runtime, current)) in
  match candidateOf detection runtime with
  | None =>
      stableGesture after = stableGesture runtime
      /\ pendingGesture after = pendingGesture runtime
      /\ pendingSince after = pendingSince runtime
  | Some candidate =>
      (candidate = stableGesture runtime ->
       stableGesture after = stableGesture runtime /\ pendingGesture after = None)
      /\ (candidate <> stableGesture runtime ->
          pendingGesture runtime <> Some candidate ->
          stableGesture after = stableGesture runtime
          /\ pendingGesture after = Some candidate
          /\ pendingSince after = now)
      /\ (candidate <> stableGesture runtime ->
          pendingGesture runtime = Some candidate ->
          DEBOUNCE_MS <= now - pendingSince runtime ->
          stableGesture after = candidate /\ pendingGesture after = None)
      /\ (candidate <> stableGesture runtime ->
          pendingGesture runtime = Some candidate ->
          now - pendingSince runtime < DEBOUNCE_MS ->
          stableGesture after = stableGesture runtime
          /\ pendingGesture after = Some candidate
          /\ pendingSince after = pendingSince runtime)
  end.
Proof.
  cbv zeta. destruct (candidateOf detection runtime) as [candidate|] eqn:C.
  - destruct (candidateOf_inv detection runtime candidate C) as (l & -> & Few & Rc).
    apply (processFrame_debounce l now runtime current candidate Few Rc).
  - apply (processFrame_no_candidate detection now runtime current C).
Qed.

(** C1 as amended: over every run of processed frames the stable gesture
    of the runtime changes only by the commit rule of the debouncer: on a
    frame whose raw candidate is the new value, that value being the
    pending candidate, at least 90 ms after the frame that recorded it as
    pending; a pending candidate and its time stamp are only written
    together, by the frame that records the candidate, with that frame's
    time; a candidate that differs from the stable gesture on one frame (it
    was not pending before that frame) and reverts on the next leaves the
    stable gesture, which both frames publish.  The published gesture is
    the stable gesture on every frame that is classified; a frame that is
    not classified publishes IDLE or nothing.  So the published gesture
    changes to IDLE on a frame without a candidate, back to the unchanged
    stable gesture on the next classified frame, or with the stable
    gesture by the commit rule. *)
Theorem stable_changes_only_by_commit :
  (forall frames world detection now,
     let before := processFrames frames world in
     let after := processFrames (frames ++ [(detection, now)]) world in
     stableGesture (fst after) <> stableGesture (fst before) ->
     candidateOf detection (fst before) = Some (stableGesture (fst after))
     /\ pendingGesture (fst before) = Some (stableGesture (fst after))
     /\ DEBOUNCE_MS <= now - pendingSince (fst before))
  /\ (forall frames world detection now,
        let before := processFrames frames world in
        let after := processFrames (frames ++ [(detection, now)]) world in
        (pendingSince (fst after) = pendingSince (fst before)
         /\ (pendingGesture (fst after) = pendingGesture (fst before)
             \/ pendingGesture (fst after) = None))
        \/ (exists candidate,
              candidateOf detection (fst before) = Some candidate
              /\ candidate <> stableGesture (fst before)
              /\ pendingGesture (fst before) <> Some candidate
              /\ pendingGesture (fst after) = Some candidate
              /\ pendingSince (fst after) = now))
  /\ (forall world first second candidate,
        candidateOf (fst first) (fst world) = Some candidate ->
        candidate <> stableGesture (fst world) ->
        pendingGesture (fst world) <> Some candidate ->
        let once := processFrames [first] world in
        candidateOf (fst second) (fst once) = Some (stableGesture (fst world)) ->
        let twice := processFrames [first; second] world in
        stableGesture (fst once) = stableGesture (fst world)
        /\ gesture (snd once) = stableGesture (fst world)
        /\ stableGesture (fst twice) = stableGesture (fst world)
        /\ gesture (snd twice) = stableGesture (fst world)
        /\ pendingGesture (fst twice) = None)
  /\ (forall frames world detection now,
        let before := processFrames frames world in
        let after := processFrames (frames ++ [(detection, now)]) world in
        match candidateOf detection (fst before) with
        | Some candidate =>
            gesture (snd after) = stableGesture (fst after)
            /\ status (snd after) = tracking
            /\ (stableGesture (fst after) = stableGesture (fst before)
                \/ (stableGesture (fst after) = candidate
                    /\ pendingGesture (fst before) = Some candidate
                    /\ DEBOUNCE_MS <= now - pendingSince (fst before)))
        | None =>
            stableGesture (fst after) = stableGesture (fst before)
            /\ (gesture (snd after) = IDLE \/ snd after = snd before)
        end).
Proof.
  assert (Commits : forall frames world detection now,
             let before := processFrames frames world in
             let after := processFrames (frames ++ [(detection, now)]) world in
             stableGesture (fst after) <> stableGesture (fst before) ->
             candidateOf detection (fst before) = Some (stableGesture (fst after))
             /\ pendingGesture (fst before) = Some (stableGesture (fst after))
             /\ DEBOUNCE_MS <= now - pendingSince (fst before)).
  { intros frames world detection now. cbv zeta. rewrite processFrames_app.
    cbn [processFrames].
    destruct (processFrames frames world) as [runtime current]. cbn [fst].
    pose proof (processFrame_debounce_rule detection now runtime current) as H.
    cbv zeta in H. intro N.
    destruct (candidateOf detection runtime) as [c|]; [|tauto].
    destruct H as (Same & New & Commit & Hold).
    destruct (PoseGesture_eq_dec c (stableGesture runtime)) as [E|D].
    { destruct (Same E). contradiction. }
    destruct (pending_neq_dec (pendingGesture runtime) (Some c)) as [P|P].
    { destruct (New D P). contradiction. }
    destruct (Qlt_le_dec (now - pendingSince runtime) DEBOUNCE_MS) as [T|T].
    { destruct (Hold D P T). contradiction. }
    destruct (Commit D P T) as (S1 & _). rewrite S1. tauto. }
  split; [exact Commits|split; [|split]].
  - intros frames world detection now. cbv zeta. rewrite processFrames_app.
    cbn [processFrames].
    destruct (processFrames frames world) as [runtime current]. cbn [fst].
    pose proof (processFrame_debounce_rule detection now runtime current) as H.
    cbv zeta in H.
    destruct (candidateOf detection runtime) as [c|] eqn:Ec; [|left; tauto].
    destruct H as (Same & New & Commit & Hold).
    destruct (PoseGesture_eq_dec c (stableGesture runtime)) as [E|D].
    { left. destruct (Same E) as (_ & P1). split; [|right; exact P1].
      destruct (candidateOf_inv detection runtime c Ec) as (l & -> & Few & Rc).
      apply (processFrame_pendingSince l now runtime current c Few Rc). left. exact E. }
    destruct (pending_neq_dec (pendingGesture runtime) (Some c)) as [P|P].
    { right. exists c. destruct (New D P) as (_ & P1 & T1). tauto. }
    left.
    assert (T0 : pendingSince (fst (processFrame detection now (runtime, current)))
                 = pendingSince runtime).
    { destruct (candidateOf_inv detection runtime c Ec) as (l & -> & Few & Rc).
      apply (processFrame_pendingSince l now runtime current c Few Rc). right. exact P. }
    split; [exact T0|].
    destruct (Qlt_le_dec (now - pendingSince runtime) DEBOUNCE_MS) as [T|T].
    + left. destruct (Hold D P T) as (_ & P1 & _). congruence.
    + right. destruct (Commit D P T) as (_ & P1). exact P1.
  - intros [runtime current] [d1 t1] [d2 t2] candidate C1 N P once C2 twice.
    subst twice once. cbn [processFrames fst snd] in *.
    pose proof (processFrame_debounce_rule d1 t1 runtime current) as H1.
    cbv zeta in H1. rewrite C1 in H1. destruct H1 as (_ & New1 & _).
    destruct (New1 N P) as (S1 & P1 & _).
    destruct (classified_frame_publishes d1 t1 runtime current candidate C1) as (G1 & _).
    destruct (processFrame d1 t1 (runtime, current)) as [runtime1 current1].
    cbn [fst snd] in *.
    pose proof (processFrame_debounce_rule d2 t2 runtime1 current1) as H2.
    cbv zeta in H2. rewrite C2 in H2. destruct H2 as (Same2 & _).
    destruct Same2 as (S2 & P2); [congruence|].
    destruct (classified_frame_publishes d2 t2 runtime1 current1 _ C2) as (G2 & _).
    repeat apply conj; congruence.
  - intros frames world detection now.
    pose proof (Commits frames world detection now) as Commit. cbv zeta in *.
    rewrite processFrames_app in *. cbn [processFrames] in *.
    destruct (processFrames frames world) as [runtime current]. cbn [fst snd] in *.
    destruct (candidateOf detection runtime) as [candidate|] eqn:C.
    + destruct (classified_frame_publishes detection now runtime current candidate C)
        as (G & S).
      split; [exact G | split; [exact S|]].
      destruct (PoseGesture_eq_dec
                  (stableGesture (fst (processFrame detection now (runtime, current))))
                  (stableGesture runtime)) as [E|N].
      * left. exact E.
      * right. destruct (Commit N) as (K & P & T).
        injection K as K. rewrite K. repeat apply conj; [reflexivity | exact P | exact T].
    + split.
      * apply (processFrame_no_candidate detection now runtime current C).
      * apply (unclassified_frame_publishes detection now runtime current C).
Qed.

Lemma stable_changes_only_by_commit_witness :
  let before := (set_pendingGesture (Some JUMP) (trackingRuntime 0.5 (Some 0.5)),
                 INITIAL_STATE) in
  candidateOf (fst (frameAt 0.30 100)) (fst before) = Some JUMP
  /\ pendingGesture (fst before) = Some JUMP
  /\ DEBOUNCE_MS <= 100 - pendingSince (fst before).
Proof.
  refine (proj1 stable_changes_only_by_commit []
            (set_pendingGesture (Some JUMP) (trackingRuntime 0.5 (Some 0.5)), INITIAL_STATE)
            (fst (frameAt 0.30 100)) 100 _).
  vm_compute. discriminate.
Defined.

(** C1 as stated fails for the published gesture.  After a committed JUMP,
    a frame whose landmarks give no signal publishes IDLE, and the next
    frame, 34 ms later, publishes JUMP again: the published gesture has
    changed twice while the stable gesture is JUMP throughout, nothing is
    pending, the first of the two frames has no raw candidate, and less
    than 90 ms have passed. *)
Lemma published_gesture_changes_without_commit :
  let hidden := processFrames [hiddenFrame 734] jumpCommitted in
  let back := processFrames [hiddenFrame 734; frameAt 0.30 768] jumpCommitted in
  (stableGesture (fst jumpCommitted) = JUMP /\ gesture (snd jumpCommitted) = JUMP)
  /\ candidateOf (fst (hiddenFrame 734)) (fst jumpCommitted) = None
  /\ pendingGesture (fst jumpCommitted) = None
  /\ (stableGesture (fst hidden) = JUMP /\ gesture (snd hidden) = IDLE)
  /\ pendingGesture (fst hidden) = None
  /\ (stableGesture (fst back) = JUMP /\ gesture (snd back) = JUMP)
  /\ ~ DEBOUNCE_MS <= 768 - 734.
Proof.
  cbv zeta. repeat split; try (vm_compute; reflexivity).
  intro K. vm_compute in K. apply K. reflexivity.
Qed.
(** * Further properties of the pose-gesture hook *)

Lemma processFrame_errorMessage (detection : Detection) (now : Q)
    (world : GestureRuntime * UsePoseGestureState) :
  errorMessage (snd (processFrame detection now world))
  = match detection with
    | Threw message => Some message
    | Detected _ => errorMessage (snd world)
    end.
Proof.
  destruct world as [runtime current].
  assert (M : forall r, errorMessage (snd (missingLandmarks r current)) = errorMessage current).
  { intro r. unfold missingLandmarks. cbv zeta. break_inner; reflexivity. }
  destruct detection as [m|[l|]]; unfold processFrame; cbn [snd].
  - reflexivity.
  - destruct (tooFew (Some l)); [apply M|].
    unfold trackLandmarks. destruct (estimateGesture _ _ _) as [r g].
    break_inner; reflexivity.
  - apply M.
Qed.

(** X1: the published error message is the message of the last detection
    that threw: once a detection has thrown, no later frame, and neither
    disabling nor enabling the hook, clears the message. *)
Theorem errorMessage_is_never_cleared :
  (forall frames world,
     errorMessage (snd (processFrames frames world))
     = messageAfter frames (errorMessage (snd world)))
  /\ (forall frames world,
        errorMessage (snd world) <> None ->
        errorMessage (snd (processFrames frames world)) <> None)
  /\ (forall world,
        errorMessage (snd (disable world)) = errorMessage (snd world)
        /\ errorMessage (snd (enable world)) = errorMessage (snd world)).
Proof.
  assert (A : forall frames world,
             errorMessage (snd (processFrames frames world))
             = messageAfter frames (errorMessage (snd world))).
  { induction frames as [|[d t] frames IH]; intro world; cbn [processFrames messageAfter].
    - reflexivity.
    - rewrite IH, processFrame_errorMessage. destruct d; reflexivity. }
  split; [exact A | split].
  - intros frames world. rewrite A. generalize (errorMessage (snd world)).
    induction frames as [|[[m|l] t] frames IH]; intros current N; cbn [messageAfter].
    + exact N.
    + apply IH. discriminate.
    + apply IH. exact N.
  - intros [runtime current]. unfold disable, enable. cbn. 
    destruct (errorMessage current); split; reflexivity.
Qed.

Lemma errorMessage_is_never_cleared_witness :
  errorMessage
    (snd (processFrames [frameAt 0.30 100; frameAt 0.30 134]
            (processFrame (Threw "detect failed") 66 (createRuntime, INITIAL_STATE))))
  <> None.
Proof.
  destruct errorMessage_is_never_cleared as (_ & Kept & _).
  apply (Kept [frameAt 0.30 100; frameAt 0.30 134]
           (processFrame (Threw "detect failed") 66 (createRuntime, INITIAL_STATE))).
  vm_compute. discriminate.
Defined.

(** X2: the hook publishes a gesture other than IDLE only with the status
    tracking, whatever the frames are. *)
Theorem active_gesture_only_while_tracking (frames : list (Detection * Q))
    (world : GestureRuntime * UsePoseGestureState) :
  (gesture (snd world) <> IDLE -> status (snd world) = tracking) ->
  let after := processFrames frames world in
  gesture (snd after) <> IDLE -> status (snd after) = tracking.
Proof.
  revert world. induction frames as [|[d t] frames IH]; intros world H; cbn [processFrames].
  - exact H.
  - apply IH. destruct world as [runtime current]. cbn [snd] in H.
    destruct (candidateOf d runtime) as [c|] eqn:C.
    + intros _. apply (classified_frame_publishes d t runtime current c C).
    + destruct (unclassified_frame_publishes d t runtime current C) as [G|E].
      * intro N. contradiction.
      * rewrite E. exact H.
Qed.

Lemma active_gesture_only_while_tracking_witness :
  let after := processFrames [frameAt 0.30 100; frameAt 0.30 134; frameAt 0.30 200]
                 (trackingRuntime 0.5 (Some 0.5), INITIAL_STATE) in
  gesture (snd after) = JUMP /\ status (snd after) = tracking.
Proof.
  cbv zeta. split; [vm_compute; reflexivity|].
  apply (active_gesture_only_while_tracking
           [frameAt 0.30 100; frameAt 0.30 134; frameAt 0.30 200]
           (trackingRuntime 0.5 (Some 0.5), INITIAL_STATE)).
  - intro N. exfalso. apply N. reflexivity.
  - vm_compute. discriminate.
Defined.

Lemma ofNat_ratio (n d : nat) : (n <= d)%nat -> (0 < d)%nat -> 0 <= ofNat n / ofNat d <= 1.
Proof.
  intros L P. unfold ofNat.
  assert (D : 0 < inject_Z (Z.of_nat d)).
  { change 0 with (inject_Z 0). rewrite <- Zlt_Qlt. lia. }
  assert (N : 0 <= inject_Z (Z.of_nat n)).
  { change 0 with (inject_Z 0). rewrite <- Zle_Qle. lia. }
  assert (K : inject_Z (Z.of_nat n) <= inject_Z (Z.of_nat d)).
  { rewrite <- Zle_Qle. lia. }
  split.
  - apply Qle_shift_div_l; [exact D | lra].
  - apply Qle_shift_div_r; [exact D | lra].
Qed.

Lemma noPersonState_progress (runtime : GestureRuntime) :
  (length (calibrationBuffer runtime) < neededFrames runtime)%nat ->
  0 <= calibrationProgress (noPersonState runtime) <= 1.
Proof.
  intro L. unfold noPersonState. cbn [calibrationProgress].
  destruct (truthy (baseline runtime)); [lra|].
  apply ofNat_ratio; [|unfold CALIBRATION_FRAMES; lia].
  unfold neededFrames, RECALIBRATION_FRAMES, CALIBRATION_FRAMES in *.
  destruct (recalibrating runtime); lia.
Qed.

Lemma estimateGesture_buffer (landmarks : list NormalizedLandmark)
    (runtime : GestureRuntime) (now : Q) :
  (length (calibrationBuffer runtime) < neededFrames runtime)%nat ->
  let after := fst (estimateGesture landmarks runtime now) in
  (length (calibrationBuffer after) < neededFrames after)%nat.
Proof.
  intro L. cbv zeta.
  unfold estimateGesture, analyse.
  destruct (computeTierSignal landmarks) as [tr|]; [|exact L].
  cbv zeta. unfold calibrationPhase, adaptBaseline, driftCheck, debounce, neededFrames in *.
  cbv zeta. fields.
  destruct (isNull (baseline runtime)); cbn [orb].
  - destruct (Nat.leb_spec (if recalibrating runtime then RECALIBRATION_FRAMES
                            else CALIBRATION_FRAMES)
                           (length (calibrationBuffer runtime ++ [signal tr]))) as [K|K];
      fields; [cbn; unfold CALIBRATION_FRAMES; lia | exact K].
  - destruct (recalibrating runtime) eqn:R.
    + destruct (Nat.leb_spec RECALIBRATION_FRAMES
                             (length (calibrationBuffer runtime ++ [signal tr]))) as [K|K];
        fields; [cbn; unfold CALIBRATION_FRAMES; lia | rewrite R; exact K].
    + repeat (break_inner; fields); rewrite ?R;
        try exact L; cbn; unfold RECALIBRATION_FRAMES; lia.
Qed.

(** A processed frame keeps the buffer short and publishes a share. *)
Lemma processFrame_progress (detection : Detection) (now : Q)
    (world : GestureRuntime * UsePoseGestureState) :
  progressInRange world -> progressInRange (processFrame detection now world).
Proof.
  destruct world as [runtime current]. unfold progressInRange. cbn [fst snd].
  intros (L & P).
  assert (M : forall r,
             (length (calibrationBuffer r) < neededFrames r)%nat ->
             (length (calibrationBuffer (fst (missingLandmarks r current)))
              < neededFrames (fst (missingLandmarks r current)))%nat
             /\ 0 <= calibrationProgress (snd (missingLandmarks r current)) <= 1).
  { intros r Lr. unfold missingLandmarks. cbv zeta.
    assert (Lm : (length (calibrationBuffer (set_missingFrames (S (missingFrames r)) r))
                  < neededFrames (set_missingFrames (S (missingFrames r)) r))%nat)
      by exact Lr.
    break_inner; cbn [fst snd].
    - split; [exact Lm|]. apply (noPersonState_progress _ Lm).
    - split; [exact Lm | exact P]. }
  destruct detection as [m|[l|]]; unfold processFrame.
  - cbn [fst snd publish calibrationProgress]. split; [exact L | lra].
  - destruct (tooFew (Some l)); [apply M; exact L|].
    pose proof (estimateGesture_buffer l (set_lastDetectAt now runtime) now L) as E.
    cbv zeta in E. unfold trackLandmarks.
    destruct (estimateGesture l (set_lastDetectAt now runtime) now) as [r g].
    cbn [fst] in E.
    destruct (Nat.ltb MAX_MISSING_FRAMES (missingFrames r)); cbn [fst snd].
    + split; [exact E | apply (noPersonState_progress _ E)].
    + split; [exact E|]. cbn [publish calibrationProgress].
      destruct (negb (isNull (baseline r)) && negb (recalibrating r)); [lra|].
      fold (neededFrames r). apply ofNat_ratio; [lia|].
      unfold neededFrames, RECALIBRATION_FRAMES, CALIBRATION_FRAMES.
      destruct (recalibrating r); lia.
  - apply M. exact L.
Qed.

(** X3: the published calibration progress stays between zero and one,
    and the calibration buffer stays shorter than the calibration that it
    serves, over any frames and when the hook is enabled or disabled. *)
Theorem calibrationProgress_is_a_share :
  (forall frames world,
     progressInRange world -> progressInRange (processFrames frames world))
  /\ (forall world, progressInRange (enable world) /\ progressInRange (disable world)).
Proof.
  split.
  - induction frames as [|[d t] frames IH]; intros world H; cbn [processFrames].
    + exact H.
    + apply IH. apply processFrame_progress. exact H.
  - intros [runtime current]. unfold progressInRange, enable, disable. cbn.
    unfold CALIBRATION_FRAMES. repeat split; try lia; try lra.
Qed.

Lemma calibrationProgress_is_a_share_witness :
  progressInRange (processFrames swingingFrames (enable (createRuntime, INITIAL_STATE))).
Proof.
  apply (proj1 calibrationProgress_is_a_share).
  apply (proj2 calibrationProgress_is_a_share).
Defined.

(** X4: two frames with the same raw candidate, 90 ms or more apart,
    commit it: after the second the stable and the published gesture are
    the candidate, with nothing pending. *)
Theorem sustained_candidate_commits (world : GestureRuntime * UsePoseGestureState)
    (first second : Detection * Q) (candidate : PoseGesture) :
  let once := processFrame (fst first) (snd first) world in
  let twice := processFrame (fst second) (snd second) once in
  candidateOf (fst first) (fst world) = Some candidate ->
  candidateOf (fst second) (fst once) = Some candidate ->
  pendingSince (fst world) <= snd first ->
  snd first + DEBOUNCE_MS <= snd second ->
  stableGesture (fst twice) = candidate
  /\ pendingGesture (fst twice) = None
  /\ gesture (snd twice) = candidate
  /\ status (snd twice) = tracking.
Proof.
  destruct world as [runtime current], first as [d1 t1], second as [d2 t2].
  cbn [fst snd]. intros C1 C2 P T.
  pose proof (processFrame_debounce_rule d1 t1 runtime current) as H1.
  cbv zeta in H1. rewrite C1 in H1. destruct H1 as (Same1 & New1 & Commit1 & Hold1).
  destruct (processFrame d1 t1 (runtime, current)) as [runtime1 current1] eqn:E1.
  cbn [fst snd] in *.
  pose proof (processFrame_debounce_rule d2 t2 runtime1 current1) as H2.
  cbv zeta in H2. rewrite C2 in H2. destruct H2 as (Same2 & New2 & Commit2 & Hold2).
  destruct (classified_frame_publishes d2 t2 runtime1 current1 candidate C2) as (G2 & S2).
  rewrite G2.
  assert (K : stableGesture (fst (processFrame d2 t2 (runtime1, current1))) = candidate
              /\ pendingGesture (fst (processFrame d2 t2 (runtime1, current1))) = None).
  { destruct (PoseGesture_eq_dec candidate (stableGesture runtime1)) as [E|D].
    { destruct (Same2 E) as (X & Y). split; [congruence | exact Y]. }
    assert (Pd : pendingGesture runtime1 = Some candidate /\ pendingSince runtime1 <= t1).
    { destruct (PoseGesture_eq_dec candidate (stableGesture runtime)) as [E0|D0].
      { destruct (Same1 E0) as (X & _). congruence. }
      destruct (pending_neq_dec (pendingGesture runtime) (Some candidate)) as [N|N].
      { destruct (New1 D0 N) as (_ & X & Y). rewrite X, Y. split; [reflexivity | lra]. }
      destruct (Qlt_le_dec (t1 - pendingSince runtime) DEBOUNCE_MS) as [L|L].
      - destruct (Hold1 D0 N L) as (_ & X & Y). rewrite X, Y. tauto.
      - destruct (Commit1 D0 N L) as (X & _). congruence. }
    destruct Pd as (Pg & Ps).
    apply (Commit2 D Pg). lra. }
  tauto.
Qed.

Lemma sustained_candidate_commits_witness :
  let world := (trackingRuntime 0.5 (Some 0.5), INITIAL_STATE) in
  let twice := processFrame (fst (frameAt 0.30 200)) 200
                 (processFrame (fst (frameAt 0.30 100)) 100 world) in
  stableGesture (fst twice) = JUMP
  /\ pendingGesture (fst twice) = None
  /\ gesture (snd twice) = JUMP
  /\ status (snd twice) = tracking.
Proof.
  apply (sustained_candidate_commits (trackingRuntime 0.5 (Some 0.5), INITIAL_STATE)
           (frameAt 0.30 100) (frameAt 0.30 200) JUMP).
  - vm_compute. reflexivity.
  - vm_compute. reflexivity.
  - vm_compute. discriminate.
  - vm_compute. discriminate.
Defined.

Lemma sumQ_bounds (lo hi : Q) (values : list Q) :
  Forall (fun v => lo <= v <= hi) values ->
  ofNat (length values) * lo <= sumQ values <= ofNat (length values) * hi.
Proof.
  induction 1 as [|v values E _ IH].
  - unfold sumQ, ofNat. cbn [fold_right length Z.of_nat]. change (inject_Z 0) with 0. lra.
  - cbn [sumQ fold_right length]. fold (sumQ values).
    unfold ofNat in *. rewrite Nat2Z.inj_succ, <- Z.add_1_r, inject_Z_plus.
    change (inject_Z 1) with 1. lra.
Qed.

Lemma filterUsable_In (points : list (option NormalizedLandmark)) (p : NormalizedLandmark) :
  In p (filterUsable points) -> In (Some p) points.
Proof.
  induction points as [|[q|] points IH]; cbn [filterUsable]; [tauto| |].
  - destruct (usable (Some q)); cbn [In]; intro H.
    + destruct H as [<-|H]; [left; reflexivity | right; exact (IH H)].
    + right. exact (IH H).
  - intro H. right. exact (IH H).
Qed.

Lemma meanY_bounds (points : list NormalizedLandmark) :
  points <> [] -> Forall heightInImage points -> 0 <= meanY points <= 1.
Proof.
  intros N F. rewrite meanY_specMean. unfold specMean.
  assert (Fm : Forall (fun v => 0 <= v <= 1) (map y points)).
  { apply Forall_forall. intros v I. apply in_map_iff in I. destruct I as (p & <- & Ip).
    rewrite Forall_forall in F. exact (F p Ip). }
  pose proof (sumQ_bounds 0 1 (map y points) Fm) as (L & H).
  assert (P : 0 < ofNat (length (map y points))).
  { destruct points as [|p points]; [congruence|].
    unfold Qlt, ofNat. cbn [Qnum Qden inject_Z length map]. lia. }
  split.
  - apply Qle_shift_div_l; [exact P | lra].
  - apply Qle_shift_div_r; [exact P | lra].
Qed.

Lemma share_over_span (value span least : Q) :
  0 <= value <= 1 -> 0 < least -> least <= span -> 0 <= value / span <= 1 / least.
Proof.
  intros (V0 & V1) L S. 
  assert (P : 0 < span) by lra.
  split.
  - apply Qle_shift_div_l; [exact P | lra].
  - apply Qle_shift_div_r; [exact P|].
    assert (E : 1 / least * span == span / least) by (field; lra).
    rewrite E. 
    assert (K : 1 <= span / least) by (apply Qle_shift_div_l; [exact L | lra]).
    lra.
Qed.

(** X6: for landmarks at heights inside the image the tier signal is
    between zero and the inverse of the least span that the tier divides
    by: 1 / 0.09 on the tiers 1 and 3, 1 / 0.06 on tier 2. *)
Theorem tier_signal_is_bounded (landmarks : list NormalizedLandmark)
    (tierResult : TierResult) :
  Forall heightInImage landmarks ->
  computeTierSignal landmarks = Some tierResult ->
  0 <= signal tierResult
  /\ signal tierResult <= match tier tierResult with
                          | Tier2 => 1 / 0.06
                          | _ => 1 / 0.09
                          end.
Proof.
  intros F. unfold computeTierSignal. cbv zeta.
  set (head := filterUsable [nth_error landmarks 0; nth_error landmarks 7; nth_error landmarks 8]).
  assert (Fh : Forall heightInImage head).
  { apply Forall_forall. intros p I. subst head. apply filterUsable_In in I.
    rewrite Forall_forall in F. apply F.
    cbn [In] in I. destruct I as [I|[I|[I|[]]]];
      eapply nth_error_In; exact I. }
  assert (Sh : forall l r, nth_error landmarks 11 = Some l -> nth_error landmarks 12 = Some r ->
               0 <= (y l + y r) / 2 <= 1).
  { intros l r El Er. rewrite Forall_forall in F.
    pose proof (F l (nth_error_In _ _ El)) as Hl. pose proof (F r (nth_error_In _ _ Er)) as Hr.
    unfold heightInImage in *. 
    assert (E : (y l + y r) / 2 == (1 # 2) * (y l + y r)) by field. rewrite E. lra. }
  destruct (usable (nth_error landmarks 11) && usable (nth_error landmarks 12)) eqn:Hs.
  - assert (Ex : exists l r, nth_error landmarks 11 = Some l /\ nth_error landmarks 12 = Some r).
    { apply andb_true_iff in Hs. destruct Hs as (U1 & U2).
      destruct (nth_error landmarks 11) as [l|]; [|discriminate U1].
      destruct (nth_error landmarks 12) as [r|]; [|discriminate U2].
      exists l, r. tauto. }
    destruct Ex as (l & r & El & Er). rewrite El, Er in *.
    specialize (Sh l r eq_refl eq_refl).
    assert (Sp : 0.09 <= Qmax 0.09 (Qabs (x r - x l))) by apply Q.le_max_l.
    cbn [andb].
    destruct (0 <? length head)%nat eqn:Hh.
    + intro E. injection E as <-. cbn [signal tier].
      assert (Nh : head <> []) by (destruct head; [discriminate Hh | discriminate]).
      pose proof (meanY_bounds head Nh Fh) as Mh.
      apply share_over_span; [lra | reflexivity | exact Sp].
    + destruct (2 <=? length head)%nat eqn:H2.
      * exfalso. apply Nat.leb_le in H2. apply Nat.ltb_ge in Hh. lia.
      * intro E. injection E as <-. cbn [signal tier].
        apply share_over_span; [exact Sh | reflexivity | exact Sp].
  - cbn [andb]. destruct (2 <=? length head)%nat eqn:H2; [|discriminate].
    intro E. injection E as <-. cbn [signal tier].
    assert (Nh : head <> []) by (destruct head; [discriminate H2 | discriminate]).
    pose proof (meanY_bounds head Nh Fh) as Mh.
    apply share_over_span; [exact Mh | reflexivity | apply Q.le_max_l].
Qed.

Lemma tier_signal_is_bounded_witness :
  match computeTierSignal (poseAt 0.30) with
  | Some tierResult => 0 <= signal tierResult /\ signal tierResult <= 1 / 0.06
  | None => False
  end.
Proof.
  destruct (computeTierSignal (poseAt 0.30)) as [tierResult|] eqn:E;
    [|vm_compute in E; discriminate E].
  assert (F : Forall heightInImage (poseAt 0.30)).
  { unfold poseAt. repeat (constructor; [split; vm_compute; discriminate|]). constructor. }
  destruct (tier_signal_is_bounded (poseAt 0.30) tierResult F E) as (Low & High).
  split; [exact Low|].
  destruct (tier tierResult); (eapply Qle_trans; [exact High|]); vm_compute; discriminate.
Defined.

(** * The challenge matcher over time *)

Lemma matched_after_a_stretch (challenge : PoseChallenge)
    (earlier : list Observation) (poseGesture : PoseGesture)
    (poseStatus : PoseTrackingStatus) (now : Q) :
  0 < holdMs challenge ->
  let holdStart := holdStartAfter challenge earlier None in
  matched (snd (checkEffect challenge poseGesture poseStatus holdStart now)) = true ->
  exists front first held,
    earlier ++ [(poseGesture, poseStatus, now)] = front ++ first :: held
    /\ Forall (showsTarget challenge) (first :: held)
    /\ holdMs challenge <= now - observedAt first.
Proof.
  intros H holdStart M. subst holdStart.
  unfold checkEffect in M. cbn [snd] in M.
  destruct (trackHold_cases challenge poseGesture poseStatus
              (holdStartAfter challenge earlier None) now H) as [(Sh & Et) | (_ & Et)];
    rewrite Et in M.
  - destruct Sh as (Sg & Ss). cbn [fst snd] in Sg, Ss. subst poseStatus.
    change (status_eqb tracking tracking) with true in M. cbv iota in M. rewrite Sg in M.
    destruct (holdStartAfter challenge earlier None) as [start|] eqn:B.
    + destruct (checkPoseMatch_holding challenge H start now) as (_ & _ & _ & K & _).
      apply K in M.
      destruct (holdStartAfter_stretch challenge earlier start H B)
        as (front & first & held & -> & A & F).
      exists front, first, (held ++ [(poseGesture, tracking, now)]).
      rewrite <- app_assoc. cbn [app]. repeat apply conj; [reflexivity | | rewrite A; exact M].
      rewrite app_comm_cons. apply Forall_app. split; [exact F|].
      constructor; [split; [exact Sg | reflexivity] | constructor].
    + destruct (checkPoseMatch_holding challenge H now now) as (_ & _ & _ & K & _).
      apply K in M. lra.
  - exfalso. unfold checkPoseMatch in M.
    rewrite (holdMs_not_zero challenge H) in M.
    destruct (negb _); discriminate M.
Qed.

(** X7: the welcome scene matches a challenge with a hold time only at the
    end of an unbroken stretch of checks that all saw the target gesture
    tracked, the first of them at least the hold time before the last. *)
Theorem hold_challenge_needs_an_unbroken_hold (challenge : PoseChallenge)
    (earlier : list Observation) (poseGesture : PoseGesture)
    (poseStatus : PoseTrackingStatus) (now : Q) :
  0 < holdMs challenge ->
  let holdStart := holdStartAfter challenge earlier None in
  matched (snd (checkEffect challenge poseGesture poseStatus holdStart now)) = true ->
  exists front first held,
    earlier ++ [(poseGesture, poseStatus, now)] = front ++ first :: held
    /\ Forall (showsTarget challenge) (first :: held)
    /\ holdMs challenge <= now - observedAt first.
Proof. exact (matched_after_a_stretch challenge earlier poseGesture poseStatus now). Qed.

Lemma hold_challenge_needs_an_unbroken_hold_witness :
  exists front first held,
    [(IDLE, tracking, 0); (IDLE, tracking, 1000)] ++ [(IDLE, tracking, 2000)]
    = front ++ first :: held
    /\ Forall (showsTarget standStill) (first :: held)
    /\ holdMs standStill <= 2000 - observedAt first.
Proof.
  apply (hold_challenge_needs_an_unbroken_hold standStill
           [(IDLE, tracking, 0); (IDLE, tracking, 1000)] IDLE tracking 2000).
  - reflexivity.
  - vm_compute. reflexivity.
Defined.

Lemma changing_inside (front : list Observation) (first second : Observation)
    (back : list Observation) :
  changing (front ++ first :: second :: back) -> fst first <> fst second.
Proof.
  induction front as [|a front IH]; cbn [app].
  - cbn [changing]. tauto.
  - destruct front as [|b front]; cbn [app changing] in *; tauto.
Qed.

(** X8: the check of the welcome scene runs when the published gesture or
    status has changed; over checks that each follow such a change a
    challenge with a hold time is never matched. *)
Theorem hold_is_never_matched_on_changes_alone (challenge : PoseChallenge)
    (earlier : list Observation) (poseGesture : PoseGesture)
    (poseStatus : PoseTrackingStatus) (now : Q) :
  0 < holdMs challenge ->
  changing (earlier ++ [(poseGesture, poseStatus, now)]) ->
  let holdStart := holdStartAfter challenge earlier None in
  matched (snd (checkEffect challenge poseGesture poseStatus holdStart now)) = false.
Proof.
  intros H Ch. cbv zeta. apply not_true_iff_false. intro M.
  destruct (matched_after_a_stretch challenge earlier poseGesture poseStatus now H M)
    as (front & first & held & E & F & T).
  destruct held as [|second held].
  - assert (L : first = (poseGesture, poseStatus, now)).
    { apply (f_equal (@rev Observation)) in E. rewrite !rev_app_distr in E.
      cbn [rev app] in E. injection E as E _. symmetry. exact E. }
    subst first. unfold observedAt in T. cbn [snd] in T. lra.
  - rewrite E in Ch. apply changing_inside in Ch.
    inversion F as [|? ? (G1 & S1) F']; subst. inversion F' as [|? ? (G2 & S2) _]; subst.
    apply Ch. destruct first as [[g1 s1] t1], second as [[g2 s2] t2].
    cbn [fst snd] in *. congruence.
Qed.

Lemma hold_is_never_matched_on_changes_alone_witness :
  matched (snd (checkEffect standStill IDLE tracking
                  (holdStartAfter standStill [(IDLE, calibrating, 0)] None) 5000)) = false.
Proof.
  apply (hold_is_never_matched_on_changes_alone standStill [(IDLE, calibrating, 0)]
           IDLE tracking 5000).
  - reflexivity.
  - cbn. split; [discriminate | exact I].
Defined.

(** * The welcome scene *)

Ltac scene_fields :=
  cbn [Welcome.phase Welcome.bodyDetected Welcome.challengeIdx Welcome.feedback
       Welcome.shownProgress Welcome.holdStartRef Welcome.challengeStartRef
       Welcome.phaseTimerRef Welcome.feedbackTimerRef Welcome.advancingRef] in *.

Lemma statusChanges_detect (scene : Welcome.Scene) (poseStatus : PoseTrackingStatus) :
  Welcome.phase scene = Welcome.detect ->
  Welcome.phase (statusChanges scene poseStatus) = Welcome.detect
  /\ Welcome.phaseTimerRef (statusChanges scene poseStatus) = false
  /\ Welcome.bodyDetected (statusChanges scene poseStatus)
     = status_eqb poseStatus calibrating || status_eqb poseStatus tracking.
Proof.
  intro P. unfold statusChanges. cbv zeta.
  unfold Welcome.detectEffect, Welcome.detectCleanup. scene_fields. rewrite P.
  cbv zeta. scene_fields.
  destruct (status_eqb poseStatus calibrating || status_eqb poseStatus tracking);
    destruct (Welcome.bodyDetected scene); cbn; scene_fields; rewrite ?P; cbn; tauto.
Qed.

(** X9: in the detect phase no change of the published status leaves the
    two-second timer pending: the effect that starts it also changes
    [bodyDetected], and its own cleanup cancels it on the render that
    follows; the timer never ends the phase. *)
Theorem detect_phase_does_not_end_by_its_timer (statuses : list PoseTrackingStatus)
    (scene : Welcome.Scene) (now : Q) :
  Welcome.phase scene = Welcome.detect ->
  let after := fold_left statusChanges statuses scene in
  (statuses <> [] \/ Welcome.phaseTimerRef scene = false ->
   Welcome.phaseTimerRef after = false /\ Welcome.phaseTimerFires now after = after)
  /\ Welcome.phase after = Welcome.detect.
Proof.
  intro P. cbv zeta.
  assert (K : forall l s, Welcome.phase s = Welcome.detect ->
              Welcome.phase (fold_left statusChanges l s) = Welcome.detect
              /\ (l <> [] \/ Welcome.phaseTimerRef s = false ->
                  Welcome.phaseTimerRef (fold_left statusChanges l s) = false)).
  { induction l as [|st l IH]; intros s Ps; cbn [fold_left].
    - split; [exact Ps|]. intros [N|T]; [congruence | exact T].
    - destruct (statusChanges_detect s st Ps) as (P1 & T1 & _).
      destruct (IH _ P1) as (P2 & T2). split; [exact P2|]. intros _. apply T2. tauto. }
  destruct (K statuses scene P) as (Pa & Ta). split; [|exact Pa].
  intro H. specialize (Ta H). split; [exact Ta|].
  unfold Welcome.phaseTimerFires. rewrite Ta. reflexivity.
Qed.

Lemma detect_phase_does_not_end_by_its_timer_witness :
  Welcome.phaseTimerFires 5000 (fold_left statusChanges [loading; calibrating; tracking] mounted)
  = fold_left statusChanges [loading; calibrating; tracking] mounted
  /\ Welcome.phase (fold_left statusChanges [loading; calibrating; tracking] mounted)
     = Welcome.detect.
Proof.
  destruct (detect_phase_does_not_end_by_its_timer [loading; calibrating; tracking] mounted
              5000 eq_refl) as (Idle & Same).
  split; [|exact Same]. apply Idle. left. discriminate.
Defined.

(** ** The challenges *)

(** The check and the ticker, which differ in the test of the pose only. *)
Lemma guarded_advance (scene : Welcome.Scene) (isTimeout : bool) (event : Welcome.Event) :
  Welcome.currentChallenge scene <> None ->
  exists next,
    Welcome.advanceChallenge isTimeout scene = Some next
    /\ Welcome.challengeIdx next = Welcome.challengeIdx scene
    /\ Welcome.phase next = Welcome.phase scene
    /\ Welcome.advancingRef next = true
    /\ Welcome.feedbackTimerRef next
       = (Welcome.feedbackTimerRef scene || negb (Welcome.advancingRef scene)).
Proof.
  unfold Welcome.currentChallenge, Welcome.advanceChallenge. intro C.
  destruct (Welcome.advancingRef scene) eqn:A.
  - exists scene. rewrite orb_false_r. repeat split; auto.
  - destruct (nth_error CHALLENGES (Welcome.challengeIdx scene)); [|congruence].
    eexists. split; [reflexivity|]. scene_fields. rewrite orb_true_r.
    repeat split; reflexivity.
Qed.

Lemma handle_showsChallenge (event : Welcome.Event) (scene : Welcome.Scene) :
  exists next,
    Welcome.handle event scene = Some next
    /\ (showsChallenge scene -> showsChallenge next)
    /\ (Welcome.phase next <> Welcome.phase scene ->
        Welcome.phase next = Welcome.ready
        /\ (length CHALLENGES <= S (Welcome.challengeIdx scene))%nat
        /\ Welcome.challengeIdx next = Welcome.challengeIdx scene
        /\ exists now, event = Welcome.FeedbackShown now)
    /\ (Welcome.challengeIdx scene <= Welcome.challengeIdx next)%nat.
Proof.
  unfold showsChallenge.
  assert (Same : exists next,
             Some scene = Some next
             /\ ((Welcome.challengeIdx scene < length CHALLENGES)%nat
                 /\ Welcome.feedbackTimerRef scene = Welcome.advancingRef scene ->
                 (Welcome.challengeIdx next < length CHALLENGES)%nat
                 /\ Welcome.feedbackTimerRef next = Welcome.advancingRef next)
             /\ (Welcome.phase next <> Welcome.phase scene ->
                 Welcome.phase next = Welcome.ready
                 /\ (length CHALLENGES <= S (Welcome.challengeIdx scene))%nat
                 /\ Welcome.challengeIdx next = Welcome.challengeIdx scene
                 /\ exists now, event = Welcome.FeedbackShown now)
             /\ (Welcome.challengeIdx scene <= Welcome.challengeIdx next)%nat).
  { exists scene. split; [reflexivity|]. split; [intro K; exact K|].
    split; [intro N; congruence | lia]. }
  assert (Advanced : forall s isTimeout,
             Welcome.challengeIdx s = Welcome.challengeIdx scene ->
             Welcome.phase s = Welcome.phase scene ->
             Welcome.advancingRef s = false ->
             Welcome.currentChallenge s <> None ->
             exists next,
               Welcome.advanceChallenge isTimeout s = Some next
               /\ ((Welcome.challengeIdx scene < length CHALLENGES)%nat
                   /\ Welcome.feedbackTimerRef scene = Welcome.advancingRef scene ->
                   (Welcome.challengeIdx next < length CHALLENGES)%nat
                   /\ Welcome.feedbackTimerRef next = Welcome.advancingRef next)
               /\ (Welcome.phase next <> Welcome.phase scene ->
                   Welcome.phase next = Welcome.ready
                   /\ (length CHALLENGES <= S (Welcome.challengeIdx scene))%nat
                   /\ Welcome.challengeIdx next = Welcome.challengeIdx scene
                   /\ exists now, event = Welcome.FeedbackShown now)
               /\ (Welcome.challengeIdx scene <= Welcome.challengeIdx next)%nat).
  { intros s isTimeout Ei Ep Ea C.
    destruct (guarded_advance s isTimeout event C) as (next & E & Ni & Np & Na & Nt).
    exists next. rewrite E, Ni, Np, Nt, Na, Ei, Ep, Ea. split; [reflexivity|].
    split; [intros (L & _); split; [exact L | apply orb_true_r]|].
    split; [intro N; congruence | lia]. }
  destruct event as [g st now|now|now]; cbn [Welcome.handle].
  - unfold Welcome.checkPose.
    destruct (Welcome.phase scene) eqn:P; try exact Same.
    destruct (Welcome.currentChallenge scene) as [c|] eqn:C; [|exact Same].
    destruct (Welcome.advancingRef scene) eqn:A; [exact Same|].
    destruct (Qgtb _ _).
    + apply Advanced; congruence.
    + destruct (checkEffect c g st (Welcome.holdStartRef scene) now) as [holdStart result].
      destruct (matched result).
      * apply Advanced; try reflexivity; try assumption.
        unfold Welcome.currentChallenge in *. scene_fields. congruence.
      * eexists. split; [reflexivity|]. scene_fields. rewrite ?A, ?P.
        split; [intros (K1 & K2); split; congruence|].
        split; [intro N; congruence | lia].
  - unfold Welcome.timeoutTick.
    destruct (Welcome.phase scene) eqn:P; try exact Same.
    destruct (Welcome.currentChallenge scene) as [c|] eqn:C; [|exact Same].
    destruct (Welcome.advancingRef scene) eqn:A; [exact Same|].
    destruct (Qgtb _ _); [|exact Same].
    apply Advanced; congruence.
  - clear Same Advanced. eexists. split; [reflexivity|]. unfold Welcome.feedbackTimerFires.
    destruct (Welcome.feedbackTimerRef scene) eqn:T;
      [|split; [intros (K1 & K2); split; congruence | split; [intro N; congruence | lia]]].
    cbv zeta. destruct (Nat.leb_spec (length CHALLENGES) (S (Welcome.challengeIdx scene)));
      scene_fields.
    + split; [intros (L & _); split; [exact L | reflexivity]|].
      split; [|lia]. intros _. split; [reflexivity|]. split; [assumption|].
      split; [reflexivity | exists now; reflexivity].
    + split; [intros _; split; [assumption | reflexivity]|].
      split; [intro N; congruence | lia].
Qed.

(** X10: the checks, the ticks and the feedback timers of the welcome
    scene never throw, never step back in the list of challenges, and
    leave the phase only for the ready phase, at the last challenge; a
    scene that shows a challenge goes on showing one. *)
Theorem welcome_shows_the_challenges_in_order (events : list Welcome.Event)
    (scene : Welcome.Scene) :
  exists after,
    Welcome.handleAll events scene = Some after
    /\ (showsChallenge scene -> showsChallenge after)
    /\ (Welcome.challengeIdx scene <= Welcome.challengeIdx after)%nat
    /\ (Welcome.phase after <> Welcome.phase scene ->
        Welcome.phase after = Welcome.ready
        /\ (length CHALLENGES <= S (Welcome.challengeIdx after))%nat).
Proof.
  revert scene. induction events as [|event events IH]; intro scene;
    cbn [Welcome.handleAll].
  - exists scene. split; [reflexivity|]. split; [intro K; exact K|].
    split; [lia | intro N; congruence].
  - destruct (handle_showsChallenge event scene) as (next & E & Sh & Ph & Ix).
    rewrite E. destruct (IH next) as (after & Ea & Sha & Ixa & Pha).
    exists after. split; [exact Ea|]. split; [intro K; exact (Sha (Sh K))|].
    split; [lia|]. intro N.
    assert (D : Welcome.phase after = Welcome.phase next
                \/ Welcome.phase after <> Welcome.phase next)
      by (destruct (Welcome.phase after), (Welcome.phase next);
          (left; reflexivity) || (right; discriminate)).
    destruct D as [Same|Diff].
    + rewrite Same in *. destruct (Ph N) as (R & L & Ei & _).
      split; [exact R | lia].
    + exact (Pha Diff).
Qed.

Lemma welcome_shows_the_challenges_in_order_witness :
  exists after,
    Welcome.handleAll [Welcome.Ticked 9200; Welcome.FeedbackShown 10400] (firstChallenge 1000)
    = Some after
    /\ showsChallenge after.
Proof.
  destruct (welcome_shows_the_challenges_in_order
              [Welcome.Ticked 9200; Welcome.FeedbackShown 10400] (firstChallenge 1000))
    as (after & E & Shows & _).
  exists after. split; [exact E|]. apply Shows.
  split; [vm_compute; lia | reflexivity].
Defined.

(** X11: once a challenge has been shown for longer than its timeout, the
    next check or tick shows the feedback, and the feedback timer then
    moves on to the next challenge, started afresh, or to the ready phase
    after the last one: the scene never waits for a pose for ever. *)
Theorem timeout_ends_a_challenge (scene : Welcome.Scene) (challenge : PoseChallenge)
    (event : Welcome.Event) (now later : Q) :
  Welcome.phase scene = Welcome.calibrate ->
  Welcome.currentChallenge scene = Some challenge ->
  Welcome.advancingRef scene = false ->
  timeoutMs challenge < now - Welcome.challengeStartRef scene ->
  (exists poseGesture poseStatus, event = Welcome.PoseSeen poseGesture poseStatus now)
  \/ event = Welcome.Ticked now ->
  exists shown after,
    Welcome.handle event scene = Some shown
    /\ Welcome.feedback shown = Some true
    /\ Welcome.advancingRef shown = true
    /\ Welcome.handle (Welcome.FeedbackShown later) shown = Some after
    /\ Welcome.advancingRef after = false
    /\ Welcome.feedback after = None
    /\ ((S (Welcome.challengeIdx scene) < length CHALLENGES)%nat ->
        Welcome.phase after = Welcome.calibrate
        /\ Welcome.challengeIdx after = S (Welcome.challengeIdx scene)
        /\ Welcome.challengeStartRef after = later
        /\ Welcome.holdStartRef after = None
        /\ Welcome.shownProgress after = 0)
    /\ ((length CHALLENGES <= S (Welcome.challengeIdx scene))%nat ->
        Welcome.phase after = Welcome.ready).
Proof.
  intros P C A T E.
  assert (G : Qgtb (now - Welcome.challengeStartRef scene) (timeoutMs challenge) = true)
    by (apply Qgtb_gt; exact T).
  assert (H : Welcome.handle event scene = Welcome.advanceChallenge true scene).
  { destruct E as [(g & st & ->) | ->]; cbn [Welcome.handle];
      unfold Welcome.checkPose, Welcome.timeoutTick; rewrite P, C, A, G; reflexivity. }
  rewrite H. unfold Welcome.advanceChallenge. rewrite A.
  unfold Welcome.currentChallenge in C. rewrite C.
  eexists. eexists. split; [reflexivity|]. scene_fields.
  split; [reflexivity|]. split; [reflexivity|].
  cbn [Welcome.handle]. split; [reflexivity|].
  unfold Welcome.feedbackTimerFires. scene_fields. cbv zeta.
  destruct (Nat.leb_spec (length CHALLENGES) (S (Welcome.challengeIdx scene))); scene_fields.
  - split; [reflexivity | split; [reflexivity | split; [intro K; lia | intros _; reflexivity]]].
  - split; [reflexivity | split; [reflexivity | split; [|intro K; lia]]].
    intros _. repeat apply conj; try reflexivity. exact P.
Qed.

Lemma timeout_ends_a_challenge_witness :
  let scene := {| Welcome.phase := Welcome.calibrate; Welcome.bodyDetected := true;
                  Welcome.challengeIdx := 2; Welcome.feedback := None;
                  Welcome.shownProgress := 0; Welcome.holdStartRef := None;
                  Welcome.challengeStartRef := 1000; Welcome.phaseTimerRef := false;
                  Welcome.feedbackTimerRef := false; Welcome.advancingRef := false |} in
  exists shown after,
    Welcome.handle (Welcome.Ticked 9200) scene = Some shown
    /\ Welcome.handle (Welcome.FeedbackShown 10400) shown = Some after
    /\ Welcome.phase after = Welcome.ready.
Proof.
  cbv zeta.
  edestruct (timeout_ends_a_challenge
               {| Welcome.phase := Welcome.calibrate; Welcome.bodyDetected := true;
                  Welcome.challengeIdx := 2; Welcome.feedback := None;
                  Welcome.shownProgress := 0; Welcome.holdStartRef := None;
                  Welcome.challengeStartRef := 1000; Welcome.phaseTimerRef := false;
                  Welcome.feedbackTimerRef := false; Welcome.advancingRef := false |}
               {| id := 3; targetGesture := DUCK; holdMs := 0; timeoutMs := 8000 |}
               (Welcome.Ticked 9200) 9200 10400)
    as (shown & after & H1 & _ & _ & H2 & _ & _ & _ & R);
    [reflexivity | reflexivity | reflexivity | reflexivity | right; reflexivity |].
  exists shown, after. split; [exact H1 | split; [exact H2|]].
  apply R. cbn. lia.
Defined.

(** * The game *)

(** Reads of the game runtime, and the steps that build a runtime from the
    fields of another. *)
Ltac game_fields :=
  cbn [Game.dinoY Game.dinoVelocity Game.ducking Game.speed Game.score Game.health
       Game.invincibleTimer Game.healTimer Game.obstacles Game.spawnTimer
       Game.nextSpawnDelay Game.stars Game.runtime Game.input Game.obstacleId
       Game.lastTick Game.jumpQueued Game.duckPressed Game.poseDuckActive fst snd] in *.

Ltac game_steps :=
  cbn [Game.updateTimers Game.moveDino Game.gainSpeed Game.moveObstacles Game.gainScore
       Game.updateStars Game.consumeJump
       Game.dinoY Game.dinoVelocity Game.ducking Game.speed Game.score Game.health
       Game.invincibleTimer Game.healTimer Game.obstacles Game.spawnTimer
       Game.nextSpawnDelay Game.stars Game.runtime Game.input Game.obstacleId
       Game.lastTick Game.jumpQueued Game.duckPressed Game.poseDuckActive fst snd].

Lemma clamp_bounds (value min max : Q) :
  min <= max -> min <= Game.clamp value min max <= max.
Proof.
  intro L. unfold Game.clamp. split.
  - apply Q.le_max_l.
  - apply Q.max_lub; [exact L | apply Q.le_min_l].
Qed.

Lemma frameDt_bounds (lastTick : option Q) (timestamp : Q) :
  0 <= Game.frameDt lastTick timestamp <= 0.05.
Proof. unfold Game.frameDt. cbv zeta. apply clamp_bounds. lra. Qed.

(** ** The steps of a played tick *)

(** The spawn step: the fields it leaves, and what it does to the timer,
    the obstacles and the counter. *)
Lemma spawn_effect (dt : Q) (draws : Game.Draws) (nextId : nat) (state : Game.RuntimeState) :
  let spawned := Game.spawn dt draws nextId state in
  let timer := Game.spawnTimer state + dt in
  (Game.dinoY (fst spawned) = Game.dinoY state
   /\ Game.dinoVelocity (fst spawned) = Game.dinoVelocity state
   /\ Game.ducking (fst spawned) = Game.ducking state
   /\ Game.speed (fst spawned) = Game.speed state
   /\ Game.score (fst spawned) = Game.score state
   /\ Game.health (fst spawned) = Game.health state
   /\ Game.invincibleTimer (fst spawned) = Game.invincibleTimer state
   /\ Game.healTimer (fst spawned) = Game.healTimer state
   /\ Game.stars (fst spawned) = Game.stars state)
  /\ ((timer < Game.nextSpawnDelay state
       /\ Game.spawnTimer (fst spawned) = timer
       /\ Game.nextSpawnDelay (fst spawned) = Game.nextSpawnDelay state
       /\ Game.obstacles (fst spawned) = Game.obstacles state
       /\ snd spawned = nextId)
      \/ (Game.nextSpawnDelay state <= timer
          /\ Game.spawnTimer (fst spawned) = 0
          /\ Game.nextSpawnDelay (fst spawned)
             = Game.randomInRange (Game.delayDraw draws)
                 (fst (Game.getSpawnDelay (Game.score state)))
                 (snd (Game.getSpawnDelay (Game.score state)))
          /\ Game.obstacles (fst spawned)
             = Game.obstacles state ++ [Game.newObstacle draws nextId (Game.score state)]
          /\ snd spawned = S nextId)).
Proof.
  cbv zeta. unfold Game.spawn. cbv zeta.
  destruct (Qgeb (Game.spawnTimer state + dt) (Game.nextSpawnDelay state)) eqn:G.
  - apply Qgeb_ge in G. destruct (Game.getSpawnDelay (Game.score state)) as [lo hi].
    game_fields. split; [repeat apply conj; reflexivity|].
    right. repeat apply conj; try reflexivity. exact G.
  - apply Qgeb_false in G. game_fields. split; [repeat apply conj; reflexivity|].
    left. repeat apply conj; try reflexivity. exact G.
Qed.

(** The runtime that enters the collision, from the one that the tick
    starts with. *)
Lemma entering_fields (dt : Q) (draws : Game.Draws) (play : Game.Play) :
  let state := Game.runtime play in
  let entered := entering dt draws play in
  Game.dinoY entered = Game.dinoY (Game.moveDino dt (Game.input play) state)
  /\ Game.dinoVelocity entered = Game.dinoVelocity (Game.moveDino dt (Game.input play) state)
  /\ Game.ducking entered = Game.ducking (Game.moveDino dt (Game.input play) state)
  /\ Game.speed entered
     = Game.clamp (Game.speed state + Game.getSpeedGain (Game.score state) * dt)
         Game.BASE_SPEED Game.MAX_SPEED
  /\ Game.score entered = Game.score state
  /\ Game.health entered = Game.health (Game.updateTimers dt state)
  /\ Game.invincibleTimer entered = Qmax 0 (Game.invincibleTimer state - dt)
  /\ Game.healTimer entered = Game.healTimer (Game.updateTimers dt state)
  /\ Game.stars entered = Game.stars state.
Proof.
  cbv zeta. unfold entering.
  set (state := Game.runtime play).
  set (sped := Game.gainSpeed dt (Game.moveDino dt (Game.input play)
                                    (Game.updateTimers dt state))).
  destruct (spawn_effect dt draws (Game.obstacleId play) sped)
    as ((K1 & K2 & K3 & K4 & K5 & K6 & K7 & K8 & K9) & _).
  cbv zeta in K1, K2, K3, K4, K5, K6, K7, K8, K9.
  set (spawned := fst (Game.spawn dt draws (Game.obstacleId play) sped)) in *.
  clearbody spawned. game_steps.
  rewrite K1, K2, K3, K4, K5, K6, K7, K8, K9. subst sped. clear.
  clearbody state. game_steps. repeat apply conj; reflexivity.
Qed.

(** The spawn of a played tick. *)
Lemma entering_spawn (dt : Q) (draws : Game.Draws) (play : Game.Play) :
  let state := Game.runtime play in
  let entered := entering dt draws play in
  let timer := Game.spawnTimer state + dt in
  let spawned :=
    Game.spawn dt draws (Game.obstacleId play)
      (Game.gainSpeed dt (Game.moveDino dt (Game.input play) (Game.updateTimers dt state))) in
  let onCanvas (obstacle : Game.Obstacle.Obstacle) :=
    Qgtb (Game.Obstacle.x obstacle + Game.Obstacle.width obstacle) (-20) in
  (timer < Game.nextSpawnDelay state
   /\ Game.spawnTimer entered = timer
   /\ Game.nextSpawnDelay entered = Game.nextSpawnDelay state
   /\ Game.obstacles entered
      = filter onCanvas (map (Game.shift (Game.speed entered * dt)) (Game.obstacles state))
   /\ snd spawned = Game.obstacleId play)
  \/ (Game.nextSpawnDelay state <= timer
      /\ Game.spawnTimer entered = 0
      /\ Game.nextSpawnDelay entered
         = Game.randomInRange (Game.delayDraw draws)
             (fst (Game.getSpawnDelay (Game.score state)))
             (snd (Game.getSpawnDelay (Game.score state)))
      /\ Game.obstacles entered
         = filter onCanvas
             (map (Game.shift (Game.speed entered * dt))
                (Game.obstacles state
                 ++ [Game.newObstacle draws (Game.obstacleId play) (Game.score state)]))
      /\ snd spawned = S (Game.obstacleId play)).
Proof.
  cbv zeta. unfold entering.
  set (state := Game.runtime play).
  set (sped := Game.gainSpeed dt (Game.moveDino dt (Game.input play)
                                    (Game.updateTimers dt state))).
  assert (Es : Game.spawnTimer sped = Game.spawnTimer state
               /\ Game.nextSpawnDelay sped = Game.nextSpawnDelay state
               /\ Game.obstacles sped = Game.obstacles state
               /\ Game.score sped = Game.score state).
  { subst sped. clearbody state. game_steps. repeat apply conj; reflexivity. }
  destruct Es as (E1 & E2 & E3 & E4).
  destruct (spawn_effect dt draws (Game.obstacleId play) sped) as (_ & K).
  cbv zeta in K. rewrite E1, E2, E3, E4 in K. clearbody sped.
  set (spawned := Game.spawn dt draws (Game.obstacleId play) sped) in *.
  clearbody spawned. game_steps.
  destruct K as [(T & K1 & K2 & K3 & K4) | (T & K1 & K2 & K3 & K4)];
    rewrite K1, K2, K3, K4; [left | right]; repeat apply conj; try reflexivity; exact T.
Qed.

(** The collision. *)
Lemma collide_cases (draws : Game.Draws) (state : Game.RuntimeState) :
  let collided := Game.collide draws state in
  let found :=
    Game.collidedObstacle (Game.getDinoRect state) (Game.invincibleTimer state)
      (Game.obstacles state) in
  (Game.dinoY (fst collided) = Game.dinoY state
   /\ Game.dinoVelocity (fst collided) = Game.dinoVelocity state
   /\ Game.ducking (fst collided) = Game.ducking state
   /\ Game.speed (fst collided) = Game.speed state
   /\ Game.score (fst collided) = Game.score state
   /\ Game.spawnTimer (fst collided) = Game.spawnTimer state
   /\ Game.nextSpawnDelay (fst collided) = Game.nextSpawnDelay state)
  /\ ((found = None
       /\ Game.health (fst collided) = Game.health state
       /\ Game.invincibleTimer (fst collided) = Game.invincibleTimer state
       /\ Game.healTimer (fst collided) = Game.healTimer state
       /\ Game.obstacles (fst collided) = Game.obstacles state
       /\ Game.stars (fst collided) = Game.stars state
       /\ snd collided = false)
      \/ (exists hit,
            found = Some hit
            /\ Game.health (fst collided) = Z.max 0 (Game.health state - 1)
            /\ Game.invincibleTimer (fst collided) = Game.HIT_INVINCIBLE_SECONDS
            /\ Game.healTimer (fst collided) = 0
            /\ Game.obstacles (fst collided)
               = filter (fun obstacle => negb (Game.Obstacle.id obstacle =? hit)%nat)
                   (Game.obstacles state)
            /\ Game.stars (fst collided) = Game.crashStars draws
            /\ snd collided = (Z.max 0 (Game.health state - 1) <=? 0)%Z)).
Proof.
  cbv zeta. unfold Game.collide.
  destruct (Game.collidedObstacle _ _ _) as [hit|]; game_fields.
  - split; [repeat apply conj; reflexivity|]. right. exists hit.
    repeat apply conj; reflexivity.
  - split; [repeat apply conj; reflexivity|]. left. repeat apply conj; reflexivity.
Qed.

(** A played tick is the collision of the runtime that enters it, and the
    score. *)
Lemma updatePlaying_result (dt : Q) (draws : Game.Draws) (play : Game.Play) :
  let collided := Game.collide draws (entering dt draws play) in
  let spawned :=
    Game.spawn dt draws (Game.obstacleId play)
      (Game.gainSpeed dt
         (Game.moveDino dt (Game.input play) (Game.updateTimers dt (Game.runtime play)))) in
  Game.runtime (fst (Game.updatePlaying dt draws play)) = Game.gainScore dt (fst collided)
  /\ snd (Game.updatePlaying dt draws play) = snd collided
  /\ Game.input (fst (Game.updatePlaying dt draws play)) = Game.consumeJump (Game.input play)
  /\ Game.obstacleId (fst (Game.updatePlaying dt draws play)) = snd spawned
  /\ Game.lastTick (fst (Game.updatePlaying dt draws play)) = Game.lastTick play.
Proof.
  cbv zeta. unfold Game.updatePlaying, entering. cbv zeta.
  destruct (Game.spawn _ _ _ _) as [s n]. cbn [fst snd].
  destruct (Game.collide _ _) as [c o]. repeat apply conj; reflexivity.
Qed.

(** The collision and the score, on the runtime that enters them. *)
Lemma scored_cases (dt : Q) (draws : Game.Draws) (entered : Game.RuntimeState) :
  let after := Game.gainScore dt (fst (Game.collide draws entered)) in
  let over := snd (Game.collide draws entered) in
  let found :=
    Game.collidedObstacle (Game.getDinoRect entered) (Game.invincibleTimer entered)
      (Game.obstacles entered) in
  (Game.dinoY after = Game.dinoY entered
   /\ Game.dinoVelocity after = Game.dinoVelocity entered
   /\ Game.ducking after = Game.ducking entered
   /\ Game.speed after = Game.speed entered
   /\ Game.score after = Game.score entered + dt * 34
   /\ Game.spawnTimer after = Game.spawnTimer entered
   /\ Game.nextSpawnDelay after = Game.nextSpawnDelay entered)
  /\ ((found = None
       /\ Game.health after = Game.health entered
       /\ Game.invincibleTimer after = Game.invincibleTimer entered
       /\ Game.healTimer after = Game.healTimer entered
       /\ Game.obstacles after = Game.obstacles entered
       /\ Game.stars after = Game.stars entered
       /\ over = false)
      \/ (exists hit,
            found = Some hit
            /\ Game.health after = Z.max 0 (Game.health entered - 1)
            /\ Game.invincibleTimer after = Game.HIT_INVINCIBLE_SECONDS
            /\ Game.healTimer after = 0
            /\ Game.obstacles after
               = filter (fun obstacle => negb (Game.Obstacle.id obstacle =? hit)%nat)
                   (Game.obstacles entered)
            /\ Game.stars after = Game.crashStars draws
            /\ over = (Z.max 0 (Game.health entered - 1) <=? 0)%Z)).
Proof.
  cbv zeta. pose proof (collide_cases draws entered) as C. cbv zeta in C.
  set (collided := Game.collide draws entered) in *. clearbody collided.
  game_steps. destruct C as (Keeps & Cases).
  destruct Keeps as (K1 & K2 & K3 & K4 & K5 & K6 & K7).
  rewrite K1, K2, K3, K4, K5, K6, K7.
  split; [repeat apply conj; reflexivity | exact Cases].
Qed.

(** The runtime after a played tick, from the one that enters the
    collision. *)
Lemma updatePlaying_cases (dt : Q) (draws : Game.Draws) (play : Game.Play) :
  let entered := entering dt draws play in
  let after := Game.runtime (fst (Game.updatePlaying dt draws play)) in
  let over := snd (Game.updatePlaying dt draws play) in
  let found :=
    Game.collidedObstacle (Game.getDinoRect entered) (Game.invincibleTimer entered)
      (Game.obstacles entered) in
  (Game.dinoY after = Game.dinoY entered
   /\ Game.dinoVelocity after = Game.dinoVelocity entered
   /\ Game.ducking after = Game.ducking entered
   /\ Game.speed after = Game.speed entered
   /\ Game.score after = Game.score entered + dt * 34
   /\ Game.spawnTimer after = Game.spawnTimer entered
   /\ Game.nextSpawnDelay after = Game.nextSpawnDelay entered)
  /\ ((found = None
       /\ Game.health after = Game.health entered
       /\ Game.invincibleTimer after = Game.invincibleTimer entered
       /\ Game.healTimer after = Game.healTimer entered
       /\ Game.obstacles after = Game.obstacles entered
       /\ Game.stars after = Game.stars entered
       /\ over = false)
      \/ (exists hit,
            found = Some hit
            /\ Game.health after = Z.max 0 (Game.health entered - 1)
            /\ Game.invincibleTimer after = Game.HIT_INVINCIBLE_SECONDS
            /\ Game.healTimer after = 0
            /\ Game.obstacles after
               = filter (fun obstacle => negb (Game.Obstacle.id obstacle =? hit)%nat)
                   (Game.obstacles entered)
            /\ Game.stars after = Game.crashStars draws
            /\ over = (Z.max 0 (Game.health entered - 1) <=? 0)%Z)).
Proof.
  destruct (updatePlaying_result dt draws play) as (Er & Eo & _).
  cbv zeta. rewrite Er, Eo.
  exact (scored_cases dt draws (entering dt draws play)).
Qed.

(** What the end of [update] leaves of the play that it is given. *)
Lemma update_of (dt timestamp : Q) (crashed : bool) (result : Game.Play * bool) :
  let after :=
    fst (let (play, over) := result in
         let state := Game.runtime play in
         let state :=
           if crashed || (0 <? length (Game.stars state))%nat
           then Game.updateStars dt state else state in
         ({| Game.runtime := state;
             Game.input := Game.input play;
             Game.obstacleId := Game.obstacleId play;
             Game.lastTick := Some timestamp |}, over)) in
  let played := fst result in
  Game.input after = Game.input played
  /\ Game.obstacleId after = Game.obstacleId played
  /\ Game.lastTick after = Some timestamp
  /\ Game.dinoY (Game.runtime after) = Game.dinoY (Game.runtime played)
  /\ Game.dinoVelocity (Game.runtime after) = Game.dinoVelocity (Game.runtime played)
  /\ Game.ducking (Game.runtime after) = Game.ducking (Game.runtime played)
  /\ Game.speed (Game.runtime after) = Game.speed (Game.runtime played)
  /\ Game.score (Game.runtime after) = Game.score (Game.runtime played)
  /\ Game.health (Game.runtime after) = Game.health (Game.runtime played)
  /\ Game.invincibleTimer (Game.runtime after) = Game.invincibleTimer (Game.runtime played)
  /\ Game.healTimer (Game.runtime after) = Game.healTimer (Game.runtime played)
  /\ Game.obstacles (Game.runtime after) = Game.obstacles (Game.runtime played)
  /\ Game.spawnTimer (Game.runtime after) = Game.spawnTimer (Game.runtime played)
  /\ Game.nextSpawnDelay (Game.runtime after) = Game.nextSpawnDelay (Game.runtime played).
Proof.
  cbv zeta. destruct result as [p o]. game_fields.
  destruct (_ || _); game_steps; repeat apply conj; reflexivity.
Qed.

(** The update of a tick, by the status of its callback. *)
Lemma update_runtime (status : Game.GameStatus) (timestamp : Q) (draws : Game.Draws)
    (play : Game.Play) :
  let dt := Game.frameDt (Game.lastTick play) timestamp in
  let played := if Game.isPlaying status then fst (Game.updatePlaying dt draws play) else play in
  let after := fst (Game.update status timestamp draws play) in
  Game.input after = Game.input played
  /\ Game.obstacleId after = Game.obstacleId played
  /\ Game.lastTick after = Some timestamp
  /\ Game.dinoY (Game.runtime after) = Game.dinoY (Game.runtime played)
  /\ Game.dinoVelocity (Game.runtime after) = Game.dinoVelocity (Game.runtime played)
  /\ Game.ducking (Game.runtime after) = Game.ducking (Game.runtime played)
  /\ Game.speed (Game.runtime after) = Game.speed (Game.runtime played)
  /\ Game.score (Game.runtime after) = Game.score (Game.runtime played)
  /\ Game.health (Game.runtime after) = Game.health (Game.runtime played)
  /\ Game.invincibleTimer (Game.runtime after) = Game.invincibleTimer (Game.runtime played)
  /\ Game.healTimer (Game.runtime after) = Game.healTimer (Game.runtime played)
  /\ Game.obstacles (Game.runtime after) = Game.obstacles (Game.runtime played)
  /\ Game.spawnTimer (Game.runtime after) = Game.spawnTimer (Game.runtime played)
  /\ Game.nextSpawnDelay (Game.runtime after) = Game.nextSpawnDelay (Game.runtime played).
Proof.
  cbv zeta.
  pose proof (update_of (Game.frameDt (Game.lastTick play) timestamp) timestamp
                (Game.isCrashed status)
                (if Game.isPlaying status
                 then Game.updatePlaying (Game.frameDt (Game.lastTick play) timestamp) draws play
                 else (play, false))) as K.
  cbv zeta in K.
  replace (fst (if Game.isPlaying status
                then Game.updatePlaying (Game.frameDt (Game.lastTick play) timestamp) draws play
                else (play, false)))
    with (if Game.isPlaying status
          then fst (Game.updatePlaying (Game.frameDt (Game.lastTick play) timestamp) draws play)
          else play) in K by (destruct (Game.isPlaying status); reflexivity).
  exact K.
Qed.

(** The tick ends the game when it is played and [updatePlaying] says so. *)
Lemma update_over (status : Game.GameStatus) (timestamp : Q) (draws : Game.Draws)
    (play : Game.Play) :
  snd (Game.update status timestamp draws play)
  = (if Game.isPlaying status
     then snd (Game.updatePlaying (Game.frameDt (Game.lastTick play) timestamp) draws play)
     else false).
Proof.
  unfold Game.update. cbv zeta.
  destruct (Game.isPlaying status).
  - destruct (Game.updatePlaying _ _ _) as [p o]. reflexivity.
  - reflexivity.
Qed.

Lemma update_health (status : Game.GameStatus) (timestamp : Q) (draws : Game.Draws)
    (play : Game.Play) :
  let dt := Game.frameDt (Game.lastTick play) timestamp in
  Game.health (Game.runtime (fst (Game.update status timestamp draws play)))
  = if Game.isPlaying status
    then Game.health (Game.runtime (fst (Game.updatePlaying dt draws play)))
    else Game.health (Game.runtime play).
Proof.
  cbv zeta.
  destruct (update_runtime status timestamp draws play)
    as (_ & _ & _ & _ & _ & _ & _ & _ & E & _).
  cbv zeta in E. rewrite E. destruct (Game.isPlaying status); reflexivity.
Qed.

Lemma update_speed (status : Game.GameStatus) (timestamp : Q) (draws : Game.Draws)
    (play : Game.Play) :
  let dt := Game.frameDt (Game.lastTick play) timestamp in
  Game.speed (Game.runtime (fst (Game.update status timestamp draws play)))
  = if Game.isPlaying status
    then Game.speed (Game.runtime (fst (Game.updatePlaying dt draws play)))
    else Game.speed (Game.runtime play).
Proof.
  cbv zeta.
  destruct (update_runtime status timestamp draws play)
    as (_ & _ & _ & _ & _ & _ & E & _).
  cbv zeta in E. rewrite E. destruct (Game.isPlaying status); reflexivity.
Qed.

Lemma update_invincibleTimer (status : Game.GameStatus) (timestamp : Q) (draws : Game.Draws)
    (play : Game.Play) :
  let dt := Game.frameDt (Game.lastTick play) timestamp in
  Game.invincibleTimer (Game.runtime (fst (Game.update status timestamp draws play)))
  = if Game.isPlaying status
    then Game.invincibleTimer (Game.runtime (fst (Game.updatePlaying dt draws play)))
    else Game.invincibleTimer (Game.runtime play).
Proof.
  cbv zeta.
  destruct (update_runtime status timestamp draws play)
    as (_ & _ & _ & _ & _ & _ & _ & _ & _ & E & _).
  cbv zeta in E. rewrite E. destruct (Game.isPlaying status); reflexivity.
Qed.

Lemma update_obstacles (status : Game.GameStatus) (timestamp : Q) (draws : Game.Draws)
    (play : Game.Play) :
  let dt := Game.frameDt (Game.lastTick play) timestamp in
  let played := if Game.isPlaying status then fst (Game.updatePlaying dt draws play) else play in
  Game.obstacles (Game.runtime (fst (Game.update status timestamp draws play)))
  = Game.obstacles (Game.runtime played)
  /\ Game.obstacleId (fst (Game.update status timestamp draws play)) = Game.obstacleId played.
Proof.
  cbv zeta.
  destruct (update_runtime status timestamp draws play)
    as (_ & Ei & _ & _ & _ & _ & _ & _ & _ & _ & _ & Eo & _).
  cbv zeta in Ei, Eo. split; assumption.
Qed.

Lemma update_spawn (status : Game.GameStatus) (timestamp : Q) (draws : Game.Draws)
    (play : Game.Play) :
  let dt := Game.frameDt (Game.lastTick play) timestamp in
  let played := if Game.isPlaying status then fst (Game.updatePlaying dt draws play) else play in
  let after := fst (Game.update status timestamp draws play) in
  Game.spawnTimer (Game.runtime after) = Game.spawnTimer (Game.runtime played)
  /\ Game.nextSpawnDelay (Game.runtime after) = Game.nextSpawnDelay (Game.runtime played)
  /\ Game.obstacleId after = Game.obstacleId played.
Proof.
  cbv zeta.
  destruct (update_runtime status timestamp draws play)
    as (_ & Ei & _ & _ & _ & _ & _ & _ & _ & _ & _ & _ & Et & En).
  cbv zeta in Ei, Et, En. repeat apply conj; assumption.
Qed.

(** ** Health *)

Lemma updateTimers_health (dt : Q) (state : Game.RuntimeState) :
  let before := Game.health state in
  let healed := Game.health (Game.updateTimers dt state) in
  (healed = before \/ (before < Game.MAX_HEALTH /\ healed = before + 1))%Z.
Proof.
  cbv zeta. unfold Game.updateTimers. cbv zeta. game_fields.
  destruct (Z.ltb_spec (Game.health state) Game.MAX_HEALTH); cbn [andb].
  - destruct (Qgeb _ _); [right; split; [assumption | reflexivity] | left; reflexivity].
  - left. reflexivity.
Qed.

(** The health after a played tick: the automatic heal, then the hit. *)
Lemma updatePlaying_health (dt : Q) (draws : Game.Draws) (play : Game.Play) :
  let before := Game.health (Game.runtime play) in
  let healed := Game.health (Game.updateTimers dt (Game.runtime play)) in
  let after := Game.health (Game.runtime (fst (Game.updatePlaying dt draws play))) in
  (healed = before \/ (before < Game.MAX_HEALTH /\ healed = before + 1))%Z
  /\ (after = healed \/ after = Z.max 0 (healed - 1))%Z.
Proof.
  cbv zeta. split; [apply updateTimers_health|].
  destruct (updatePlaying_cases dt draws play) as (_ & Cases). cbv zeta in Cases.
  destruct (entering_fields dt draws play) as (_ & _ & _ & _ & _ & Eh & _). cbv zeta in Eh.
  rewrite <- Eh.
  destruct Cases as [(_ & H & _) | (hit & _ & H & _)]; rewrite H; [left | right]; reflexivity.
Qed.

(** X13: the health stays between zero and the five hearts whatever the
    ticks are, and a tick changes it by one at most. *)
Theorem health_stays_in_range :
  (forall ticks play,
     (0 <= Game.health (Game.runtime play) <= Game.MAX_HEALTH)%Z ->
     (0 <= Game.health (Game.runtime (Game.updates ticks play)) <= Game.MAX_HEALTH)%Z)
  /\ (forall status timestamp draws play,
        (0 <= Game.health (Game.runtime play))%Z ->
        let after := Game.health (Game.runtime (fst (Game.update status timestamp draws play))) in
        (Game.health (Game.runtime play) - 1 <= after <= Game.health (Game.runtime play) + 1)%Z).
Proof.
  assert (Step : forall status timestamp draws play,
             let before := Game.health (Game.runtime play) in
             let after :=
               Game.health (Game.runtime (fst (Game.update status timestamp draws play))) in
             (0 <= before ->
              (before - 1 <= after <= before + 1)
              /\ (before <= Game.MAX_HEALTH -> 0 <= after <= Game.MAX_HEALTH))%Z).
  { intros status timestamp draws play. cbv zeta. intro P.
    rewrite update_health. destruct (Game.isPlaying status); [|lia].
    pose proof (updatePlaying_health (Game.frameDt (Game.lastTick play) timestamp) draws play)
      as K. cbv zeta in K. unfold Game.MAX_HEALTH in *. lia. }
  split.
  - induction ticks as [|[[status timestamp] draws] ticks IH]; intros play H;
      cbn [Game.updates].
    + exact H.
    + apply IH. apply Step; lia.
  - intros status timestamp draws play P. apply Step. exact P.
Qed.

Lemma health_stays_in_range_witness :
  (0 <= Game.health
          (Game.runtime (Game.updates [(Game.playing, 16%Q, lowDraws); (Game.playing, 32%Q, lowDraws)]
                           playAtCactus))
   <= Game.MAX_HEALTH)%Z.
Proof.
  destruct health_stays_in_range as (Range & _).
  apply (Range [(Game.playing, 16%Q, lowDraws); (Game.playing, 32%Q, lowDraws)] playAtCactus).
  vm_compute. split; discriminate.
Defined.

(** ** Speed *)

Lemma getSpeedGain_positive (score : Q) : 0 < Game.getSpeedGain score.
Proof. unfold Game.getSpeedGain. repeat break_inner; reflexivity. Qed.

(** The steps after the speed gain leave the speed. *)
Lemma updatePlaying_speed (dt : Q) (draws : Game.Draws) (play : Game.Play) :
  Game.speed (Game.runtime (fst (Game.updatePlaying dt draws play)))
  = Game.clamp (Game.speed (Game.runtime play)
                + Game.getSpeedGain (Game.score (Game.runtime play)) * dt)
      Game.BASE_SPEED Game.MAX_SPEED.
Proof.
  destruct (updatePlaying_cases dt draws play) as ((_ & _ & _ & Es & _) & _). cbv zeta in Es.
  destruct (entering_fields dt draws play) as (_ & _ & _ & E & _). cbv zeta in E.
  rewrite Es. exact E.
Qed.

(** X14: a played tick leaves the speed between the base speed and the top
    speed, and over any ticks the speed never drops. *)
Theorem speed_never_drops :
  (forall timestamp draws play,
     let after := Game.speed (Game.runtime (fst (Game.update Game.playing timestamp draws play))) in
     Game.BASE_SPEED <= after <= Game.MAX_SPEED)
  /\ (forall ticks play,
        Game.BASE_SPEED <= Game.speed (Game.runtime play) <= Game.MAX_SPEED ->
        let after := Game.speed (Game.runtime (Game.updates ticks play)) in
        Game.speed (Game.runtime play) <= after <= Game.MAX_SPEED).
Proof.
  split.
  - intros timestamp draws play. cbv zeta. rewrite update_speed. cbn [Game.isPlaying].
    rewrite updatePlaying_speed. apply clamp_bounds. discriminate.
  - induction ticks as [|[[status timestamp] draws] ticks IH]; intros play H;
      cbn [Game.updates].
    + cbv zeta. lra.
    + assert (K : Game.speed (Game.runtime play)
                  <= Game.speed (Game.runtime (fst (Game.update status timestamp draws play)))
                  <= Game.MAX_SPEED).
      { rewrite update_speed. destruct (Game.isPlaying status); [|lra].
        rewrite updatePlaying_speed.
        pose proof (frameDt_bounds (Game.lastTick play) timestamp) as (D & _).
        pose proof (getSpeedGain_positive (Game.score (Game.runtime play))) as G.
        set (dt := Game.frameDt _ _) in *. set (gain := Game.getSpeedGain _) in *.
        assert (P : 0 <= gain * dt) by (apply Qmult_le_0_compat; lra).
        split; [|apply clamp_bounds; discriminate].
        unfold Game.clamp. apply Q.max_le_iff. right. apply Q.min_glb; lra. }
      specialize (IH (fst (Game.update status timestamp draws play))).
      cbv zeta in IH. unfold Game.BASE_SPEED in *.
      assert (R : 150 <= Game.speed (Game.runtime (fst (Game.update status timestamp draws play)))
                  <= Game.MAX_SPEED) by lra.
      specialize (IH R). cbv zeta. lra.
Qed.

Lemma speed_never_drops_witness :
  Game.speed (Game.runtime freshPlay)
  <= Game.speed (Game.runtime (Game.updates [(Game.playing, 16%Q, lowDraws);
                                             (Game.crashed, 32%Q, lowDraws)] freshPlay))
  <= Game.MAX_SPEED.
Proof.
  destruct speed_never_drops as (_ & Grows).
  apply (Grows [(Game.playing, 16%Q, lowDraws); (Game.crashed, 32%Q, lowDraws)] freshPlay).
  vm_compute. split; discriminate.
Defined.

(** ** The dino *)

(** The timers leave the dino. *)
Lemma moveDino_updateTimers (dt : Q) (input : Game.Input) (state : Game.RuntimeState) :
  let moved := Game.moveDino dt input state in
  let after := Game.moveDino dt input (Game.updateTimers dt state) in
  Game.dinoY after = Game.dinoY moved
  /\ Game.dinoVelocity after = Game.dinoVelocity moved
  /\ Game.ducking after = Game.ducking moved.
Proof.
  cbv zeta. unfold Game.moveDino. cbv zeta. game_steps. repeat apply conj; reflexivity.
Qed.

(** The dino after a played tick is the one that [moveDino] leaves. *)
Lemma updatePlaying_dino (dt : Q) (draws : Game.Draws) (play : Game.Play) :
  let moved := Game.moveDino dt (Game.input play) (Game.runtime play) in
  let after := Game.runtime (fst (Game.updatePlaying dt draws play)) in
  Game.dinoY after = Game.dinoY moved
  /\ Game.dinoVelocity after = Game.dinoVelocity moved
  /\ Game.ducking after = Game.ducking moved.
Proof.
  cbv zeta.
  destruct (updatePlaying_cases dt draws play) as ((Ay & Av & Ad & _) & _).
  cbv zeta in Ay, Av, Ad.
  destruct (entering_fields dt draws play) as (Ey & Ev & Ed & _). cbv zeta in Ey, Ev, Ed.
  rewrite Ay, Av, Ad, Ey, Ev, Ed. repeat apply conj; reflexivity.
Qed.

Lemma update_dino (status : Game.GameStatus) (timestamp : Q) (draws : Game.Draws)
    (play : Game.Play) :
  let dt := Game.frameDt (Game.lastTick play) timestamp in
  let moved := if Game.isPlaying status
               then Game.moveDino dt (Game.input play) (Game.runtime play)
               else Game.runtime play in
  let after := Game.runtime (fst (Game.update status timestamp draws play)) in
  Game.dinoY after = Game.dinoY moved
  /\ Game.dinoVelocity after = Game.dinoVelocity moved
  /\ Game.ducking after = Game.ducking moved.
Proof.
  cbv zeta.
  pose proof (updatePlaying_dino (Game.frameDt (Game.lastTick play) timestamp) draws play) as P.
  cbv zeta in P. destruct P as (Py & Pv & Pd).
  destruct (update_runtime status timestamp draws play)
    as (_ & _ & _ & Ey & Ev & Ed & _).
  cbv zeta in Ey, Ev, Ed. rewrite Ey, Ev, Ed.
  destruct (Game.isPlaying status); repeat apply conj; auto.
Qed.
Lemma moveDino_onScreen (dt : Q) (input : Game.Input) (state : Game.RuntimeState) :
  0 <= dt <= 0.05 -> dinoOnScreen state -> dinoOnScreen (Game.moveDino dt input state).
Proof.
  intros (D0 & D1) (R & F). unfold dinoOnScreen, jumpReserve in *.
  unfold Game.moveDino. cbv zeta. game_fields.
  set (ducks := (Game.duckPressed input || Game.poseDuckActive input) && _).
  set (y0 := Game.dinoY state) in *. set (v0 := Game.dinoVelocity state) in *.
  assert (Fl : (if ducks then Game.groundY - Game.DUCK_HEIGHT
                else Game.groundY - Game.NORMAL_HEIGHT)
               <= Game.groundY - Game.DUCK_HEIGHT
               /\ Game.groundY - Game.NORMAL_HEIGHT
                  <= (if ducks then Game.groundY - Game.DUCK_HEIGHT
                      else Game.groundY - Game.NORMAL_HEIGHT)).
  { destruct ducks; vm_compute; split; discriminate. }
  set (floorY := if ducks then _ else _) in *.
  assert (G : Game.groundY - Game.NORMAL_HEIGHT == 1014 # 5) by reflexivity.
  assert (Gd : Game.groundY - Game.DUCK_HEIGHT == 1184 # 5) by reflexivity.
  set (v1 := if Game.jumpQueued input && _ then _ else _).
  assert (R1 : (133 # 5) <= y0 - v1 * v1 / (2 * Game.GRAVITY) + (1 # 40) * v1).
  { subst v1. destruct (Game.jumpQueued input); cbn [andb]; [|exact R].
    destruct (Qgeb y0 (Game.groundY - Game.NORMAL_HEIGHT - 0.5)) eqn:C; [|exact R].
    apply Qgeb_ge in C.
    assert (K : Game.JUMP_FORCE * Game.JUMP_FORCE / (2 * Game.GRAVITY) == 961 # 6)
      by reflexivity.
    rewrite K. unfold Game.JUMP_FORCE.
    assert (C' : (1014 # 5) - 0.5 <= y0) by (rewrite <- G; exact C).
    lra. }
  clearbody v1. unfold Game.GRAVITY in *.
  destruct (Qgtb (y0 + v1 * dt) floorY) eqn:L.
  - (* landed *)
    split; [|tauto].
    assert (Z0 : 0 * 0 / (2 * 1200) == 0) by reflexivity.
    rewrite Z0. lra.
  - apply Qgtb_false in L. split; [|lra].
    assert (P : 0 <= dt * (0.05 - dt)) by (apply Qmult_le_0_compat; lra).
    assert (E : y0 + v1 * dt - (v1 + 1200 * dt) * (v1 + 1200 * dt) / (2 * 1200)
                + (1 # 40) * (v1 + 1200 * dt)
                == (y0 - v1 * v1 / (2 * 1200) + (1 # 40) * v1) + 600 * (dt * (0.05 - dt)))
      by field.
    rewrite E. lra.
Qed.

Lemma square_nonneg (a : Q) : 0 <= a * a.
Proof.
  destruct (Qlt_le_dec a 0) as [N|P].
  - assert (E : a * a == (- a) * (- a)) by ring.
    rewrite E. apply Qmult_le_0_compat; lra.
  - apply Qmult_le_0_compat; exact P.
Qed.

Lemma onScreen_height (state : Game.RuntimeState) :
  dinoOnScreen state -> 26 < Game.dinoY state.
Proof.
  intros (R & _). unfold jumpReserve, Game.GRAVITY in R.
  set (y0 := Game.dinoY state) in *. set (v0 := Game.dinoVelocity state) in *.
  pose proof (square_nonneg (v0 - 30)) as Sq.
  assert (E : y0 - v0 * v0 / (2 * 1200) + (1 # 40) * v0
              == y0 - (1 # 2400) * ((v0 - 30) * (v0 - 30)) + (3 # 8)) by field.
  rewrite E in R. lra.
Qed.


(** X15: once the dino is on the screen it stays there whatever the ticks
    and the inputs are: it never rises above 26 pixels from the top of
    the canvas and never sinks below the floor of a duck. *)
Theorem dino_stays_on_screen (ticks : list (Game.GameStatus * Q * Game.Draws))
    (play : Game.Play) :
  dinoOnScreen (Game.runtime play) ->
  let after := Game.runtime (Game.updates ticks play) in
  dinoOnScreen after
  /\ 26 < Game.dinoY after <= Game.groundY - Game.DUCK_HEIGHT.
Proof.
  revert play. induction ticks as [|[[status timestamp] draws] ticks IH]; intros play H;
    cbn [Game.updates].
  - cbv zeta. split; [exact H|]. split; [apply onScreen_height; exact H | apply H].
  - apply IH.
    destruct (update_dino status timestamp draws play) as (Ey & Ev & _).
    unfold dinoOnScreen, jumpReserve in *. rewrite Ey, Ev.
    destruct (Game.isPlaying status); [|exact H].
    apply (moveDino_onScreen _ _ _ (frameDt_bounds _ _) H).
Qed.

Lemma dino_stays_on_screen_witness :
  dinoOnScreen (Game.runtime freshPlay)
  /\ 26 < Game.dinoY (Game.runtime (Game.updates [(Game.playing, 16%Q, lowDraws);
                                                  (Game.playing, 32%Q, lowDraws)]
                                      (withInput {| Game.jumpQueued := true;
                                                    Game.duckPressed := false;
                                                    Game.poseDuckActive := false |}
                                         freshPlay))).
Proof.
  assert (H : dinoOnScreen (Game.runtime freshPlay)) by (split; vm_compute; discriminate).
  split; [exact H|].
  apply (dino_stays_on_screen
           [(Game.playing, 16%Q, lowDraws); (Game.playing, 32%Q, lowDraws)]
           (withInput {| Game.jumpQueued := true; Game.duckPressed := false;
                         Game.poseDuckActive := false |} freshPlay) H).
Defined.

(** A play with another input that moves the dino the same way and leaves
    the same request is updated the same way. *)
Lemma updatePlaying_withInput (dt : Q) (draws : Game.Draws) (play : Game.Play)
    (input : Game.Input) :
  Game.moveDino dt (Game.input play) (Game.updateTimers dt (Game.runtime play))
  = Game.moveDino dt input (Game.updateTimers dt (Game.runtime play)) ->
  Game.consumeJump (Game.input play) = Game.consumeJump input ->
  Game.updatePlaying dt draws play = Game.updatePlaying dt draws (withInput input play).
Proof.
  destruct play as [state given nextId last]. unfold withInput. game_fields.
  intros M C. unfold Game.updatePlaying. cbv zeta. game_fields. rewrite M, C. reflexivity.
Qed.

Lemma moveDino_in_the_air (dt : Q) (input : Game.Input) (state : Game.RuntimeState) :
  Game.dinoY state < Game.groundY - Game.NORMAL_HEIGHT - 0.5 ->
  Game.moveDino dt input state = Game.moveDino dt (Game.consumeJump input) state.
Proof.
  intro A. unfold Game.moveDino. cbv zeta.
  assert (C : Qgeb (Game.dinoY state) (Game.groundY - Game.NORMAL_HEIGHT - 0.5) = false)
    by (apply Qgeb_false; exact A).
  rewrite C. unfold Game.consumeJump. game_fields. rewrite !andb_false_r. reflexivity.
Qed.

(** X16: a jump request that arrives while the dino is in the air is lost:
    the played tick is the tick without the request, and it always leaves
    no request.  From the ground, the request lifts the dino. *)
Theorem no_jump_in_the_air :
  (forall status timestamp draws play,
     Game.dinoY (Game.runtime play) < Game.groundY - Game.NORMAL_HEIGHT - 0.5 ->
     Game.update status timestamp draws play
     = Game.update status timestamp draws
         (if Game.isPlaying status then withoutJump play else play))
  /\ (forall timestamp draws play,
        Game.jumpQueued (Game.input (fst (Game.update Game.playing timestamp draws play)))
        = false)
  /\ (forall timestamp draws play,
        Game.jumpQueued (Game.input play) = true ->
        Game.groundY - Game.NORMAL_HEIGHT - 0.5 <= Game.dinoY (Game.runtime play) ->
        0 < Game.frameDt (Game.lastTick play) timestamp ->
        Game.dinoY (Game.runtime (fst (Game.update Game.playing timestamp draws play)))
        < Game.dinoY (Game.runtime play)).
Proof.
  split; [|split].
  - intros status timestamp draws play A.
    destruct (Game.isPlaying status) eqn:P; [|reflexivity].
    assert (E : forall dt, Game.updatePlaying dt draws play
                           = Game.updatePlaying dt draws (withoutJump play)).
    { intro dt. apply (updatePlaying_withInput dt draws play (Game.consumeJump (Game.input play))).
      - apply moveDino_in_the_air. exact A.
      - destruct (Game.input play); reflexivity. }
    unfold Game.update. rewrite P. cbv zeta.
    replace (Game.lastTick (withoutJump play)) with (Game.lastTick play) by reflexivity.
    rewrite <- E. reflexivity.
  - intros timestamp draws play.
    destruct (update_runtime Game.playing timestamp draws play) as (E & _).
    cbv zeta in E. rewrite E. cbn [Game.isPlaying].
    destruct (updatePlaying_result (Game.frameDt (Game.lastTick play) timestamp) draws play)
      as (_ & _ & Ei & _).
    rewrite Ei. reflexivity.
  - intros timestamp draws play J G D.
    destruct (update_dino Game.playing timestamp draws play) as (Ey & _).
    rewrite Ey. cbn [Game.isPlaying]. unfold Game.moveDino. cbv zeta. game_fields.
    set (dt := Game.frameDt (Game.lastTick play) timestamp) in *.
    pose proof (frameDt_bounds (Game.lastTick play) timestamp) as (_ & D1). fold dt in D1.
    rewrite J. apply Qgeb_ge in G. rewrite G. cbn [andb].
    set (y0 := Game.dinoY (Game.runtime play)) in *.
    assert (N : y0 + Game.JUMP_FORCE * dt < y0) by (unfold Game.JUMP_FORCE; lra).
    destruct (Qgtb _ _) eqn:L; [|exact N].
    apply Qgtb_gt in L. lra.
Qed.

Lemma no_jump_in_the_air_witness :
  Game.update Game.playing 1016 lowDraws airbornePlay
  = Game.update Game.playing 1016 lowDraws (withoutJump airbornePlay).
Proof.
  destruct no_jump_in_the_air as (Lost & _).
  apply (Lost Game.playing 1016 lowDraws airbornePlay). vm_compute. reflexivity.
Defined.

(** ** Invincibility *)

Lemma collidedObstacle_invincible (dinoRect : Game.Rect.Rect) (invincible : Q)
    (remaining : list Game.Obstacle.Obstacle) :
  0 < invincible -> Game.collidedObstacle dinoRect invincible remaining = None.
Proof.
  intro P.
  assert (E : Qle_bool invincible 0 = false).
  { apply not_true_iff_false. intro K. apply Qle_bool_iff in K. lra. }
  induction remaining as [|o rest IH]; cbn [Game.collidedObstacle].
  - reflexivity.
  - rewrite E, andb_false_r. exact IH.
Qed.

(** The health and the invincibility timer after a played tick. *)
Lemma updatePlaying_invincible (dt : Q) (draws : Game.Draws) (play : Game.Play) :
  let before := Game.runtime play in
  let after := Game.runtime (fst (Game.updatePlaying dt draws play)) in
  let timer := Qmax 0 (Game.invincibleTimer before - dt) in
  (0 < timer ->
   Game.invincibleTimer after = timer
   /\ (Game.health before <= Game.health after)%Z
   /\ snd (Game.updatePlaying dt draws play) = false)
  /\ ((Game.health after < Game.health before)%Z ->
      Game.invincibleTimer after = Game.HIT_INVINCIBLE_SECONDS).
Proof.
  cbv zeta.
  destruct (updatePlaying_cases dt draws play) as (_ & Cases). cbv zeta in Cases.
  destruct (entering_fields dt draws play) as (_ & _ & _ & _ & _ & Eh & Et & _).
  cbv zeta in Eh, Et. rewrite Et, Eh in Cases.
  pose proof (updateTimers_health dt (Game.runtime play)) as Heal. cbv zeta in Heal.
  destruct Cases as [(N & H & T & _ & _ & _ & O) | (hit & N & H & T & _)].
  - rewrite H, T, O. split.
    + intros _. repeat apply conj; [reflexivity | lia | reflexivity].
    + intro K. lia.
  - split.
    + intro P. rewrite (collidedObstacle_invincible _ _ _ P) in N. discriminate.
    + intros _. exact T.
Qed.

Lemma update_invincible (status : Game.GameStatus) (timestamp : Q) (draws : Game.Draws)
    (play : Game.Play) :
  0.05 < Game.invincibleTimer (Game.runtime play) ->
  let after := Game.runtime (fst (Game.update status timestamp draws play)) in
  Game.invincibleTimer (Game.runtime play) - 0.05 <= Game.invincibleTimer after
  /\ (Game.health (Game.runtime play) <= Game.health after)%Z
  /\ snd (Game.update status timestamp draws play) = false.
Proof.
  intro P. cbv zeta.
  pose proof (frameDt_bounds (Game.lastTick play) timestamp) as (D0 & D1).
  pose proof (updatePlaying_invincible (Game.frameDt (Game.lastTick play) timestamp) draws play)
    as (K & _). cbv zeta in K.
  rewrite update_over, update_invincibleTimer, update_health.
  destruct (Game.isPlaying status).
  - set (dt := Game.frameDt _ _) in *.
    assert (T : 0 < Qmax 0 (Game.invincibleTimer (Game.runtime play) - dt))
      by (apply Q.max_lt_iff; right; lra).
    destruct (K T) as (Kt & Kh & Ko).
    assert (B : Game.invincibleTimer (Game.runtime play) - 0.05
                <= Qmax 0 (Game.invincibleTimer (Game.runtime play) - dt))
      by (apply Q.max_le_iff; right; lra).
    rewrite Kt. split; [exact B | split; [exact Kh | exact Ko]].
  - split; [lra | split; [lia | reflexivity]].
Qed.

Lemma ofNat_length_cons {A : Type} (a : A) (l : list A) :
  ofNat (length (a :: l)) == ofNat (length l) + 1 /\ 0 <= ofNat (length l).
Proof.
  cbn [length]. unfold ofNat. rewrite Nat2Z.inj_succ, <- Z.add_1_r, inject_Z_plus.
  split; [reflexivity|]. change 0 with (inject_Z 0). rewrite <- Zle_Qle. lia.
Qed.

(** X17: a lost heart always starts the 1.35 seconds of invincibility, and
    while the timer runs no tick takes a heart: with more than 0.05 s of
    invincibility for each tick, the health after the ticks is no lower. *)
Theorem hit_gives_invincibility :
  (forall timestamp draws play,
     let after := Game.runtime (fst (Game.update Game.playing timestamp draws play)) in
     (Game.health after < Game.health (Game.runtime play))%Z ->
     Game.invincibleTimer after = Game.HIT_INVINCIBLE_SECONDS)
  /\ (forall ticks play,
        0.05 * ofNat (length ticks) < Game.invincibleTimer (Game.runtime play) ->
        (Game.health (Game.runtime play)
         <= Game.health (Game.runtime (Game.updates ticks play)))%Z).
Proof.
  split.
  - intros timestamp draws play. cbv zeta.
    pose proof (updatePlaying_invincible (Game.frameDt (Game.lastTick play) timestamp) draws play)
      as (_ & K). cbv zeta in K.
    rewrite update_invincibleTimer, update_health. cbn [Game.isPlaying]. exact K.
  - induction ticks as [|[[status timestamp] draws] ticks IH]; intros play H;
      cbn [Game.updates].
    + lia.
    + destruct (ofNat_length_cons (status, timestamp, draws) ticks) as (L & N).
      rewrite L in H.
      assert (P : 0.05 < Game.invincibleTimer (Game.runtime play)) by lra.
      destruct (update_invincible status timestamp draws play P) as (T & Hh & _).
      specialize (IH (fst (Game.update status timestamp draws play))).
      assert (R : 0.05 * ofNat (length ticks)
                  < Game.invincibleTimer
                      (Game.runtime (fst (Game.update status timestamp draws play)))) by lra.
      specialize (IH R). lia.
Qed.

(** ** Obstacle identifiers *)

Lemma NoDup_map_filter {A B : Type} (f : A -> B) (keep : A -> bool) (l : list A) :
  NoDup (map f l) -> NoDup (map f (filter keep l)).
Proof.
  induction l as [|a l IH]; cbn [map filter]; intro N.
  - constructor.
  - inversion N as [|? ? Notin Rest]; subst.
    destruct (keep a); cbn [map]; [constructor|]; auto.
    intro K. apply Notin. apply in_map_iff in K. destruct K as (b & E & I).
    apply in_map_iff. exists b. split; [exact E|]. apply filter_In in I. tauto.
Qed.

Lemma map_id_shift (distance : Q) (l : list Game.Obstacle.Obstacle) :
  map Game.Obstacle.id (map (Game.shift distance) l) = map Game.Obstacle.id l.
Proof. rewrite map_map. apply map_ext. intro o. reflexivity. Qed.

Lemma Forall_filter {A : Type} (P : A -> Prop) (keep : A -> bool) (l : list A) :
  Forall P l -> Forall P (filter keep l).
Proof.
  intro F. apply Forall_forall. intros a I. apply filter_In in I.
  rewrite Forall_forall in F. apply F. tauto.
Qed.

Lemma newObstacle_id (draws : Game.Draws) (nextId : nat) (score : Q) :
  Game.Obstacle.id (Game.newObstacle draws nextId score) = nextId.
Proof. unfold Game.newObstacle. cbv zeta. destruct (_ && _); reflexivity. Qed.

(** The obstacles and the counter after a played tick. *)
Lemma updatePlaying_obstacles (dt : Q) (draws : Game.Draws) (play : Game.Play) :
  let state := Game.runtime play in
  let after := fst (Game.updatePlaying dt draws play) in
  exists spawned keep1 keep2 distance,
    Game.obstacles (Game.runtime after)
    = filter keep2 (filter keep1 (map (Game.shift distance) (Game.obstacles state ++ spawned)))
    /\ ((spawned = [] /\ Game.obstacleId after = Game.obstacleId play)
        \/ (exists obstacle, spawned = [obstacle]
                             /\ Game.Obstacle.id obstacle = Game.obstacleId play
                             /\ Game.obstacleId after = S (Game.obstacleId play))).
Proof.
  cbv zeta.
  destruct (updatePlaying_result dt draws play) as (_ & _ & _ & Ei & _). cbv zeta in Ei.
  destruct (updatePlaying_cases dt draws play) as (_ & Cases). cbv zeta in Cases.
  pose proof (entering_spawn dt draws play) as Sp. cbv zeta in Sp.
  rewrite Ei.
  assert (Kept : exists keep2,
             Game.obstacles (Game.runtime (fst (Game.updatePlaying dt draws play)))
             = filter keep2 (Game.obstacles (entering dt draws play))).
  { destruct Cases as [(_ & _ & _ & _ & Eo & _) | (hit & _ & _ & _ & _ & Eo & _)]; rewrite Eo.
    - exists (fun _ => true). symmetry. apply forallb_filter_id. apply forallb_forall.
      reflexivity.
    - eexists. reflexivity. }
  destruct Kept as (keep2 & ->).
  destruct Sp as [(_ & _ & _ & Eo & Es) | (_ & _ & _ & Eo & Es)]; rewrite Eo, Es.
  - exists []. eexists. exists keep2. eexists. rewrite app_nil_r.
    split; [reflexivity|]. left. split; reflexivity.
  - eexists. eexists. exists keep2. eexists. split; [reflexivity|]. right.
    eexists. split; [reflexivity|]. split; [apply newObstacle_id | reflexivity].
Qed.

Lemma updatePlaying_freshIds (dt : Q) (draws : Game.Draws) (play : Game.Play) :
  freshIds play -> freshIds (fst (Game.updatePlaying dt draws play)).
Proof.
  intros (N & F).
  destruct (updatePlaying_obstacles dt draws play)
    as (spawned & keep1 & keep2 & distance & Eo & Es).
  cbv zeta in Eo, Es. unfold freshIds. rewrite Eo.
  assert (Na : NoDup (map Game.Obstacle.id (Game.obstacles (Game.runtime play) ++ spawned))
               /\ Forall (fun obstacle =>
                            (Game.Obstacle.id obstacle
                             < Game.obstacleId (fst (Game.updatePlaying dt draws play)))%nat)
                    (Game.obstacles (Game.runtime play) ++ spawned)).
  { destruct Es as [(-> & Ei) | (o & -> & Eid & Ei)]; rewrite Ei.
    - rewrite app_nil_r. tauto.
    - split.
      + rewrite map_app. cbn [map]. apply NoDup_app; [exact N | repeat constructor; intros []|].
        intros a Ia [<-|[]]. apply in_map_iff in Ia. destruct Ia as (b & Eb & Ib).
        rewrite Forall_forall in F. specialize (F b Ib). lia.
      + apply Forall_app. split.
        * eapply Forall_impl; [|exact F]. intros a L. cbn beta in L. lia.
        * constructor; [lia | constructor]. }
  destruct Na as (Na & Fa). split.
  - apply NoDup_map_filter, NoDup_map_filter. rewrite map_id_shift. exact Na.
  - apply Forall_filter, Forall_filter. apply Forall_forall. intros a Ia.
    apply in_map_iff in Ia. destruct Ia as (b & <- & Ib).
    rewrite Forall_forall in Fa. exact (Fa b Ib).
Qed.

(** The loop stops at the first obstacle that is hit. *)
Lemma collidedObstacle_first (dinoRect : Game.Rect.Rect) (invincible : Q)
    (remaining : list Game.Obstacle.Obstacle) (hit : nat) :
  Game.collidedObstacle dinoRect invincible remaining = Some hit ->
  exists front obstacle back,
    remaining = front ++ obstacle :: back
    /\ Game.Obstacle.id obstacle = hit
    /\ Game.intersects dinoRect (Game.obstacleRect obstacle) = true
    /\ invincible <= 0
    /\ Forall (fun passed => Game.intersects dinoRect (Game.obstacleRect passed) = false) front.
Proof.
  induction remaining as [|o rest IH]; cbn [Game.collidedObstacle]; [discriminate|].
  destruct (Game.intersects dinoRect (Game.obstacleRect o)) eqn:I; cbn [andb].
  - destruct (Qle_bool invincible 0) eqn:V.
    + intro E. injection E as <-. exists [], o, rest.
      apply Qle_bool_iff in V. repeat apply conj; try reflexivity; auto.
    + intro E. destruct (IH E) as (front & ob & back & -> & Eid & Ei & Ev & _).
      apply Qle_bool_iff in Ev. congruence.
  - intro E. destruct (IH E) as (front & ob & back & -> & Eid & Ei & Ev & Ff).
    exists (o :: front), ob, back. repeat apply conj; auto.
Qed.

Lemma filter_removes_one (front back : list Game.Obstacle.Obstacle)
    (obstacle : Game.Obstacle.Obstacle) :
  NoDup (map Game.Obstacle.id (front ++ obstacle :: back)) ->
  filter (fun other => negb (Game.Obstacle.id other =? Game.Obstacle.id obstacle)%nat)
    (front ++ obstacle :: back)
  = front ++ back.
Proof.
  intro N. rewrite filter_app. cbn [filter]. rewrite Nat.eqb_refl. cbn [negb].
  rewrite map_app in N. cbn [map] in N.
  pose proof (NoDup_remove_2 _ _ _ N) as Notin.
  assert (K : forall part, (forall a, In a part -> In a front \/ In a back) ->
              filter (fun other => negb (Game.Obstacle.id other =? Game.Obstacle.id obstacle)%nat)
                part = part).
  { intros part Sub. apply forallb_filter_id. apply forallb_forall. intros a Ia.
    apply negb_true_iff, Nat.eqb_neq. intro E. apply Notin. apply in_or_app.
    destruct (Sub a Ia) as [I|I]; [left|right]; apply in_map_iff; exists a; tauto. }
  rewrite (K front), (K back); auto.
Qed.

(** X18: the obstacles always carry distinct identifiers below the
    counter, so that a hit removes the obstacle that was hit, the first in
    the list that meets the dino, and no other. *)
Theorem hit_removes_the_obstacle :
  (forall ticks play, freshIds play -> freshIds (Game.updates ticks play))
  /\ (forall draws state hit,
        NoDup (map Game.Obstacle.id (Game.obstacles state)) ->
        Game.collidedObstacle (Game.getDinoRect state) (Game.invincibleTimer state)
          (Game.obstacles state) = Some hit ->
        exists front obstacle back,
          Game.obstacles state = front ++ obstacle :: back
          /\ Game.Obstacle.id obstacle = hit
          /\ Game.intersects (Game.getDinoRect state) (Game.obstacleRect obstacle) = true
          /\ Forall (fun passed =>
                       Game.intersects (Game.getDinoRect state) (Game.obstacleRect passed)
                       = false) front
          /\ Game.obstacles (fst (Game.collide draws state)) = front ++ back).
Proof.
  split.
  - induction ticks as [|[[status timestamp] draws] ticks IH]; intros play H;
      cbn [Game.updates].
    + exact H.
    + apply IH.
      destruct (update_obstacles status timestamp draws play) as (Eo & Ei).
      cbv zeta in Eo, Ei. unfold freshIds. rewrite Ei, Eo.
      destruct (Game.isPlaying status); [|exact H].
      apply updatePlaying_freshIds. exact H.
  - intros draws state hit N C.
    destruct (collidedObstacle_first _ _ _ _ C) as (front & o & back & E & Eid & Ei & _ & Ff).
    exists front, o, back. repeat apply conj; auto.
    destruct (collide_cases draws state) as (_ & [(C' & _) | (hit' & C' & _ & _ & _ & H & _)]);
      [congruence|].
    rewrite H. assert (hit' = hit) by congruence. subst hit' hit.
    rewrite E in *. apply filter_removes_one. exact N.
Qed.

(** ** Spawning *)

Lemma getSpawnDelay_window (score : Q) :
  3 <= fst (Game.getSpawnDelay score) /\ fst (Game.getSpawnDelay score) < snd (Game.getSpawnDelay score)
  /\ snd (Game.getSpawnDelay score) <= 6.
Proof.
  unfold Game.getSpawnDelay. repeat break_inner; cbn [fst snd]; repeat split; discriminate.
Qed.

Lemma randomInRange_bounds (draw min max : Q) :
  min <= max -> 0 <= draw -> draw < 1 -> min <= Game.randomInRange draw min max <= max.
Proof.
  intros L D0 D1. unfold Game.randomInRange.
  assert (P : 0 <= draw * (max - min)) by (apply Qmult_le_0_compat; lra).
  assert (R : 0 <= (1 - draw) * (max - min)) by (apply Qmult_le_0_compat; lra).
  split; [lra|].
  assert (E : max == min + draw * (max - min) + (1 - draw) * (max - min)) by ring.
  lra.
Qed.

(** The spawn timer after a played tick. *)
Lemma updatePlaying_spawn (dt : Q) (draws : Game.Draws) (play : Game.Play) :
  let state := Game.runtime play in
  let after := fst (Game.updatePlaying dt draws play) in
  let timer := Game.spawnTimer state + dt in
  (timer < Game.nextSpawnDelay state ->
   Game.spawnTimer (Game.runtime after) = timer
   /\ Game.nextSpawnDelay (Game.runtime after) = Game.nextSpawnDelay state
   /\ Game.obstacleId after = Game.obstacleId play)
  /\ (Game.nextSpawnDelay state <= timer ->
      Game.spawnTimer (Game.runtime after) = 0
      /\ Game.nextSpawnDelay (Game.runtime after)
         = Game.randomInRange (Game.delayDraw draws)
             (fst (Game.getSpawnDelay (Game.score state)))
             (snd (Game.getSpawnDelay (Game.score state)))
      /\ Game.obstacleId after = S (Game.obstacleId play)).
Proof.
  cbv zeta.
  destruct (updatePlaying_result dt draws play) as (_ & _ & _ & Ei & _). cbv zeta in Ei.
  destruct (updatePlaying_cases dt draws play) as ((_ & _ & _ & _ & _ & Et & En) & _).
  cbv zeta in Et, En.
  pose proof (entering_spawn dt draws play) as Sp. cbv zeta in Sp.
  rewrite Ei, Et, En.
  destruct Sp as [(T & K1 & K2 & _ & K4) | (T & K1 & K2 & _ & K4)]; rewrite K1, K2, K4;
    (split; intro K; [try lra | try lra]); repeat apply conj; reflexivity.
Qed.

(** X19: an obstacle is spawned only when the spawn timer has reached its
    delay; the timer then restarts with a delay between three and six
    seconds, so that ticks that cover less time than is left of the delay
    spawn nothing. *)
Theorem obstacles_spawn_three_seconds_apart :
  (forall timestamp draws play,
     0 <= Game.delayDraw draws < 1 ->
     let after := fst (Game.update Game.playing timestamp draws play) in
     Game.obstacleId after <> Game.obstacleId play ->
     Game.spawnTimer (Game.runtime after) = 0
     /\ 3 <= Game.nextSpawnDelay (Game.runtime after) <= 6)
  /\ (forall ticks play,
        Game.spawnTimer (Game.runtime play) + 0.05 * ofNat (length ticks)
        < Game.nextSpawnDelay (Game.runtime play) ->
        Game.obstacleId (Game.updates ticks play) = Game.obstacleId play
        /\ Game.nextSpawnDelay (Game.runtime (Game.updates ticks play))
           = Game.nextSpawnDelay (Game.runtime play)).
Proof.
  split.
  - intros timestamp draws play D. cbv zeta.
    destruct (update_spawn Game.playing timestamp draws play) as (Et & En & Ei).
    cbv zeta in Et, En, Ei. cbn [Game.isPlaying] in Et, En, Ei. rewrite Et, En, Ei. intro N.
    pose proof (updatePlaying_spawn (Game.frameDt (Game.lastTick play) timestamp) draws play)
      as (Lo & Hi). cbv zeta in Lo, Hi.
    set (dt := Game.frameDt _ _) in *.
    destruct (Qlt_le_dec (Game.spawnTimer (Game.runtime play) + dt)
                         (Game.nextSpawnDelay (Game.runtime play))) as [L|L].
    + destruct (Lo L) as (_ & _ & K). contradiction.
    + destruct (Hi L) as (T & Dn & _). rewrite T, Dn. split; [reflexivity|].
      destruct (getSpawnDelay_window (Game.score (Game.runtime play))) as (W0 & W1 & W2).
      pose proof (randomInRange_bounds (Game.delayDraw draws)
                    (fst (Game.getSpawnDelay (Game.score (Game.runtime play))))
                    (snd (Game.getSpawnDelay (Game.score (Game.runtime play)))))
        as R.
      destruct R as (R0 & R1); [lra | tauto | tauto |]. lra.
  - induction ticks as [|[[status timestamp] draws] ticks IH]; intros play H;
      cbn [Game.updates].
    + split; reflexivity.
    + destruct (ofNat_length_cons (status, timestamp, draws) ticks) as (Len & N).
      rewrite Len in H.
      pose proof (frameDt_bounds (Game.lastTick play) timestamp) as (D0 & D1).
      destruct (update_spawn status timestamp draws play) as (Et & En & Ei).
      pose proof (updatePlaying_spawn (Game.frameDt (Game.lastTick play) timestamp) draws play)
        as (Lo & _). cbv zeta in Lo, Et, En, Ei.
      set (dt := Game.frameDt _ _) in *.
      assert (K : Game.spawnTimer (Game.runtime (fst (Game.update status timestamp draws play)))
                  <= Game.spawnTimer (Game.runtime play) + 0.05
                  /\ Game.nextSpawnDelay
                       (Game.runtime (fst (Game.update status timestamp draws play)))
                     = Game.nextSpawnDelay (Game.runtime play)
                  /\ Game.obstacleId (fst (Game.update status timestamp draws play))
                     = Game.obstacleId play).
      { rewrite Et, En, Ei. destruct (Game.isPlaying status).
        - destruct Lo as (T & Dn & I); [lra|]. rewrite T, Dn, I.
          split; [lra | split; reflexivity].
        - split; [lra | split; reflexivity]. }
      destruct K as (Kt & Kn & Ki).
      destruct (IH (fst (Game.update status timestamp draws play))) as (I1 & I2);
        [rewrite Kn; lra|].
      rewrite I1, I2. split; assumption.
Qed.

Lemma hit_gives_invincibility_witness :
  (Game.health (Game.runtime playAfterHit)
   <= Game.health
        (Game.runtime (Game.updates [(Game.playing, 1016%Q, lowDraws);
                                     (Game.playing, 1032%Q, lowDraws)] playAfterHit)))%Z
  /\ Game.invincibleTimer
       (Game.runtime (fst (Game.update Game.playing 16 lowDraws playAtCactus)))
     = Game.HIT_INVINCIBLE_SECONDS.
Proof.
  destruct hit_gives_invincibility as (Hit & Safe). split.
  - apply (Safe [(Game.playing, 1016%Q, lowDraws); (Game.playing, 1032%Q, lowDraws)]
             playAfterHit).
    vm_compute. reflexivity.
  - apply (Hit 16 lowDraws playAtCactus). vm_compute. reflexivity.
Defined.

Lemma hit_removes_the_obstacle_witness :
  freshIds (Game.updates [(Game.playing, 16%Q, lowDraws); (Game.playing, 32%Q, lowDraws)]
              playAtCactus).
Proof.
  destruct hit_removes_the_obstacle as (Fresh & _).
  apply (Fresh [(Game.playing, 16%Q, lowDraws); (Game.playing, 32%Q, lowDraws)] playAtCactus).
  split; cbn.
  - constructor; [intros [] | constructor].
  - constructor; [vm_compute; lia | constructor].
Defined.

Lemma obstacles_spawn_three_seconds_apart_witness :
  Game.obstacleId (Game.updates [(Game.playing, 16%Q, lowDraws); (Game.playing, 32%Q, lowDraws)]
                     freshPlay)
  = Game.obstacleId freshPlay
  /\ Game.nextSpawnDelay
       (Game.runtime (Game.updates [(Game.playing, 16%Q, lowDraws);
                                    (Game.playing, 32%Q, lowDraws)] freshPlay))
     = Game.nextSpawnDelay (Game.runtime freshPlay).
Proof.
  destruct obstacles_spawn_three_seconds_apart as (_ & Quiet).
  apply (Quiet [(Game.playing, 16%Q, lowDraws); (Game.playing, 32%Q, lowDraws)] freshPlay).
  vm_compute. reflexivity.
Defined.

(** ** Collisions *)

Lemma intersects_spec (a b : Game.Rect.Rect) :
  Game.intersects a b = true
  <-> Game.Rect.x a < Game.Rect.x b + Game.Rect.width b
      /\ Game.Rect.x b < Game.Rect.x a + Game.Rect.width a
      /\ Game.Rect.y a < Game.Rect.y b + Game.Rect.height b
      /\ Game.Rect.y b < Game.Rect.y a + Game.Rect.height a.
Proof.
  unfold Game.intersects. rewrite !andb_true_iff, !Qltb_lt, !Qgtb_gt. tauto.
Qed.

(** X20: a bird never meets a dino that is not in the air, however far the
    bird has flown: the hit boxes of a bird and of the dino on the ground,
    standing or ducking, are apart in height. *)
Theorem bird_misses_the_dino_on_the_ground (draws : Game.Draws) (nextId : nat)
    (score distance : Q) (state : Game.RuntimeState) :
  0 <= Game.flightDraw draws < 1 ->
  Game.Obstacle.kind (Game.newObstacle draws nextId score) = Game.bird ->
  Game.groundY - Game.NORMAL_HEIGHT <= Game.dinoY state ->
  Game.intersects (Game.getDinoRect state)
    (Game.obstacleRect (Game.shift distance (Game.newObstacle draws nextId score)))
  = false.
Proof.
  intros (D0 & D1) K G.
  apply not_true_iff_false. intro I. apply intersects_spec in I.
  destruct I as (_ & _ & I & _). revert I.
  unfold Game.newObstacle in *. cbv zeta in *.
  destruct (Qgtb score 600 && Qgtb (Game.birdDraw draws) 0.90); [|discriminate K].
  unfold Game.obstacleRect, Game.shift, Game.getDinoRect. cbv zeta.
  cbn [Game.Obstacle.kind Game.Obstacle.x Game.Obstacle.y Game.Obstacle.width
       Game.Obstacle.height Game.Rect.x Game.Rect.y Game.Rect.width Game.Rect.height].
  unfold Game.randomInRange.
  assert (Gr : Game.groundY == 1404 # 5) by reflexivity.
  unfold Game.NORMAL_HEIGHT, Game.DUCK_HEIGHT, Game.DINO_HITBOX_SHRINK in *.
  rewrite Gr in *.
  assert (P : 0 <= Game.flightDraw draws * (126 - 108)) by (apply Qmult_le_0_compat; lra).
  destruct (Game.ducking state); intro I.
  - assert (E : 44 * (1 - 0.72) / 2 == 154 # 25) by reflexivity.
    assert (F : 36 * 0.48 / 2 == 216 # 25) by reflexivity.
    rewrite E, F in I. lra.
  - assert (E : 78 * (1 - 0.72) / 2 == 273 # 25) by reflexivity.
    assert (F : 36 * 0.48 / 2 == 216 # 25) by reflexivity.
    rewrite E, F in I. lra.
Qed.

Lemma bird_misses_the_dino_on_the_ground_witness :
  Game.intersects (Game.getDinoRect (Game.runtime freshPlay))
    (Game.obstacleRect (Game.shift 900 (Game.newObstacle birdDraws 7 700)))
  = false.
Proof.
  apply (bird_misses_the_dino_on_the_ground birdDraws 7 700 900 (Game.runtime freshPlay)).
  - vm_compute. split; [discriminate | reflexivity].
  - vm_compute. reflexivity.
  - vm_compute. discriminate.
Defined.

(** ** Difficulty *)

(** X21: the game gets harder with the score and never easier: a higher
    score gives at least the speed gain and at most the spawn delays of a
    lower one, and the delays stay at three seconds or more. *)
Theorem difficulty_grows_with_the_score (low high : Q) :
  low <= high ->
  Game.getSpeedGain low <= Game.getSpeedGain high
  /\ fst (Game.getSpawnDelay high) <= fst (Game.getSpawnDelay low)
  /\ snd (Game.getSpawnDelay high) <= snd (Game.getSpawnDelay low)
  /\ 3 <= fst (Game.getSpawnDelay high) < snd (Game.getSpawnDelay high).
Proof.
  intro L. unfold Game.getSpeedGain, Game.getSpawnDelay.
  destruct (Qltb low 200) eqn:L2; destruct (Qltb high 200) eqn:H2;
    destruct (Qltb low 500) eqn:L5; destruct (Qltb high 500) eqn:H5;
    cbn [fst snd];
    rewrite ?Qltb_lt in *;
    repeat match goal with
           | H : Qltb _ _ = false |- _ =>
               apply not_true_iff_false in H; rewrite Qltb_lt in H
           end;
    try (exfalso; lra);
    repeat split; try discriminate; try lra.
Qed.

Lemma difficulty_grows_with_the_score_witness :
  Game.getSpeedGain 100 <= Game.getSpeedGain 300
  /\ fst (Game.getSpawnDelay 300) <= fst (Game.getSpawnDelay 100)
  /\ snd (Game.getSpawnDelay 300) <= snd (Game.getSpawnDelay 100)
  /\ 3 <= fst (Game.getSpawnDelay 300) < snd (Game.getSpawnDelay 300).
Proof.
  apply (difficulty_grows_with_the_score 100 300). vm_compute. discriminate.
Defined.

(** ** The pose as input *)

(** X22: a jump pose requests one jump however long it is held: the
    request is made when the pose turns to a jump, the played tick
    consumes it, and the pose that is still a jump requests none.  Outside
    a played game, or without tracking, the pose requests nothing. *)
Theorem held_jump_pose_jumps_once :
  (forall pose previous play timestamp draws later,
     status pose = tracking ->
     gesture pose = JUMP ->
     let seen := Game.poseEffect Game.game Game.playing pose previous (Game.input play) in
     let ticked := fst (Game.update Game.playing timestamp draws (withInput (fst seen) play)) in
     let again := Game.poseEffect Game.game Game.playing later (snd seen) (Game.input ticked) in
     (previous <> JUMP -> Game.jumpQueued (fst seen) = true)
     /\ Game.jumpQueued (Game.input ticked) = false
     /\ (gesture later = JUMP -> Game.jumpQueued (fst again) = false))
  /\ (forall scene gameStatus pose previous input,
        status pose <> tracking \/ scene <> Game.game \/ gameStatus <> Game.playing ->
        let seen := Game.poseEffect scene gameStatus pose previous input in
        Game.jumpQueued (fst seen) = Game.jumpQueued input
        /\ Game.poseDuckActive (fst seen) = false
        /\ snd seen = IDLE).
Proof.
  split.
  - intros pose previous play timestamp draws later T J. cbv zeta.
    assert (Et : status_eqb (status pose) tracking = true) by (apply status_eqb_eq; exact T).
    set (seen := Game.poseEffect Game.game Game.playing pose previous (Game.input play)).
    assert (Ep : snd seen = JUMP).
    { subst seen. unfold Game.poseEffect. cbn [snd]. rewrite Et. exact J. }
    assert (Es : previous <> JUMP -> Game.jumpQueued (fst seen) = true).
    { intro N. subst seen. unfold Game.poseEffect. cbn [fst Game.jumpQueued]. rewrite Et, J.
      destruct (gesture_eqb previous JUMP) eqn:P; [apply gesture_eqb_eq in P; contradiction|].
      reflexivity. }
    clearbody seen.
    assert (Q1 : Game.jumpQueued
                   (Game.input (fst (Game.update Game.playing timestamp draws
                                       (withInput (fst seen) play)))) = false).
    { destruct (update_runtime Game.playing timestamp draws (withInput (fst seen) play))
        as (E & _).
      cbv zeta in E. rewrite E. cbn [Game.isPlaying].
      destruct (updatePlaying_result
                  (Game.frameDt (Game.lastTick (withInput (fst seen) play)) timestamp) draws
                  (withInput (fst seen) play)) as (_ & _ & Ei & _).
      rewrite Ei. reflexivity. }
    split; [exact Es | split; [exact Q1|]].
    intro L. rewrite Ep.
    set (ticked := fst (Game.update Game.playing timestamp draws (withInput (fst seen) play)))
      in *.
    clearbody ticked. unfold Game.poseEffect. cbn [fst Game.jumpQueued].
    rewrite Q1. change (gesture_eqb JUMP JUMP) with true. cbn [negb].
    rewrite andb_false_r. reflexivity.
  - intros scene gameStatus pose previous input H. cbv zeta. unfold Game.poseEffect.
    destruct scene, gameStatus; cbn [fst snd Game.jumpQueued Game.poseDuckActive];
      try (repeat split; reflexivity).
    destruct H as [H | [H | H]]; try congruence.
    destruct (status_eqb (status pose) tracking) eqn:E;
      [apply status_eqb_eq in E; contradiction|].
    repeat split; reflexivity.
Qed.

Lemma held_jump_pose_jumps_once_witness :
  Game.jumpQueued (fst (Game.poseEffect Game.game Game.playing jumpPose IDLE
                          (Game.input freshPlay))) = true
  /\ Game.jumpQueued
       (fst (Game.poseEffect Game.game Game.playing jumpPose JUMP
               (Game.input
                  (fst (Game.update Game.playing 16 lowDraws
                          (withInput
                             (fst (Game.poseEffect Game.game Game.playing jumpPose IDLE
                                     (Game.input freshPlay)))
                             freshPlay))))))
     = false.
Proof.
  destruct held_jump_pose_jumps_once as (Once & _).
  destruct (Once jumpPose IDLE freshPlay 16 lowDraws jumpPose eq_refl eq_refl)
    as (Asked & _ & Held).
  split.
  - apply Asked. discriminate.
  - apply Held. reflexivity.
Defined.

(** ** Starting the game *)



(** ** The end of a game *)

(** The end of a played tick: a hit that leaves no heart. *)
Lemma updatePlaying_over (dt : Q) (draws : Game.Draws) (play : Game.Play) :
  let after := Game.runtime (fst (Game.updatePlaying dt draws play)) in
  let over := snd (Game.updatePlaying dt draws play) in
  (over = true ->
   Game.health after = 0%Z /\ Game.invincibleTimer after = Game.HIT_INVINCIBLE_SECONDS)
  /\ ((Game.health after < Game.health (Game.runtime play))%Z ->
      over = (Game.health after <=? 0)%Z)
  /\ ((2 <= Game.health (Game.runtime play))%Z -> over = false).
Proof.
  cbv zeta.
  destruct (updatePlaying_cases dt draws play) as (_ & Cases). cbv zeta in Cases.
  destruct (entering_fields dt draws play) as (_ & _ & _ & _ & _ & Eh & _).
  cbv zeta in Eh. rewrite Eh in Cases.
  pose proof (updateTimers_health dt (Game.runtime play)) as Heal. cbv zeta in Heal.
  destruct Cases as [(_ & H & _ & _ & _ & _ & O) | (hit & _ & H & T & _ & _ & _ & O)];
    rewrite H, O.
  - split; [discriminate | split; [intro K; lia | reflexivity]].
  - split; [|split].
    + intro K. apply Z.leb_le in K. split; [lia | exact T].
    + reflexivity.
    + intro K. apply Z.leb_gt. lia.
Qed.

(** X27: a tick ends the game only when it is played and a hit takes the
    last heart, and then it does: a played tick that lowers the health to
    zero ends the game, and with two hearts or more no tick does. *)
Theorem game_ends_with_the_last_heart :
  (forall status timestamp draws play,
     let after := Game.runtime (fst (Game.update status timestamp draws play)) in
     snd (Game.update status timestamp draws play) = true ->
     status = Game.playing
     /\ Game.health after = 0%Z
     /\ Game.invincibleTimer after = Game.HIT_INVINCIBLE_SECONDS)
  /\ (forall timestamp draws play,
        let after := Game.runtime (fst (Game.update Game.playing timestamp draws play)) in
        (Game.health after < Game.health (Game.runtime play))%Z ->
        Game.health after = 0%Z ->
        snd (Game.update Game.playing timestamp draws play) = true)
  /\ (forall status timestamp draws play,
        (2 <= Game.health (Game.runtime play))%Z ->
        snd (Game.update status timestamp draws play) = false).
Proof.
  split; [|split].
  - intros status timestamp draws play. cbv zeta.
    rewrite update_over, update_health, update_invincibleTimer.
    pose proof (updatePlaying_over (Game.frameDt (Game.lastTick play) timestamp) draws play)
      as (Over & _). cbv zeta in Over.
    destruct status; cbn [Game.isPlaying]; try discriminate.
    intro K. split; [reflexivity | exact (Over K)].
  - intros timestamp draws play. cbv zeta.
    rewrite update_over, update_health. cbn [Game.isPlaying].
    pose proof (updatePlaying_over (Game.frameDt (Game.lastTick play) timestamp) draws play)
      as (_ & Hit & _). cbv zeta in Hit.
    intros L Z0. rewrite (Hit L), Z0. reflexivity.
  - intros status timestamp draws play H. rewrite update_over.
    pose proof (updatePlaying_over (Game.frameDt (Game.lastTick play) timestamp) draws play)
      as (_ & _ & Safe). cbv zeta in Safe.
    destruct (Game.isPlaying status); [exact (Safe H) | reflexivity].
Qed.

Lemma game_ends_with_the_last_heart_witness :
  snd (Game.update Game.playing 16 lowDraws playAtLastHeart) = true
  /\ snd (Game.update Game.playing 16 lowDraws playAtCactus) = false.
Proof.
  destruct game_ends_with_the_last_heart as (_ & Ends & Goes). split.
  - apply (Ends 16 lowDraws playAtLastHeart); vm_compute; reflexivity.
  - apply (Goes Game.playing 16 lowDraws playAtCactus). vm_compute. discriminate.
Defined.

(** ** The score *)

Lemma updatePlaying_score (dt : Q) (draws : Game.Draws) (play : Game.Play) :
  Game.score (Game.runtime (fst (Game.updatePlaying dt draws play)))
  = Game.score (Game.runtime play) + dt * 34.
Proof.
  destruct (updatePlaying_cases dt draws play) as ((_ & _ & _ & _ & Es & _) & _).
  cbv zeta in Es.
  destruct (entering_fields dt draws play) as (_ & _ & _ & _ & E & _). cbv zeta in E.
  rewrite Es, E. reflexivity.
Qed.

Lemma update_score (status : Game.GameStatus) (timestamp : Q) (draws : Game.Draws)
    (play : Game.Play) :
  Game.score (Game.runtime (fst (Game.update status timestamp draws play)))
  == Game.score (Game.runtime play)
     + 34 * (if Game.isPlaying status
             then Game.frameDt (Game.lastTick play) timestamp else 0)
  /\ Game.lastTick (fst (Game.update status timestamp draws play)) = Some timestamp.
Proof.
  destruct (update_runtime status timestamp draws play)
    as (_ & _ & Et & _ & _ & _ & _ & Es & _).
  cbv zeta in Et, Es. split; [|exact Et]. rewrite Es.
  destruct (Game.isPlaying status); [rewrite updatePlaying_score|]; ring.
Qed.

Lemma playedTime_bounds (ticks : list (Game.GameStatus * Q * Game.Draws))
    (lastTick : option Q) :
  0 <= playedTime ticks lastTick <= 0.05 * ofNat (length ticks).
Proof.
  revert lastTick. induction ticks as [|[[status timestamp] draws] ticks IH]; intro lastTick.
  - cbn [playedTime length]. unfold ofNat. cbn [Z.of_nat]. change (inject_Z 0) with 0. lra.
  - destruct (ofNat_length_cons (status, timestamp, draws) ticks) as (L & _). rewrite L.
    cbn [playedTime]. specialize (IH (Some timestamp)).
    pose proof (frameDt_bounds lastTick timestamp) as D.
    destruct (Game.isPlaying status); lra.
Qed.

(** X28: the score counts the played time, 34 points a second: after any
    ticks it is the score before plus 34 times the time steps of the
    played ticks, whatever happens in them; so it never drops, and it
    grows by 1.7 points a tick at most. *)
Theorem score_counts_the_played_time (ticks : list (Game.GameStatus * Q * Game.Draws))
    (play : Game.Play) :
  let after := Game.score (Game.runtime (Game.updates ticks play)) in
  after == Game.score (Game.runtime play) + 34 * playedTime ticks (Game.lastTick play)
  /\ Game.score (Game.runtime play) <= after
  /\ after <= Game.score (Game.runtime play) + 1.7 * ofNat (length ticks).
Proof.
  cbv zeta.
  assert (E : Game.score (Game.runtime (Game.updates ticks play))
              == Game.score (Game.runtime play)
                 + 34 * playedTime ticks (Game.lastTick play)).
  { revert play. induction ticks as [|[[status timestamp] draws] ticks IH]; intro play;
      cbn [Game.updates playedTime].
    - ring.
    - destruct (update_score status timestamp draws play) as (Es & Et).
      rewrite IH, Es, Et. ring. }
  pose proof (playedTime_bounds ticks (Game.lastTick play)) as (P0 & P1).
  split; [exact E|]. rewrite E. split; lra.
Qed.
(** * The skeleton overlay *)

Lemma set_same (idx : nat) (position : Skeleton.Position.Position)
    (positions : Skeleton.Positions) :
  Skeleton.set idx position positions idx = Some position.
Proof. unfold Skeleton.set. rewrite Nat.eqb_refl. reflexivity. Qed.

Lemma set_other (idx other : nat) (position : Skeleton.Position.Position)
    (positions : Skeleton.Positions) :
  other <> idx -> Skeleton.set idx position positions other = positions other.
Proof.
  intro N. unfold Skeleton.set. apply Nat.eqb_neq in N. rewrite N. reflexivity.
Qed.

Lemma smoothedAfter_stored (count idx : nat) (rawX rawY : Q)
    (prevPositions : Skeleton.Positions) (prev : Skeleton.Position.Position) :
  prevPositions idx = Some prev ->
  exists position,
    smoothedAfter count idx rawX rawY prevPositions idx = Some position
    /\ Skeleton.Position.x position - rawX
       == (3 # 5) ^ Z.of_nat count * (Skeleton.Position.x prev - rawX)
    /\ Skeleton.Position.y position - rawY
       == (3 # 5) ^ Z.of_nat count * (Skeleton.Position.y prev - rawY).
Proof.
  revert prevPositions prev. induction count as [|count IH]; intros prevPositions prev E.
  - exists prev. cbn [smoothedAfter Z.of_nat]. split; [exact E|].
    change ((3 # 5) ^ 0) with 1. split; ring.
  - cbn [smoothedAfter].
    set (step := Skeleton.getSmoothedPosition idx rawX rawY prevPositions).
    assert (S1 : fst step idx = Some (snd step)
                 /\ Skeleton.Position.x (snd step) - rawX
                    == (3 # 5) * (Skeleton.Position.x prev - rawX)
                 /\ Skeleton.Position.y (snd step) - rawY
                    == (3 # 5) * (Skeleton.Position.y prev - rawY)).
    { subst step. unfold Skeleton.getSmoothedPosition. rewrite E. cbv zeta. cbn [fst snd].
      split; [apply set_same|]. cbn [Skeleton.Position.x Skeleton.Position.y].
      unfold Skeleton.SMOOTH_FACTOR. split; ring. }
    destruct S1 as (Es & Ex & Ey).
    destruct (IH (fst step) (snd step) Es) as (position & Ep & Px & Py).
    exists position. split; [exact Ep|].
    rewrite Nat2Z.inj_succ, <- Z.add_1_r.
    rewrite (Qpower_plus (3 # 5) (Z.of_nat count) 1) by discriminate.
    change ((3 # 5) ^ 1) with (3 # 5).
    rewrite Px, Py, Ex, Ey. split; ring.
Qed.

(** X24: smoothing a landmark again and again with the same raw position
    brings the drawn position to it geometrically: each call leaves 60 %
    of the distance, in both coordinates; the first call for a landmark
    stores the raw position itself, and no call touches the position of
    another landmark. *)
Theorem smoothing_converges_geometrically (count idx : nat) (rawX rawY : Q)
    (prevPositions : Skeleton.Positions) :
  (forall prev,
     prevPositions idx = Some prev ->
     exists position,
       smoothedAfter count idx rawX rawY prevPositions idx = Some position
       /\ Skeleton.Position.x position - rawX
          == (3 # 5) ^ Z.of_nat count * (Skeleton.Position.x prev - rawX)
       /\ Skeleton.Position.y position - rawY
          == (3 # 5) ^ Z.of_nat count * (Skeleton.Position.y prev - rawY))
  /\ (prevPositions idx = None ->
      exists position,
        smoothedAfter (S count) idx rawX rawY prevPositions idx = Some position
        /\ Skeleton.Position.x position == rawX
        /\ Skeleton.Position.y position == rawY)
  /\ (forall other, other <> idx ->
        smoothedAfter count idx rawX rawY prevPositions other = prevPositions other).
Proof.
  split; [|split].
  - intros prev E. apply smoothedAfter_stored. exact E.
  - intro E. cbn [smoothedAfter].
    set (step := Skeleton.getSmoothedPosition idx rawX rawY prevPositions).
    assert (Es : fst step idx
                 = Some {| Skeleton.Position.x := rawX; Skeleton.Position.y := rawY |}).
    { subst step. unfold Skeleton.getSmoothedPosition. rewrite E. cbn [fst].
      apply set_same. }
    destruct (smoothedAfter_stored count idx rawX rawY (fst step) _ Es)
      as (position & Ep & Px & Py).
    exists position. split; [exact Ep|].
    cbn [Skeleton.Position.x Skeleton.Position.y] in Px, Py.
    split.
    + assert (Z0 : Skeleton.Position.x position - rawX == 0) by (rewrite Px; ring). lra.
    + assert (Z0 : Skeleton.Position.y position - rawY == 0) by (rewrite Py; ring). lra.
  - revert prevPositions. induction count as [|count IH]; intros prevPositions other N.
    + reflexivity.
    + cbn [smoothedAfter]. rewrite (IH _ other N).
      unfold Skeleton.getSmoothedPosition.
      destruct (prevPositions idx); cbv zeta; cbn [fst]; apply set_other; exact N.
Qed.

Lemma smoothing_converges_geometrically_witness :
  exists position,
    smoothedAfter 3 11 320 240 Skeleton.resetSmoothing 11%nat = Some position
    /\ Skeleton.Position.x position == 320
    /\ Skeleton.Position.y position == 240.
Proof.
  destruct (smoothing_converges_geometrically 2 11 320 240 Skeleton.resetSmoothing)
    as (_ & First & _).
  apply First. reflexivity.
Defined.

Section Canvas.

Variables (landmarks : list NormalizedLandmark) (width height : Q).
Variable options : option Skeleton.DrawSkeletonOptions.
Hypothesis wide : 0 <= width.
Hypothesis high : 0 <= height.
Hypothesis inImage : Forall normalised landmarks.

Lemma scaled_onCanvas (share size : Q) : 0 <= share <= 1 -> 0 <= size -> 0 <= share * size <= size.
Proof.
  intros (S0 & S1) P.
  assert (A : 0 <= share * size) by (apply Qmult_le_0_compat; lra).
  assert (B : 0 <= (1 - share) * size) by (apply Qmult_le_0_compat; lra).
  assert (E : size == share * size + (1 - share) * size) by ring.
  lra.
Qed.

Lemma toCanvas_onCanvas (idx : nat) (prevPositions : Skeleton.Positions) :
  storedOnCanvas width height prevPositions ->
  let result := Skeleton.toCanvas landmarks width height options idx prevPositions in
  storedOnCanvas width height (fst result)
  /\ (forall position, snd result = Some position -> onCanvas width height position).
Proof.
  intro St. cbv zeta. unfold Skeleton.toCanvas. cbv zeta.
  destruct (nth_error landmarks idx) as [lm|] eqn:E; [|split; [exact St | discriminate]].
  destruct (Qltb (visibility lm) _); [split; [exact St | discriminate]|].
  assert (N : normalised lm).
  { rewrite Forall_forall in inImage. apply inImage. eapply nth_error_In. exact E. }
  destruct N as (Nx & Ny).
  set (rawX := if Skeleton.optionOr options Skeleton.mirror true
               then (1 - x lm) * width else x lm * width).
  set (rawY := y lm * height).
  assert (Rx : 0 <= rawX <= width).
  { subst rawX. destruct (Skeleton.optionOr options Skeleton.mirror true);
      apply scaled_onCanvas; try exact wide; lra. }
  assert (Ry : 0 <= rawY <= height) by (apply scaled_onCanvas; [exact Ny | exact high]).
  assert (P : onCanvas width height (snd (Skeleton.getSmoothedPosition idx rawX rawY prevPositions))
              /\ fst (Skeleton.getSmoothedPosition idx rawX rawY prevPositions)
                 = Skeleton.set idx (snd (Skeleton.getSmoothedPosition idx rawX rawY prevPositions))
                     prevPositions).
  { unfold Skeleton.getSmoothedPosition.
    destruct (prevPositions idx) as [prev|] eqn:Ep; cbv zeta; cbn [fst snd].
    - split; [|reflexivity]. destruct (St idx prev Ep) as (Px & Py).
      unfold onCanvas, Skeleton.SMOOTH_FACTOR.
      cbn [Skeleton.Position.x Skeleton.Position.y]. split; lra.
    - split; [|reflexivity]. unfold onCanvas.
      cbn [Skeleton.Position.x Skeleton.Position.y]. tauto. }
  destruct P as (Pc & Ps).
  destruct (Skeleton.getSmoothedPosition idx rawX rawY prevPositions) as [positions smoothed].
  cbn [fst snd] in *. split.
  - subst positions. intros k p. unfold Skeleton.set.
    destruct (k =? idx)%nat; [intro K; injection K as <-; exact Pc | apply St].
  - intros p K. injection K as <-. exact Pc.
Qed.

Lemma drawConnections_onCanvas (connections : list (nat * nat * string))
    (prevPositions : Skeleton.Positions) :
  storedOnCanvas width height prevPositions ->
  let result :=
    Skeleton.drawConnections landmarks width height options connections prevPositions in
  storedOnCanvas width height (fst result)
  /\ Forall (drawnOnCanvas width height) (snd result).
Proof.
  revert prevPositions.
  induction connections as [|[[fromIdx toIdx] color] rest IH]; intros prevPositions St;
    cbn [Skeleton.drawConnections]; cbv zeta.
  - split; [exact St | constructor].
  - pose proof (toCanvas_onCanvas fromIdx prevPositions St) as (S1 & P1). cbv zeta in S1, P1.
    destruct (Skeleton.toCanvas landmarks width height options fromIdx prevPositions)
      as [positions1 from]. cbn [fst snd] in *.
    pose proof (toCanvas_onCanvas toIdx positions1 S1) as (S2 & P2). cbv zeta in S2, P2.
    destruct (Skeleton.toCanvas landmarks width height options toIdx positions1)
      as [positions2 to]. cbn [fst snd] in *.
    specialize (IH positions2 S2). cbv zeta in IH.
    destruct (Skeleton.drawConnections landmarks width height options rest positions2)
      as [positions3 drawn]. cbn [fst snd] in *. destruct IH as (S3 & D3).
    destruct from as [from|], to as [to|]; cbn [fst snd]; (split; [exact S3|]); try exact D3.
    constructor; [|constructor; [|exact D3]]; cbn [drawnOnCanvas]; auto.
Qed.

Lemma drawJoints_onCanvas (indices : list nat) (prevPositions : Skeleton.Positions) :
  storedOnCanvas width height prevPositions ->
  let result := Skeleton.drawJoints landmarks width height options indices prevPositions in
  storedOnCanvas width height (fst result)
  /\ Forall (drawnOnCanvas width height) (snd result).
Proof.
  revert prevPositions.
  induction indices as [|idx rest IH]; intros prevPositions St;
    cbn [Skeleton.drawJoints]; cbv zeta.
  - split; [exact St | constructor].
  - pose proof (toCanvas_onCanvas idx prevPositions St) as (S1 & P1). cbv zeta in S1, P1.
    destruct (Skeleton.toCanvas landmarks width height options idx prevPositions)
      as [positions1 pos]. cbn [fst snd] in *.
    specialize (IH positions1 S1). cbv zeta in IH.
    destruct (Skeleton.drawJoints landmarks width height options rest positions1)
      as [positions2 drawn]. cbn [fst snd] in *. destruct IH as (S2 & D2).
    destruct pos as [pos|]; cbn [fst snd]; (split; [exact S2|]); [|exact D2].
    constructor; [|exact D2]. cbn [drawnOnCanvas]. auto.
Qed.

(** X25: for landmarks in the unit square of the image, everything that
    [drawSkeleton] draws and stores lies on the canvas, mirrored or not,
    provided the stored positions did. *)
Theorem skeleton_is_drawn_on_the_canvas (prevPositions : Skeleton.Positions) :
  storedOnCanvas width height prevPositions ->
  let result := Skeleton.drawSkeleton landmarks width height options prevPositions in
  storedOnCanvas width height (fst result)
  /\ Forall (drawnOnCanvas width height) (snd result).
Proof.
  intro St. cbv zeta. unfold Skeleton.drawSkeleton.
  pose proof (drawConnections_onCanvas Skeleton.CONNECTIONS prevPositions St) as (S1 & D1).
  cbv zeta in S1, D1.
  destruct (Skeleton.drawConnections _ _ _ _ _ _) as [positions1 lines]. cbn [fst snd] in *.
  pose proof (drawJoints_onCanvas Skeleton.JOINT_INDICES positions1 S1) as (S2 & D2).
  cbv zeta in S2, D2.
  destruct (Skeleton.drawJoints _ _ _ _ _ _) as [positions2 joints]. cbn [fst snd] in *.
  split; [exact S2|]. apply Forall_app. tauto.
Qed.

End Canvas.

Section Visible.

Variables (landmarks : list NormalizedLandmark) (width height : Q).
Variable options : option Skeleton.DrawSkeletonOptions.

Lemma toCanvas_visible (idx : nat) (prevPositions : Skeleton.Positions) :
  let result := Skeleton.toCanvas landmarks width height options idx prevPositions in
  (visibleAt landmarks options idx = true -> snd result <> None)
  /\ (visibleAt landmarks options idx = false -> result = (prevPositions, None)).
Proof.
  cbv zeta. unfold visibleAt, Skeleton.toCanvas. cbv zeta.
  destruct (nth_error landmarks idx) as [lm|]; [|split; [discriminate | reflexivity]].
  unfold Qltb, Qgeb. 
  destruct (Qle_bool _ (visibility lm)); cbn [negb].
  - destruct (Skeleton.getSmoothedPosition _ _ _ _). cbn [snd].
    split; [discriminate | discriminate].
  - split; [discriminate | reflexivity].
Qed.

Lemma drawConnections_count (connections : list (nat * nat * string))
    (prevPositions : Skeleton.Positions) :
  length (snd (Skeleton.drawConnections landmarks width height options connections
                 prevPositions))
  = (2 * length (filter (connected landmarks options) connections))%nat.
Proof.
  revert prevPositions.
  induction connections as [|[[fromIdx toIdx] color] rest IH]; intro prevPositions;
    cbn [Skeleton.drawConnections filter]; [reflexivity|].
  cbv zeta. unfold connected at 1. cbn [fst snd].
  pose proof (toCanvas_visible fromIdx prevPositions) as (V1 & H1). cbv zeta in V1, H1.
  destruct (Skeleton.toCanvas landmarks width height options fromIdx prevPositions)
    as [positions1 from].
  pose proof (toCanvas_visible toIdx positions1) as (V2 & H2). cbv zeta in V2, H2.
  destruct (Skeleton.toCanvas landmarks width height options toIdx positions1)
    as [positions2 to].
  specialize (IH positions2).
  destruct (Skeleton.drawConnections landmarks width height options rest positions2)
    as [positions3 drawn]. cbn [fst snd] in *.
  destruct (visibleAt landmarks options fromIdx); cbn [andb].
  - destruct from as [from|]; [|exfalso; apply V1; reflexivity].
    destruct (visibleAt landmarks options toIdx).
    + destruct to as [to|]; [|exfalso; apply V2; reflexivity].
      cbn [snd length]. rewrite IH. lia.
    + specialize (H2 eq_refl). injection H2 as _ ->. cbn [snd]. exact IH.
  - specialize (H1 eq_refl). injection H1 as _ ->. destruct to; cbn [snd]; exact IH.
Qed.

Lemma drawJoints_count (indices : list nat) (prevPositions : Skeleton.Positions) :
  length (snd (Skeleton.drawJoints landmarks width height options indices prevPositions))
  = length (filter (visibleAt landmarks options) indices).
Proof.
  revert prevPositions.
  induction indices as [|idx rest IH]; intro prevPositions;
    cbn [Skeleton.drawJoints filter]; [reflexivity|].
  cbv zeta.
  pose proof (toCanvas_visible idx prevPositions) as (V1 & H1). cbv zeta in V1, H1.
  destruct (Skeleton.toCanvas landmarks width height options idx prevPositions)
    as [positions1 pos].
  specialize (IH positions1).
  destruct (Skeleton.drawJoints landmarks width height options rest positions1)
    as [positions2 drawn]. cbn [fst snd] in *.
  destruct (visibleAt landmarks options idx).
  - destruct pos as [pos|]; [|exfalso; apply V1; reflexivity].
    cbn [snd length]. rewrite IH. reflexivity.
  - specialize (H1 eq_refl). injection H1 as _ ->. cbn [snd]. exact IH.
Qed.

Lemma draw_hidden (prevPositions : Skeleton.Positions) :
  (forall idx, visibleAt landmarks options idx = false) ->
  (forall connections,
     Skeleton.drawConnections landmarks width height options connections prevPositions
     = (prevPositions, []))
  /\ (forall indices,
        Skeleton.drawJoints landmarks width height options indices prevPositions
        = (prevPositions, [])).
Proof.
  intro H.
  assert (T : forall idx, Skeleton.toCanvas landmarks width height options idx prevPositions
                          = (prevPositions, None)).
  { intro idx. apply (toCanvas_visible idx prevPositions). apply H. }
  split.
  - induction connections as [|[[fromIdx toIdx] color] rest IH];
      cbn [Skeleton.drawConnections]; [reflexivity|].
    cbv zeta. rewrite (T fromIdx), (T toIdx), IH. reflexivity.
  - induction indices as [|idx rest IH]; cbn [Skeleton.drawJoints]; [reflexivity|].
    cbv zeta. rewrite (T idx), IH. reflexivity.
Qed.

(** [toCanvas] stores the position that it returns, and no other. *)
Lemma toCanvas_stores (idx : nat) (prevPositions : Skeleton.Positions) :
  let result := Skeleton.toCanvas landmarks width height options idx prevPositions in
  (forall other, other <> idx -> fst result other = prevPositions other)
  /\ (forall position, snd result = Some position -> fst result idx = Some position).
Proof.
  cbv zeta. unfold Skeleton.toCanvas. cbv zeta.
  destruct (nth_error landmarks idx) as [lm|]; [|split; [reflexivity | discriminate]].
  destruct (Qltb (visibility lm) _); [split; [reflexivity | discriminate]|].
  unfold Skeleton.getSmoothedPosition.
  destruct (prevPositions idx); cbv zeta; cbn [fst snd]; split;
    try (intros other N; apply set_other; exact N);
    intros position E; injection E as <-; apply set_same.
Qed.

Lemma drawJoints_keeps (indices : list nat) (prevPositions : Skeleton.Positions)
    (other : nat) :
  ~ In other indices ->
  fst (Skeleton.drawJoints landmarks width height options indices prevPositions) other
  = prevPositions other.
Proof.
  revert prevPositions.
  induction indices as [|idx rest IH]; intros prevPositions N;
    cbn [Skeleton.drawJoints]; [reflexivity|].
  cbv zeta.
  pose proof (toCanvas_stores idx prevPositions) as (K & _). cbv zeta in K.
  destruct (Skeleton.toCanvas landmarks width height options idx prevPositions)
    as [positions1 pos].
  specialize (IH positions1).
  destruct (Skeleton.drawJoints landmarks width height options rest positions1)
    as [positions2 drawn]. cbn [fst snd] in *.
  assert (E : positions2 other = prevPositions other).
  { rewrite IH; [|intro I; apply N; right; exact I].
    apply K. intro I. apply N. left. symmetry. exact I. }
  destruct pos; exact E.
Qed.

Lemma takenToCanvas_app (calls more : list nat) (prevPositions : Skeleton.Positions) :
  takenToCanvas landmarks width height options (calls ++ more) prevPositions
  = takenToCanvas landmarks width height options more
      (takenToCanvas landmarks width height options calls prevPositions).
Proof. unfold takenToCanvas. apply fold_left_app. Qed.

(** The loop over the connections draws the strokes of each connection,
    between the positions stored for its ends, and leaves the positions
    that the calls for all the ends leave. *)
Lemma drawConnections_strokes (rest front : list (nat * nat * string))
    (prevPositions : Skeleton.Positions) :
  let result :=
    Skeleton.drawConnections landmarks width height options rest
      (takenToCanvas landmarks width height options (endsOf front) prevPositions) in
  snd result
  = flat_map
      (fun entry =>
         strokesOf landmarks width height options prevPositions (fst entry) (snd entry))
      (withFront front rest)
  /\ fst result
     = takenToCanvas landmarks width height options (endsOf (front ++ rest)) prevPositions.
Proof.
  revert front.
  induction rest as [|[[fromIdx toIdx] color] rest IH]; intro front; cbv zeta;
    cbn [Skeleton.drawConnections withFront flat_map fst snd].
  - rewrite app_nil_r. split; reflexivity.
  - cbv zeta.
    set (before := takenToCanvas landmarks width height options (endsOf front) prevPositions).
    assert (E1 : takenToCanvas landmarks width height options (endsOf front ++ [fromIdx])
                   prevPositions
                 = fst (Skeleton.toCanvas landmarks width height options fromIdx before)).
    { rewrite takenToCanvas_app. reflexivity. }
    assert (E2 : takenToCanvas landmarks width height options
                   (endsOf front ++ [fromIdx; toIdx]) prevPositions
                 = fst (Skeleton.toCanvas landmarks width height options toIdx
                          (fst (Skeleton.toCanvas landmarks width height options fromIdx
                                  before)))).
    { rewrite takenToCanvas_app. reflexivity. }
    assert (E3 : endsOf (front ++ [(fromIdx, toIdx, color)])
                 = endsOf front ++ [fromIdx; toIdx]).
    { unfold endsOf. rewrite flat_map_app. reflexivity. }
    assert (Es : strokesOf landmarks width height options prevPositions front
                   (fromIdx, toIdx, color)
                 = if visibleAt landmarks options fromIdx && visibleAt landmarks options toIdx
                   then
                     match fst (Skeleton.toCanvas landmarks width height options fromIdx
                                  before) fromIdx,
                           fst (Skeleton.toCanvas landmarks width height options toIdx
                                  (fst (Skeleton.toCanvas landmarks width height options
                                          fromIdx before))) toIdx with
                     | Some from, Some to =>
                         strokesFor options (fromIdx, toIdx, color) (from, to)
                     | _, _ => []
                     end
                   else []).
    { unfold strokesOf. cbv zeta. cbn [fst snd]. rewrite E1, E2. reflexivity. }
    rewrite Es. clear Es E1.
    specialize (IH (front ++ [(fromIdx, toIdx, color)])). cbv zeta in IH.
    rewrite E3, E2, <- app_assoc in IH. cbn [app] in IH. clear E2 E3.
    pose proof (toCanvas_visible fromIdx before) as (V1 & H1). cbv zeta in V1, H1.
    pose proof (toCanvas_stores fromIdx before) as (_ & S1). cbv zeta in S1.
    destruct (Skeleton.toCanvas landmarks width height options fromIdx before)
      as [positions1 from].
    cbn [fst snd] in *.
    pose proof (toCanvas_visible toIdx positions1) as (V2 & H2). cbv zeta in V2, H2.
    pose proof (toCanvas_stores toIdx positions1) as (_ & S2). cbv zeta in S2.
    destruct (Skeleton.toCanvas landmarks width height options toIdx positions1)
      as [positions2 to].
    cbn [fst snd] in *.
    destruct IH as (D & P).
    destruct (Skeleton.drawConnections landmarks width height options rest positions2)
      as [positions3 drawn]. cbn [fst snd] in *.
    destruct (visibleAt landmarks options fromIdx); cbn [andb].
    + destruct from as [from|]; [|exfalso; apply V1; reflexivity].
      rewrite (S1 from eq_refl).
      destruct (visibleAt landmarks options toIdx).
      * destruct to as [to|]; [|exfalso; apply V2; reflexivity].
        rewrite (S2 to eq_refl). unfold strokesFor. cbn [fst snd app].
        rewrite D. split; [reflexivity | exact P].
      * specialize (H2 eq_refl). injection H2 as _ ->. cbn [fst snd app].
        split; assumption.
    + specialize (H1 eq_refl). injection H1 as _ ->.
      destruct to; cbn [fst snd app]; split; assumption.
Qed.

(** The circles of the loop over the joints: one for each visible joint,
    in their order, at the position that the loop leaves stored for it. *)
Lemma drawJoints_circles (indices : list nat) (prevPositions : Skeleton.Positions) :
  NoDup indices ->
  let result := Skeleton.drawJoints landmarks width height options indices prevPositions in
  exists centers,
    snd result = map (circleAt options) centers
    /\ map Some centers = map (fst result) (filter (visibleAt landmarks options) indices).
Proof.
  revert prevPositions.
  induction indices as [|idx rest IH]; intros prevPositions N; cbv zeta;
    cbn [Skeleton.drawJoints filter]; [exists []; split; reflexivity|].
  inversion N as [|? ? Ni Nr]; subst.
  pose proof (drawJoints_keeps rest) as Keeps.
  pose proof (toCanvas_visible idx prevPositions) as (V1 & H1). cbv zeta in V1, H1.
  pose proof (toCanvas_stores idx prevPositions) as (_ & St). cbv zeta in St.
  destruct (Skeleton.toCanvas landmarks width height options idx prevPositions)
    as [positions1 pos].
  specialize (Keeps positions1 idx Ni).
  destruct (IH positions1 Nr) as (centers & E & M). cbv zeta in E, M.
  destruct (Skeleton.drawJoints landmarks width height options rest positions1)
    as [positions2 drawn]. cbn [fst snd] in *.
  destruct (visibleAt landmarks options idx).
  - destruct pos as [pos|]; [|exfalso; apply V1; reflexivity].
    exists (pos :: centers). cbn [fst snd map]. rewrite E, M, Keeps, (St pos eq_refl).
    split; reflexivity.
  - specialize (H1 eq_refl). injection H1 as _ ->. cbn [fst snd].
    exists centers. split; assumption.
Qed.

Lemma JOINT_INDICES_NoDup : NoDup Skeleton.JOINT_INDICES.
Proof.
  unfold Skeleton.JOINT_INDICES.
  repeat (constructor; [cbn [In]; intro K; repeat (destruct K as [K|K]; [discriminate K|]);
                        exact K|]).
  constructor.
Qed.

(** X26: what [drawSkeleton] draws is, for each connection with both ends
    visible and in the order of [CONNECTIONS], the glow (4 wider, at 30 %)
    and the main line in the colour of the connection, both from the
    position stored for the first landmark of the connection when it has
    been taken to the canvas to the position stored for the second when
    that one has been; then one circle of the joint radius for each
    visible joint, in the order of [JOINT_INDICES], at the position that
    the call leaves stored for the joint; and nothing else: two strokes
    for each such connection and one circle for each such joint.  A
    visible landmark without a stored position is stored at its canvas
    point, mirrored unless the options say otherwise.  With no landmark
    visible the call draws nothing and leaves the stored positions. *)
Theorem skeleton_draws_what_is_visible (prevPositions : Skeleton.Positions) :
  let result := Skeleton.drawSkeleton landmarks width height options prevPositions in
  let connections := filter (connected landmarks options) Skeleton.CONNECTIONS in
  let joints := filter (visibleAt landmarks options) Skeleton.JOINT_INDICES in
  (exists centers,
     snd result
     = flat_map
         (fun entry =>
            strokesOf landmarks width height options prevPositions (fst entry) (snd entry))
         (withFront [] Skeleton.CONNECTIONS)
       ++ map (circleAt options) centers
     /\ map Some centers = map (fst result) joints)
  /\ length (snd result) = (2 * length connections + length joints)%nat
  /\ (forall idx lm,
        nth_error landmarks idx = Some lm ->
        visibleAt landmarks options idx = true ->
        prevPositions idx = None ->
        takenToCanvas landmarks width height options [idx] prevPositions idx
        = Some {| Skeleton.Position.x :=
                    if Skeleton.optionOr options Skeleton.mirror true
                    then (1 - x lm) * width else x lm * width;
                  Skeleton.Position.y := y lm * height |})
  /\ ((forall idx, visibleAt landmarks options idx = false) ->
      result = (prevPositions, [])).
Proof.
  cbv zeta. split; [|split; [|split]].
  - unfold Skeleton.drawSkeleton.
    pose proof (drawConnections_strokes Skeleton.CONNECTIONS [] prevPositions) as (E & _).
    cbv zeta in E. change (takenToCanvas landmarks width height options (endsOf []) prevPositions)
      with prevPositions in E.
    destruct (Skeleton.drawConnections _ _ _ _ _ _) as [positions1 lines].
    destruct (drawJoints_circles Skeleton.JOINT_INDICES positions1 JOINT_INDICES_NoDup)
      as (centers & C & M).
    destruct (Skeleton.drawJoints _ _ _ _ _ _) as [positions2 joints].
    cbn [fst snd] in *. exists centers. rewrite E, C. split; [reflexivity | exact M].
  - unfold Skeleton.drawSkeleton.
    pose proof (drawConnections_count Skeleton.CONNECTIONS prevPositions) as C.
    destruct (Skeleton.drawConnections _ _ _ _ _ _) as [positions1 lines].
    pose proof (drawJoints_count Skeleton.JOINT_INDICES positions1) as J.
    destruct (Skeleton.drawJoints _ _ _ _ _ _) as [positions2 joints].
    cbn [fst snd] in *. rewrite length_app, C, J. reflexivity.
  - intros idx lm E V N. unfold takenToCanvas. cbn [fold_left].
    unfold visibleAt in V. rewrite E in V. unfold Qgeb in V.
    unfold Skeleton.toCanvas. cbv zeta. rewrite E. unfold Qltb. rewrite V. cbn [negb].
    unfold Skeleton.getSmoothedPosition. rewrite N. cbn [fst]. apply set_same.
  - intro H. destruct (draw_hidden prevPositions H) as (C & J).
    unfold Skeleton.drawSkeleton. rewrite C, J. reflexivity.
Qed.

End Visible.

Lemma skeleton_draws_what_is_visible_witness :
  (exists centers,
     snd (Skeleton.drawSkeleton (poseAt 0.30) 640 480 None Skeleton.resetSmoothing)
     = strokesFor None (11%nat, 12%nat, Skeleton.COLORS_torso)
         ({| Skeleton.Position.x := (1 - 0) * 640; Skeleton.Position.y := 0.30 * 480 |},
          {| Skeleton.Position.x := (1 - 1) * 640; Skeleton.Position.y := 0.30 * 480 |})
       ++ map (circleAt None) centers
     /\ length centers = 3%nat)
  /\ Skeleton.drawSkeleton hiddenPose 640 480 None Skeleton.resetSmoothing
     = (Skeleton.resetSmoothing, []).
Proof.
  split.
  - destruct (skeleton_draws_what_is_visible (poseAt 0.30) 640 480 None
                Skeleton.resetSmoothing) as ((centers & Drawn & Stored) & _ & _ & _).
    exists centers. split.
    + rewrite Drawn. apply (f_equal (fun lines => lines ++ map (circleAt None) centers)).
      vm_compute. reflexivity.
    + apply (f_equal (@length _)) in Stored. rewrite !length_map in Stored.
      rewrite Stored. vm_compute. reflexivity.
  - destruct (skeleton_draws_what_is_visible hiddenPose 640 480 None
                Skeleton.resetSmoothing) as (_ & _ & _ & Hidden).
    apply Hidden.
    intro idx. unfold visibleAt.
    destruct (nth_error hiddenPose idx) as [lm|] eqn:E; [|reflexivity].
    apply nth_error_In in E. unfold hiddenPose in E. apply repeat_spec in E. subst lm.
    reflexivity.
Defined.

Lemma skeleton_is_drawn_on_the_canvas_witness :
  Forall (drawnOnCanvas 640 480)
    (snd (Skeleton.drawSkeleton (poseAt 0.30) 640 480 None Skeleton.resetSmoothing)).
Proof.
  apply (skeleton_is_drawn_on_the_canvas (poseAt 0.30) 640 480 None).
  - vm_compute. discriminate.
  - vm_compute. discriminate.
  - unfold poseAt.
    repeat (constructor; [split; split; vm_compute; discriminate|]). constructor.
  - intros idx position E. discriminate E.
Defined.
